(** * you_scrapper: the resilience layer, embedded and verified

    Shallow embedding of [circuit_breaker.py], [state_manager.py],
    [downloader.py] and [player_artifacts.py].

    Conventions of the embedding:
    - Python [int] is [Z]; [float] wall-clock readings ([time.time()],
      [datetime.utcnow()]) are exact rationals [Q] in seconds, rounding of
      the float subtraction is not modelled;
    - [str] is [string], a character being a code point below 256; file
      contents and chunks are [list byte];
    - the job directory, the artifact directory and the file system are
      finite maps ([gmap]) keyed by job id, version id and path; the
      in-memory artifact cache is an insertion-ordered association list,
      as a Python [dict] iterates;
    - an [async def] is run to completion: its effects are threaded
      through an explicit world, an exception is the [inl] of a sum;
    - [print] is not an effect of the model, except in the artifact
      manager where the log is what tells a default from a silent one. *)

From Stdlib Require Import ZArith QArith Lqa String Ascii List Bool Lia.
From Stdlib Require Import DecimalString Sorting.Sorted.
From stdpp Require Import gmap strings list.
Import ListNotations.

Open Scope string_scope.
Open Scope list_scope.
Open Scope Z_scope.

(** ** Python primitives the sources rely on *)
Module py.

(** [str(n)] and the [{n}] of an f-string, for an [int]. *)
Definition str_of_int (n : Z) : string := NilZero.string_of_int (Z.to_int n).

(** Truth value of an [Optional[str]]: [None] and [''] are false. *)
Definition truthy_str (o : option string) : bool :=
  match o with
  | Some s => negb (String.eqb s "")
  | None => false
  end.

(** Truth value of an [Optional[int]]: [None] and [0] are false. *)
Definition truthy_int (o : option Z) : bool :=
  match o with
  | Some n => negb (n =? 0)%Z
  | None => false
  end.

(** [c.lower()] on one code point below 256: A-Z and the Latin-1 capitals. *)
Definition lower_char (c : ascii) : ascii :=
  let n := nat_of_ascii c in
  if ((65 <=? n)%nat && (n <=? 90)%nat)
     || ((192 <=? n)%nat && (n <=? 222)%nat && negb (n =? 215)%nat)
  then ascii_of_nat (n + 32) else c.

Fixpoint lower (s : string) : string :=
  match s with
  | EmptyString => EmptyString
  | String c r => String (lower_char c) (lower r)
  end.

Fixpoint startswith (p s : string) : bool :=
  match p, s with
  | EmptyString, _ => true
  | String a p', String b s' => Ascii.eqb a b && startswith p' s'
  | String _ _, EmptyString => false
  end.

(** [p in s] for two [str]. *)
Fixpoint contains (p s : string) : bool :=
  startswith p s ||
  match s with
  | EmptyString => false
  | String _ s' => contains p s'
  end.

(** [range(n)]. *)
Definition range (n : Z) : list Z := map Z.of_nat (seq 0 (Z.to_nat n)).

(** An exception as the sources see one: [str(e)] and the optional
    [status_code] attribute read by [getattr(e, 'status_code', None)]. *)
Record exn := Exception_ { msg : string; status_code : option Z }.

Definition Exception (m : string) : exn :=
  {| msg := m; status_code := None |}.

(** [c.isspace()] on a code point below 256, which is also what [\s]
    matches in a [str] pattern. *)
Definition is_space (c : ascii) : bool :=
  let n := nat_of_ascii c in
  ((9 <=? n)%nat && (n <=? 13)%nat) || ((28 <=? n)%nat && (n <=? 32)%nat)
  || (n =? 133)%nat || (n =? 160)%nat.

(** [\d] below 256: the ASCII digits. *)
Definition is_digit (c : ascii) : bool :=
  let n := nat_of_ascii c in (48 <=? n)%nat && (n <=? 57)%nat.

Definition digit_value (c : ascii) : Z := Z.of_nat (nat_of_ascii c) - 48.

(** The whitespace [int()] skips around a literal, on a code point below
    256: tab to carriage return and the space, and the two spaces above 127
    there, U+0085 and U+00A0, which the conversion turns into a space
    first. The separators U+001C to U+001F, which [str.isspace()] and [\s]
    take, are not skipped. *)
Definition is_int_space (c : ascii) : bool :=
  let n := nat_of_ascii c in
  ((9 <=? n)%nat && (n <=? 13)%nat) || (n =? 32)%nat
  || (n =? 133)%nat || (n =? 160)%nat.

Fixpoint skip_int_space (s : string) : string :=
  match s with
  | String c r => if is_int_space c then skip_int_space r else s
  | EmptyString => EmptyString
  end.

(** The run of digits and single underscores at the head of a literal: its
    value, the number of its digits and what follows it. [None] when an
    underscore follows another or ends the run. *)
Fixpoint int_scan (s : string) (acc digits : Z) (after_underscore : bool)
    : option (Z * Z * string) :=
  match s with
  | String c r =>
      if is_digit c then
        int_scan r (10 * acc + digit_value c) (digits + 1) false
      else if Ascii.eqb c "_" then
        if after_underscore then None else int_scan r acc digits true
      else if after_underscore then None
      else Some (acc, digits, s)
  | EmptyString =>
      if after_underscore then None else Some (acc, digits, EmptyString)
  end.

(** [repr(s)] of a [str] of code points below 256: between apostrophes, or
    between double quotes when [s] has an apostrophe and no double quote;
    the quote in use and the backslash escaped, tab, newline and carriage
    return by their letter, the other characters that are not printable
    by two hexadecimal digits. *)
Definition backslash : ascii := ascii_of_nat 92.
Definition apostrophe : ascii := ascii_of_nat 39.
Definition double_quote : ascii := ascii_of_nat 34.

Definition is_printable (c : ascii) : bool :=
  let n := nat_of_ascii c in
  ((32 <=? n)%nat && (n <=? 126)%nat)
  || ((161 <=? n)%nat && negb (n =? 173)%nat).

Definition hex_digit (n : nat) : ascii :=
  nth n (list_ascii_of_string "0123456789abcdef") "0"%char.

Fixpoint has_char (c : ascii) (s : string) : bool :=
  match s with
  | String c' r => Ascii.eqb c c' || has_char c r
  | EmptyString => false
  end.

Definition repr_char (quote c : ascii) : string :=
  let n := nat_of_ascii c in
  if Ascii.eqb c quote || Ascii.eqb c backslash then
    String backslash (String c EmptyString)
  else if (n =? 9)%nat then String backslash "t"
  else if (n =? 10)%nat then String backslash "n"
  else if (n =? 13)%nat then String backslash "r"
  else if is_printable c then String c EmptyString
  else String backslash
         (String "x" (String (hex_digit (n / 16))
                        (String (hex_digit (n mod 16)) EmptyString))).

Fixpoint repr_chars (quote : ascii) (s : string) : string :=
  match s with
  | String c r => String.append (repr_char quote c) (repr_chars quote r)
  | EmptyString => EmptyString
  end.

Definition repr (s : string) : string :=
  let quote :=
    if has_char apostrophe s && negb (has_char double_quote s)
    then double_quote else apostrophe in
  String quote
    (String.append (repr_chars quote s) (String quote EmptyString)).

Fixpoint first_chars (n : nat) (s : string) : string :=
  match n, s with
  | S n', String c r => String c (first_chars n' r)
  | _, _ => EmptyString
  end.

(** The [ValueError] of [int(s)] for a literal that does not parse; the
    message shows the first 200 characters of [repr(s)]. *)
Definition ValueError_int (s : string) : exn :=
  Exception (String.append "invalid literal for int() with base 10: "
               (first_chars 200 (repr s))).

(** [sys.int_info.default_max_str_digits], and the [ValueError] of a
    literal with more digits. *)
Definition int_max_str_digits : Z := 4300.

Definition ValueError_int_limit (digits : Z) : exn :=
  Exception
    (String.append
       "Exceeds the limit (4300 digits) for integer string conversion: value has "
       (String.append (str_of_int digits)
          " digits; use sys.set_int_max_str_digits() to increase the limit")).

(** [int(s)] for a [str], in base 10: leading whitespace, an optional sign,
    a run of digits and single underscores that starts with a digit, then
    whitespace to the end. The number of digits is checked against the
    limit as soon as the run has been read, before what follows it is. *)
Definition int (s : string) : exn + Z :=
  let invalid : exn + Z := inl (ValueError_int s) in
  let body := skip_int_space s in
  let '(negative, unsigned) :=
    match body with
    | String "+" r => (false, r)
    | String "-" r => (true, r)
    | _ => (false, body)
    end in
  match unsigned with
  | String "_" _ => invalid
  | _ =>
      match int_scan unsigned 0 0 false with
      | None => invalid
      | Some (value, digits, rest) =>
          if int_max_str_digits <? digits then
            inl (ValueError_int_limit digits)
          else if digits =? 0 then invalid
          else
            match skip_int_space rest with
            | EmptyString => inr (if negative : bool then - value else value)
            | _ => invalid
            end
      end
  end.

Definition ZeroDivisionError : exn := Exception "division by zero".

(** *** The fragment of [re] the sources use

    A pattern is a sequence of atoms: a literal character, one character
    of a class, and a class under [?], [*] or [+] (greedy, backtracking),
    with unnested capture groups. *)
Inductive atom :=
| Lit (c : ascii)
| One (cls : ascii -> bool)
| Opt (cls : ascii -> bool)
| Star (cls : ascii -> bool)
| Plus (cls : ascii -> bool)
| Open
| Close.

Fixpoint lits (s : string) : list atom :=
  match s with
  | EmptyString => []
  | String c r => Lit c :: lits r
  end.

(** A consumed character joins the group being captured, if any. *)
Definition capture (c : ascii) (cur : option string) : option string :=
  option_map (fun g => String.append g (String c EmptyString)) cur.

(** Greedy repetition of a class: take one more character first, fall back
    on the continuation when the rest does not match. *)
Fixpoint star_loop {R : Type} (cls : ascii -> bool)
    (k : string -> option string -> option R)
    (s : string) (cur : option string) : option R :=
  match s with
  | String a s' =>
      if cls a then
        match star_loop cls k s' (capture a cur) with
        | Some r => Some r
        | None => k s cur
        end
      else k s cur
  | EmptyString => k s cur
  end.

(** Match the pattern at the start of [s]; the answer is the list of the
    groups captured. *)
Fixpoint match_at (re : list atom) (s : string) (cur : option string)
    (groups : list string) {struct re} : option (list string) :=
  match re with
  | [] => Some groups
  | Lit c :: re' =>
      match s with
      | String a s' =>
          if Ascii.eqb a c then match_at re' s' (capture a cur) groups else None
      | EmptyString => None
      end
  | One cls :: re' =>
      match s with
      | String a s' =>
          if cls a then match_at re' s' (capture a cur) groups else None
      | EmptyString => None
      end
  | Opt cls :: re' =>
      match s with
      | String a s' =>
          if cls a then
            match match_at re' s' (capture a cur) groups with
            | Some r => Some r
            | None => match_at re' s cur groups
            end
          else match_at re' s cur groups
      | EmptyString => match_at re' s cur groups
      end
  | Star cls :: re' =>
      star_loop cls (fun s1 cur1 => match_at re' s1 cur1 groups) s cur
  | Plus cls :: re' =>
      match s with
      | String a s' =>
          if cls a then
            star_loop cls (fun s1 cur1 => match_at re' s1 cur1 groups)
              s' (capture a cur)
          else None
      | EmptyString => None
      end
  | Open :: re' => match_at re' s (Some EmptyString) groups
  | Close :: re' =>
      match_at re' s None (groups ++ [default EmptyString cur])
  end.

(** [re.search(pattern, s)]: the leftmost match, as its groups. *)
Fixpoint re_search (re : list atom) (s : string) : option (list string) :=
  match match_at re s None [] with
  | Some groups => Some groups
  | None =>
      match s with
      | String _ s' => re_search re s'
      | EmptyString => None
      end
  end.

(** [m.group(1)]. *)
Definition group1 (groups : list string) : string :=
  default EmptyString (head groups).

(** [s.replace(old, new)], for a non-empty [old]. *)
Fixpoint drop_chars (n : nat) (s : string) : string :=
  match n, s with
  | S n', String _ r => drop_chars n' r
  | _, _ => s
  end.

Fixpoint replace_fuel (fuel : nat) (old new s : string) : string :=
  match fuel with
  | O => s
  | S fuel' =>
      match s with
      | EmptyString => EmptyString
      | String c r =>
          if startswith old s && negb (String.eqb old EmptyString) then
            String.append new
              (replace_fuel fuel' old new (drop_chars (String.length old) s))
          else String c (replace_fuel fuel' old new r)
      end
  end.

Definition replace (old new s : string) : string :=
  replace_fuel (String.length s) old new s.

(** [s[:n]]. *)
Fixpoint prefix (n : nat) (s : string) : string :=
  match n, s with
  | S n', String c r => String c (prefix n' r)
  | _, _ => EmptyString
  end.

(** *** An insertion-ordered [dict] with [str] keys *)
Section dict.
Context {V : Type}.

Fixpoint dict_get (k : string) (d : list (string * V)) : option V :=
  match d with
  | [] => None
  | (k', v) :: r => if String.eqb k k' then Some v else dict_get k r
  end.

(** [d[k] = v]: in place when the key is there, at the end otherwise. *)
Fixpoint dict_set (k : string) (v : V) (d : list (string * V))
    : list (string * V) :=
  match d with
  | [] => [(k, v)]
  | (k', v') :: r =>
      if String.eqb k k' then (k, v) :: r else (k', v') :: dict_set k v r
  end.

(** [del d[k]]. *)
Fixpoint dict_del (k : string) (d : list (string * V)) : list (string * V) :=
  match d with
  | [] => []
  | (k', v') :: r => if String.eqb k k' then r else (k', v') :: dict_del k r
  end.

(** [min(d.keys(), key=lambda k: key(d[k]))]: the first of the minimal
    keys in iteration order; [None] is the [ValueError] on an empty dict. *)
Fixpoint min_from (key : V -> Q) (best : string * V) (d : list (string * V))
    : string :=
  match d with
  | [] => fst best
  | kv :: r =>
      if negb (Qle_bool (key (snd best)) (key (snd kv)))
      then min_from key kv r else min_from key best r
  end.

Definition dict_min_key (key : V -> Q) (d : list (string * V)) : option string :=
  match d with
  | [] => None
  | kv :: r => Some (min_from key kv r)
  end.

End dict.

(** *** Facts on the strings the sources build *)

Lemma length_append a b :
  String.length (String.append a b)
  = (String.length a + String.length b)%nat.
Proof. induction a as [|c a IH]; simpl; [reflexivity|]. f_equal. exact IH. Qed.

Lemma append_suffix_ne t suffix :
  suffix <> EmptyString -> String.append t suffix <> t.
Proof.
  intros Hs H. apply (f_equal String.length) in H.
  rewrite length_append in H. destruct suffix; [congruence|]. cbn in H. lia.
Qed.

Fixpoint all_chars (cls : ascii -> bool) (s : string) : bool :=
  match s with
  | EmptyString => true
  | String c r => cls c && all_chars cls r
  end.

(** The characters of a printed [int]. *)
Definition is_numeric_char (c : ascii) : bool :=
  is_digit c || Ascii.eqb c "-".

Lemma string_of_uint_numeric d :
  all_chars is_numeric_char (NilEmpty.string_of_uint d) = true.
Proof. induction d; cbn; auto. Qed.

Lemma str_of_int_numeric n :
  all_chars is_numeric_char (str_of_int n) = true.
Proof.
  unfold str_of_int, NilZero.string_of_int.
  destruct (Z.to_int n) as [d|d]; cbn.
  - unfold NilZero.string_of_uint. destruct d; try reflexivity;
      apply (string_of_uint_numeric (_ d)).
  - unfold NilZero.string_of_uint. destruct d; try reflexivity;
      apply (string_of_uint_numeric (_ d)).
Qed.

Lemma lower_char_numeric c : is_numeric_char c = true -> lower_char c = c.
Proof.
  destruct c as [[|] [|] [|] [|] [|] [|] [|] [|]]; cbn; intros H;
    try reflexivity; discriminate H.
Qed.

Lemma lower_numeric s : all_chars is_numeric_char s = true -> lower s = s.
Proof.
  induction s as [|c r IH]; cbn; [reflexivity|].
  intros H. apply andb_prop in H. destruct H as [Hc Hr].
  rewrite (lower_char_numeric c Hc), IH by exact Hr. reflexivity.
Qed.

Lemma lower_append a b :
  lower (String.append a b) = String.append (lower a) (lower b).
Proof. induction a as [|c a IH]; simpl; [reflexivity|]. rewrite IH. reflexivity. Qed.

(** A pattern that starts with a letter occurs nowhere in a printed
    [int]. *)
Lemma contains_numeric p0 pattern s :
  is_numeric_char p0 = false ->
  all_chars is_numeric_char s = true ->
  contains (String p0 pattern) s = false.
Proof.
  intros Hp. induction s as [|c r IH]; cbn; [reflexivity|].
  intros H. apply andb_prop in H. destruct H as [Hc Hr].
  rewrite (IH Hr), orb_false_r.
  destruct (Ascii.eqb_spec p0 c) as [->|_]; [congruence|reflexivity].
Qed.

Definition is_word_char (c : ascii) : bool := negb (is_numeric_char c).

Lemma startswith_append_numeric pattern : forall text s,
  all_chars is_word_char pattern = true ->
  all_chars is_numeric_char s = true ->
  startswith pattern (String.append text s) = startswith pattern text.
Proof.
  induction pattern as [|p0 pattern IH]; intros text s Hp Hs;
    [reflexivity|].
  cbn in Hp. apply andb_prop in Hp. destruct Hp as [Hp0 Hp].
  destruct text as [|c text]; simpl.
  - destruct s as [|c s]; [reflexivity|]. cbn in Hs.
    apply andb_prop in Hs. destruct Hs as [Hc _]. simpl.
    destruct (Ascii.eqb_spec p0 c) as [->|_]; [|reflexivity].
    unfold is_word_char in Hp0. rewrite Hc in Hp0. discriminate.
  - rewrite IH by assumption. reflexivity.
Qed.

(** Appending a printed [int] to a text brings in no occurrence of a
    pattern made of letters and underscores. *)
Lemma contains_append_numeric p0 pattern text s :
  all_chars is_word_char (String p0 pattern) = true ->
  all_chars is_numeric_char s = true ->
  contains (String p0 pattern) (String.append text s)
  = contains (String p0 pattern) text.
Proof.
  intros Hp Hs. induction text as [|c text IH].
  - change (String.append EmptyString s) with s.
    rewrite contains_numeric; [reflexivity| |exact Hs].
    cbn in Hp. apply andb_prop in Hp. destruct Hp as [Hp0 _].
    unfold is_word_char in Hp0. destruct (is_numeric_char p0);
      [discriminate|reflexivity].
  - change (String.append (String c text) s)
      with (String c (String.append text s)).
    change (contains (String p0 pattern) (String c (String.append text s)))
      with (startswith (String p0 pattern) (String c (String.append text s))
            || contains (String p0 pattern) (String.append text s)).
    change (contains (String p0 pattern) (String c text))
      with (startswith (String p0 pattern) (String c text)
            || contains (String p0 pattern) text).
    rewrite IH.
    change (String c (String.append text s))
      with (String.append (String c text) s).
    rewrite startswith_append_numeric by assumption. reflexivity.
Qed.

(** *** What a match captures *)

Definition is_plain (a : atom) : bool :=
  match a with Open | Close => false | _ => true end.

Lemma all_chars_append cls a b :
  all_chars cls a = true -> all_chars cls b = true ->
  all_chars cls (String.append a b) = true.
Proof.
  induction a as [|c a IH]; simpl; [auto|].
  intros Ha Hb. apply andb_prop in Ha. destruct Ha as [Hc Ha].
  rewrite Hc, IH by assumption. reflexivity.
Qed.

Lemma star_loop_outside {R} cls (k : string -> option string -> option R) g :
  forall s,
    star_loop cls k s None = Some g -> exists s1, k s1 None = Some g.
Proof.
  induction s as [|a s IH]; cbn [star_loop]; [eauto|].
  destruct (cls a); [|eauto].
  change (capture a None) with (@None string).
  destruct (star_loop cls k s None) as [r|] eqn:E; [|eauto].
  intros H. inversion H; subst. apply IH. reflexivity.
Qed.

(** Atoms before the group leave no trace in what is captured. *)
Lemma match_at_plain_prefix pre : forall rest s groups g,
  forallb is_plain pre = true ->
  match_at (pre ++ rest) s None groups = Some g ->
  exists s', match_at rest s' None groups = Some g.
Proof.
  induction pre as [|a pre IH]; intros rest s groups g Hplain Hm; [eauto|].
  cbn [forallb] in Hplain. apply andb_prop in Hplain.
  destruct Hplain as [Ha Hpre].
  destruct a; try discriminate Ha; cbn [app match_at] in Hm.
  - destruct s as [|x s]; [discriminate|].
    destruct (Ascii.eqb x c); [|discriminate]. eapply IH; eauto.
  - destruct s as [|x s]; [discriminate|].
    destruct (cls x); [|discriminate]. eapply IH; eauto.
  - destruct s as [|x s]; [eapply IH; eauto|].
    destruct (cls x); [|eapply IH; eauto].
    change (capture x None) with (@None string) in Hm.
    destruct (match_at (pre ++ rest) s None groups) eqn:E.
    + inversion Hm; subst. eapply IH; eauto.
    + eapply IH; eauto.
  - apply star_loop_outside in Hm. destruct Hm as [s1 Hm]. eapply IH; eauto.
  - destruct s as [|x s]; [discriminate|].
    destruct (cls x); [|discriminate].
    change (capture x None) with (@None string) in Hm.
    apply star_loop_outside in Hm. destruct Hm as [s1 Hm]. eapply IH; eauto.
Qed.

Lemma star_loop_inside cls groups g : forall s acc,
  all_chars cls acc = true ->
  acc <> EmptyString ->
  star_loop cls
    (fun s1 cur1 => match_at [Close] s1 cur1 groups) s (Some acc) = Some g ->
  exists captured,
    g = groups ++ [captured]
    /\ captured <> EmptyString /\ all_chars cls captured = true.
Proof.
  induction s as [|a s IH]; intros acc Hacc Hne; cbn [star_loop].
  - cbn. intros H. inversion H; subst. eauto.
  - destruct (cls a) eqn:Ha.
    + cbn [capture option_map].
      assert (Hacc' : all_chars cls (String.append acc (String a EmptyString))
                      = true).
      { apply all_chars_append; [exact Hacc|]. cbn. rewrite Ha. reflexivity. }
      assert (Hne' : String.append acc (String a EmptyString) <> EmptyString).
      { destruct acc; [congruence|discriminate]. }
      destruct (star_loop cls _ s
                  (Some (String.append acc (String a EmptyString))))
        as [r|] eqn:E.
      * intros H. inversion H; subst. exact (IH _ Hacc' Hne' E).
      * cbn. intros H. inversion H; subst. eauto.
    + cbn. intros H. inversion H; subst. eauto.
Qed.

(** A pattern that ends with the one group "one or more of a class"
    captures, when it matches, a non-empty string of that class. *)
Lemma match_at_final_group pre cls s g :
  forallb is_plain pre = true ->
  match_at (pre ++ [Open; Plus cls; Close]) s None [] = Some g ->
  exists captured,
    g = [captured] /\ captured <> EmptyString
    /\ all_chars cls captured = true.
Proof.
  intros Hplain Hm.
  apply match_at_plain_prefix in Hm; [|exact Hplain].
  destruct Hm as [s' Hm]. cbn [match_at] in Hm.
  destruct s' as [|a s']; [discriminate|].
  destruct (cls a) eqn:Ha; [|discriminate].
  cbn [capture option_map String.append] in Hm.
  apply star_loop_inside in Hm; [exact Hm| |discriminate].
  simpl. rewrite Ha. reflexivity.
Qed.

Lemma re_search_matches re g : forall s,
  re_search re s = Some g -> exists s', match_at re s' None [] = Some g.
Proof.
  induction s as [|c s IH]; cbn [re_search].
  - destruct (match_at re EmptyString None []) eqn:E; [|discriminate].
    intros H. inversion H; subst. eauto.
  - destruct (match_at re (String c s) None []) eqn:E.
    + intros H. inversion H; subst. eauto.
    + apply IH.
Qed.

(** *** Facts on the ordered [dict] *)

Section dict_facts.
Context {V : Type}.
Implicit Types (d : list (string * V)) (k : string) (v : V).

Lemma dict_get_set_eq k v d : dict_get k (dict_set k v d) = Some v.
Proof.
  induction d as [|[k' v'] r IH]; cbn.
  - rewrite String.eqb_refl. reflexivity.
  - destruct (String.eqb k k') eqn:E; cbn; rewrite ?String.eqb_refl, ?E; auto.
Qed.

Lemma dict_get_set_ne k k' v d :
  k <> k' -> dict_get k (dict_set k' v d) = dict_get k d.
Proof.
  intros Hne. induction d as [|[k0 v0] r IH]; cbn.
  - destruct (String.eqb_spec k k'); [contradiction|reflexivity].
  - destruct (String.eqb_spec k' k0) as [->|Hk]; cbn.
    + destruct (String.eqb_spec k k0); [contradiction|reflexivity].
    + destruct (String.eqb k k0); [reflexivity|exact IH].
Qed.

Lemma dict_get_del_ne k k' d :
  k <> k' -> dict_get k (dict_del k' d) = dict_get k d.
Proof.
  intros Hne. induction d as [|[k0 v0] r IH]; cbn; [reflexivity|].
  destruct (String.eqb_spec k' k0) as [->|Hk]; cbn.
  - destruct (String.eqb_spec k k0); [contradiction|reflexivity].
  - destruct (String.eqb k k0); [reflexivity|exact IH].
Qed.

Lemma dict_get_Some_In k v d : dict_get k d = Some v -> In (k, v) d.
Proof.
  induction d as [|[k' v'] r IH]; cbn; [discriminate|].
  destruct (String.eqb_spec k k') as [->|_].
  - intros H. inversion H; subst. left; reflexivity.
  - intros H. right. apply IH, H.
Qed.

Lemma dict_get_None_keys k d : dict_get k d = None -> ~ In k (map fst d).
Proof.
  induction d as [|[k' v'] r IH]; cbn; [tauto|].
  destruct (String.eqb_spec k k'); [discriminate|].
  intros H [Hk|Hk]; [congruence|apply (IH H Hk)].
Qed.

Lemma In_dict_get k v d :
  NoDup (map fst d) -> In (k, v) d -> dict_get k d = Some v.
Proof.
  induction d as [|[k' v'] r IH]; cbn; [tauto|].
  intros Hnd [H|H].
  - inversion H; subst. rewrite String.eqb_refl. reflexivity.
  - inversion Hnd as [|? ? Hk Hr]; subst.
    destruct (String.eqb_spec k k') as [->|_]; [|apply IH; assumption].
    exfalso. apply Hk. apply list_elem_of_In.
    apply (in_map fst) in H. exact H.
Qed.

Lemma dict_set_keys k v d :
  map fst (dict_set k v d)
  = match dict_get k d with
    | Some _ => map fst d
    | None => map fst d ++ [k]
    end.
Proof.
  induction d as [|[k' v'] r IH]; cbn; [reflexivity|].
  destruct (String.eqb_spec k k') as [->|_]; cbn; [reflexivity|].
  rewrite IH. destruct (dict_get k r); reflexivity.
Qed.

Lemma dict_set_NoDup k v d :
  NoDup (map fst d) -> NoDup (map fst (dict_set k v d)).
Proof.
  intros Hnd. rewrite dict_set_keys.
  destruct (dict_get k d) eqn:E; [exact Hnd|].
  apply NoDup_app. split; [exact Hnd|]. split.
  - intros x Hx Hk. apply list_elem_of_In in Hx.
    apply list_elem_of_In in Hk. destruct Hk as [<-|[]].
    apply (dict_get_None_keys _ _ E Hx).
  - repeat constructor. intros H. apply list_elem_of_In in H. destruct H.
Qed.

Lemma dict_del_keys_incl k d x :
  In x (map fst (dict_del k d)) -> In x (map fst d).
Proof.
  induction d as [|[k' v'] r IH]; cbn; [tauto|].
  destruct (String.eqb k k'); cbn; [tauto|]. intros [H|H]; auto.
Qed.

Lemma dict_del_NoDup k d :
  NoDup (map fst d) -> NoDup (map fst (dict_del k d)).
Proof.
  induction d as [|[k' v'] r IH]; cbn; [auto|].
  intros Hnd. inversion Hnd as [|? ? Hk Hr]; subst.
  destruct (String.eqb k k'); cbn; [exact Hr|].
  constructor; [|apply IH, Hr].
  intros H. apply Hk. rewrite list_elem_of_In in *.
  eapply dict_del_keys_incl, H.
Qed.

Lemma In_dict_set_other k k' v v' d :
  In (k, v) d -> k <> k' -> In (k, v) (dict_set k' v' d).
Proof.
  intros Hin Hne. induction d as [|[k0 v0] r IH]; cbn; [destruct Hin|].
  destruct Hin as [H|H].
  - inversion H; subst.
    destruct (String.eqb_spec k' k); [congruence|left; reflexivity].
  - destruct (String.eqb k' k0); right; auto.
Qed.

End dict_facts.


(** *** What [int()] refuses *)

(** A separator U+001C to U+001F around the digits is not skipped, though
    [str.isspace()] takes it; the spaces U+0085 and U+00A0 are. *)
Remark int_refuses_separators :
  int (String "5" (String (ascii_of_nat 31) EmptyString))
  = inl (Exception "invalid literal for int() with base 10: '5\x1f'")
  /\ int (String (ascii_of_nat 28) "5")
     = inl (Exception "invalid literal for int() with base 10: '\x1c5'")
  /\ int (String (ascii_of_nat 160) (String "5" (String (ascii_of_nat 133) EmptyString)))
     = inr 5.
Proof. vm_compute. repeat split. Qed.

Fixpoint repeat_char (n : nat) (c : ascii) : string :=
  match n with
  | O => EmptyString
  | S k => String c (repeat_char k c)
  end.

(** A literal of 4300 digits parses, one of 4301 digits does not, whatever
    follows the digits. *)
Remark int_digit_limit :
  (exists n, int (repeat_char 4300 "1") = inr n)
  /\ int (repeat_char 4301 "1") = inl (ValueError_int_limit 4301)
  /\ int (String.append (repeat_char 4301 "1") "x")
     = inl (ValueError_int_limit 4301).
Proof.
  split; [|split; vm_compute; reflexivity].
  destruct (int (repeat_char 4300 "1")) as [e|n] eqn:E; [|eauto].
  exfalso. revert E. vm_compute. discriminate.
Qed.

End py.

(** ** config.py *)
Module IYEConfig.
Definition MAX_RETRIES : Z := 3.
Definition RETRY_BACKOFF_BASE : Q := 2.
Definition RETRY_JITTER_MAX : Q := 1.
Definition CIRCUIT_BREAKER_THRESHOLD : Z := 5.
Definition CIRCUIT_BREAKER_TIMEOUT : Q := 60.
Definition CIRCUIT_BREAKER_RECOVERY_THRESHOLD : Z := 2.
Definition CHUNK_SIZE : Z := 1024 * 1024.
Definition DOWNLOAD_TEMP_SUFFIX : string := ".part".
Definition PLAYER_CACHE_TTL : Q := 3600.
Definition PLAYER_CACHE_SIZE : Z := 10.
End IYEConfig.

(** ** circuit_breaker.py: class CircuitBreaker *)
Module CircuitBreaker.

Inductive CircuitState := CLOSED | OPEN | HALF_OPEN.

Definition CircuitState_eq_dec (x y : CircuitState) : {x = y} + {x <> y}.
Proof. decide equality. Defined.

Definition prod_eq_dec {A B : Type}
    (da : forall x y : A, {x = y} + {x <> y})
    (db : forall x y : B, {x = y} + {x <> y})
    (p q : A * B) : {p = q} + {p <> q}.
Proof. decide equality. Defined.

Record t := mk {
  name : string;
  failure_threshold : Z;
  recovery_timeout : Q;
  recovery_threshold : Z;
  state : CircuitState;
  failure_count : Z;
  success_count : Z;
  last_failure_time : option Q
}.

Definition __init__ (name : string) (failure_threshold : Z)
    (recovery_timeout : Q) (recovery_threshold : Z) : t :=
  mk name failure_threshold recovery_timeout recovery_threshold CLOSED 0 0 None.

(** [CircuitBreaker(name)] with the defaults of the configuration. *)
Definition default (name : string) : t :=
  __init__ name IYEConfig.CIRCUIT_BREAKER_THRESHOLD
    IYEConfig.CIRCUIT_BREAKER_TIMEOUT
    IYEConfig.CIRCUIT_BREAKER_RECOVERY_THRESHOLD.

Definition set_state (s : CircuitState) (b : t) : t :=
  mk (name b) (failure_threshold b) (recovery_timeout b) (recovery_threshold b)
     s (failure_count b) (success_count b) (last_failure_time b).

Definition set_failure_count (n : Z) (b : t) : t :=
  mk (name b) (failure_threshold b) (recovery_timeout b) (recovery_threshold b)
     (state b) n (success_count b) (last_failure_time b).

Definition set_success_count (n : Z) (b : t) : t :=
  mk (name b) (failure_threshold b) (recovery_timeout b) (recovery_threshold b)
     (state b) (failure_count b) n (last_failure_time b).

Definition set_last_failure_time (o : option Q) (b : t) : t :=
  mk (name b) (failure_threshold b) (recovery_timeout b) (recovery_threshold b)
     (state b) (failure_count b) (success_count b) o.

Definition _open_circuit (b : t) : t :=
  set_success_count 0 (set_state OPEN b).

Definition _half_open_circuit (b : t) : t :=
  set_success_count 0 (set_state HALF_OPEN b).

Definition _close_circuit (b : t) : t :=
  set_success_count 0 (set_failure_count 0 (set_state CLOSED b)).

Definition record_success (b : t) : t :=
  match state b with
  | HALF_OPEN =>
      let b1 := set_success_count (success_count b + 1) b in
      if recovery_threshold b1 <=? success_count b1 then _close_circuit b1
      else b1
  | CLOSED => set_failure_count 0 b
  | OPEN => b
  end.

(** [now] is the reading of [time.time()] taken by the call. *)
Definition record_failure (now : Q) (b : t) : t :=
  let b1 := set_last_failure_time (Some now)
              (set_failure_count (failure_count b + 1) b) in
  match state b1 with
  | HALF_OPEN => _open_circuit b1
  | _ =>
      if failure_threshold b1 <=? failure_count b1 then _open_circuit b1
      else b1
  end.

Definition _should_attempt_reset (now : Q) (b : t) : bool :=
  match last_failure_time b with
  | None => true
  | Some last => Qle_bool (recovery_timeout b) (now - last)
  end.

(** Returns the answer and the breaker as the call leaves it. *)
Definition can_attempt (now : Q) (b : t) : bool * t :=
  match state b with
  | CLOSED => (true, b)
  | OPEN =>
      if _should_attempt_reset now b then (true, _half_open_circuit b)
      else (false, b)
  | HALF_OPEN => (true, b)
  end.

(** A run of consecutive [record_failure()] calls, one clock reading each. *)
Definition record_failures (nows : list Q) (b : t) : t :=
  fold_left (fun b now => record_failure now b) nows b.

(** A run of consecutive [can_attempt()] calls: for each call the state it
    found and its answer, then the breaker at the end. *)
Fixpoint can_attempts (nows : list Q) (b : t) : list (CircuitState * bool) * t :=
  match nows with
  | [] => ([], b)
  | now :: rest =>
      let '(r, b1) := can_attempt now b in
      let '(log, b2) := can_attempts rest b1 in
      ((state b, r) :: log, b2)
  end.

(** The three operations, to speak of any history of a breaker. *)
Inductive call :=
| RecordSuccess
| RecordFailure (now : Q)
| CanAttempt (now : Q).

Definition apply_call (b : t) (c : call) : t :=
  match c with
  | RecordSuccess => record_success b
  | RecordFailure now => record_failure now b
  | CanAttempt now => snd (can_attempt now b)
  end.

Definition history (cs : list call) (b : t) : t := fold_left apply_call cs b.

(** *** Properties *)

Lemma record_failure_threshold now b :
  failure_threshold (record_failure now b) = failure_threshold b.
Proof.
  unfold record_failure; cbn.
  destruct (state b); cbn; try reflexivity;
    destruct (_ <=? _); reflexivity.
Qed.

Lemma record_failure_closed_below now b :
  state b = CLOSED ->
  failure_count b + 1 < failure_threshold b ->
  state (record_failure now b) = CLOSED
  /\ failure_count (record_failure now b) = failure_count b + 1.
Proof.
  intros Hs Hlt. unfold record_failure; cbn. rewrite Hs.
  destruct (Z.leb_spec (failure_threshold b) (failure_count b + 1)); [lia|].
  cbn. auto.
Qed.

Lemma record_failure_closed_reach now b :
  state b = CLOSED ->
  failure_threshold b <= failure_count b + 1 ->
  state (record_failure now b) = OPEN.
Proof.
  intros Hs Hle. unfold record_failure; cbn. rewrite Hs.
  destruct (Z.leb_spec (failure_threshold b) (failure_count b + 1)); [|lia].
  reflexivity.
Qed.

Lemma record_failures_below nows : forall b,
  state b = CLOSED ->
  failure_count b + Z.of_nat (length nows) < failure_threshold b ->
  state (record_failures nows b) = CLOSED
  /\ failure_count (record_failures nows b)
     = failure_count b + Z.of_nat (length nows)
  /\ failure_threshold (record_failures nows b) = failure_threshold b.
Proof.
  induction nows as [|now nows IH]; intros b Hs Hlt.
  - cbn. repeat split; auto; lia.
  - cbn [record_failures fold_left]. cbn [length] in Hlt.
    destruct (record_failure_closed_below now b Hs) as [Hs1 Hc1]; [lia|].
    pose proof (record_failure_threshold now b) as Ht1.
    destruct (IH (record_failure now b) Hs1) as (Hs2 & Hc2 & Ht2);
      [rewrite Hc1, Ht1; lia|].
    unfold record_failures in *. rewrite Hs2, Hc2, Ht2, Hc1, Ht1.
    cbn [length]. repeat split; lia.
Qed.

(** Every history keeps a failure time on an open breaker: the only way
    into [OPEN] is [record_failure], which stores the reading first. *)
Definition open_is_timed (b : t) : Prop :=
  state b = OPEN -> last_failure_time b <> None.

Lemma apply_call_open_is_timed b c :
  open_is_timed b -> open_is_timed (apply_call b c).
Proof.
  unfold open_is_timed.
  destruct b as [n f r k s fc sc l]; cbn. intros Hb.
  destruct c as [|now|now]; cbn.
  - unfold record_success; cbn. destruct s; cbn; auto.
    destruct (_ <=? _); cbn; congruence.
  - unfold record_failure; cbn. destruct s; cbn;
      try destruct (_ <=? _); cbn; congruence.
  - unfold can_attempt; cbn. destruct s; cbn; auto.
    destruct (_should_attempt_reset _ _); cbn; auto; congruence.
Qed.

Lemma history_open_is_timed cs : forall b,
  open_is_timed b -> open_is_timed (history cs b).
Proof.
  induction cs as [|c cs IH]; intros b Hb; cbn; auto.
  apply IH, apply_call_open_is_timed, Hb.
Qed.

Lemma fresh_open_is_timed n f r k : open_is_timed (__init__ n f r k).
Proof. unfold open_is_timed; cbn; congruence. Qed.

(** The length of the run of failures a history ends with: calls of
    [record_failure] since the last [record_success], or since creation. *)
Definition trailing_failures (cs : list call) : Z :=
  fold_left (fun n c =>
               match c with
               | RecordSuccess => 0
               | RecordFailure _ => n + 1
               | CanAttempt _ => n
               end) cs 0.

(** In every history of a fresh breaker, the failure count of a Closed
    breaker is the length of the run of failures it is in: a run starts
    from a count of zero. *)
Lemma closed_failure_count_is_run n f r k cs :
  state (history cs (__init__ n f r k)) = CLOSED ->
  failure_count (history cs (__init__ n f r k)) = trailing_failures cs.
Proof.
  induction cs as [|c cs IH] using rev_ind; [reflexivity|].
  unfold history, trailing_failures in *. rewrite !fold_left_app. cbn.
  set (b := fold_left apply_call cs (__init__ n f r k)) in *.
  clearbody b. destruct b as [bn bf br bk s fc sc l]. cbn in IH.
  destruct c as [|now|now].
  - unfold apply_call, record_success; cbn. destruct s; cbn; auto.
    + discriminate.
    + destruct (_ <=? _); cbn; auto. discriminate.
  - unfold apply_call, record_failure; cbn. destruct s; cbn.
    + destruct (_ <=? _); cbn; [discriminate|]. intros _. rewrite IH; auto.
    + destruct (_ <=? _); cbn; discriminate.
    + discriminate.
  - unfold apply_call, can_attempt; cbn. destruct s; cbn; auto;
      try discriminate.
    destruct (_should_attempt_reset _ _); cbn; discriminate.
Qed.

(** C6. From a Closed breaker whose run of failures starts (failure count
    zero, as after creation, a success or a close) and whose threshold F is
    positive: fewer than F consecutive [record_failure()] calls leave it
    Closed, and exactly F of them leave it Open. *)
Theorem record_failure_threshold_flip (b : t) (nows : list Q) :
  state b = CLOSED ->
  failure_count b = 0 ->
  1 <= failure_threshold b ->
  (Z.of_nat (length nows) < failure_threshold b ->
     state (record_failures nows b) = CLOSED)
  /\ (Z.of_nat (length nows) = failure_threshold b ->
     state (record_failures nows b) = OPEN).
Proof.
  intros Hs Hc HF. split.
  - intros Hlt. apply record_failures_below; [assumption|lia].
  - intros Heq. destruct nows as [|x xs] using rev_ind.
    + cbn in Heq. lia.
    + clear IHxs. rewrite length_app in Heq. cbn in Heq.
      unfold record_failures. rewrite fold_left_app. cbn.
      destruct (record_failures_below xs b Hs) as (Hs1 & Hc1 & Ht1); [lia|].
      unfold record_failures in *.
      apply record_failure_closed_reach; [assumption|].
      rewrite Hc1, Ht1. lia.
Qed.

Lemma record_failure_threshold_flip_witness :
  let b := default "download" in
  state (record_failures [1%Q; 2%Q; 3%Q; 4%Q] b) = CLOSED
  /\ state (record_failures [1%Q; 2%Q; 3%Q; 4%Q; 5%Q] b) = OPEN.
Proof.
  split.
  - apply (record_failure_threshold_flip (default "download")
             [1%Q; 2%Q; 3%Q; 4%Q]); try reflexivity; vm_compute; congruence.
  - apply (record_failure_threshold_flip (default "download")
             [1%Q; 2%Q; 3%Q; 4%Q; 5%Q]); try reflexivity; vm_compute; congruence.
Defined.

Lemma can_attempt_open_early now last b :
  state b = OPEN ->
  last_failure_time b = Some last ->
  (now - last < recovery_timeout b)%Q ->
  can_attempt now b = (false, b).
Proof.
  intros Hs Hl Hlt. unfold can_attempt, _should_attempt_reset.
  rewrite Hs, Hl.
  destruct (Qle_bool (recovery_timeout b) (now - last)) eqn:E; [|reflexivity].
  apply Qle_bool_iff in E. exfalso. eapply Qlt_not_le; eassumption.
Qed.

Lemma can_attempt_open_due now last b :
  state b = OPEN ->
  last_failure_time b = Some last ->
  (recovery_timeout b <= now - last)%Q ->
  can_attempt now b = (true, _half_open_circuit b).
Proof.
  intros Hs Hl Hle. unfold can_attempt, _should_attempt_reset.
  rewrite Hs, Hl. apply Qle_bool_iff in Hle. rewrite Hle. reflexivity.
Qed.

Lemma can_attempts_half_open nows : forall b,
  state b = HALF_OPEN ->
  can_attempts nows b = (repeat (HALF_OPEN, true) (length nows), b).
Proof.
  induction nows as [|now nows IH]; intros b Hs; [reflexivity|].
  cbn [can_attempts]. unfold can_attempt at 1. rewrite Hs.
  rewrite (IH b Hs). reflexivity.
Qed.

Lemma can_attempts_open_early last early : forall b rest,
  state b = OPEN ->
  last_failure_time b = Some last ->
  List.Forall (fun now => (now - last < recovery_timeout b)%Q) early ->
  can_attempts (early ++ rest) b
  = (repeat (OPEN, false) (length early) ++ fst (can_attempts rest b),
     snd (can_attempts rest b)).
Proof.
  induction early as [|now early IH]; intros b rest Hs Hl Hall.
  - cbn. destruct (can_attempts rest b); reflexivity.
  - inversion Hall as [|? ? Hnow Hrest]; subst.
    cbn [app can_attempts length repeat].
    rewrite (can_attempt_open_early now last b Hs Hl Hnow).
    rewrite (IH b rest Hs Hl Hrest). rewrite Hs. reflexivity.
Qed.

(** C7. On an Open breaker whose last failure was recorded at [last]: every
    [can_attempt()] whose clock reading is less than [recovery_timeout]
    after [last] answers false and leaves the breaker Open; the first call
    at or after the timeout answers true and moves it to HalfOpen. That is
    the one call answered true from the Open state: the calls after it find
    HalfOpen, which the code always lets through. *)
Theorem can_attempt_open_then_half_open
    (b : t) (last : Q) (early : list Q) (now : Q) (later : list Q) :
  state b = OPEN ->
  last_failure_time b = Some last ->
  List.Forall (fun u => (u - last < recovery_timeout b)%Q) early ->
  (recovery_timeout b <= now - last)%Q ->
  can_attempts early b = (repeat (OPEN, false) (length early), b)
  /\ can_attempt now b = (true, _half_open_circuit b)
  /\ state (_half_open_circuit b) = HALF_OPEN
  /\ can_attempts (early ++ now :: later) b
     = (repeat (OPEN, false) (length early)
          ++ (OPEN, true) :: repeat (HALF_OPEN, true) (length later),
        _half_open_circuit b)
  /\ count_occ (prod_eq_dec CircuitState_eq_dec bool_dec)
       (fst (can_attempts (early ++ now :: later) b)) (OPEN, true) = 1%nat.
Proof.
  intros Hs Hl Hearly Hdue.
  assert (Hrun : can_attempts (early ++ now :: later) b
     = (repeat (OPEN, false) (length early)
          ++ (OPEN, true) :: repeat (HALF_OPEN, true) (length later),
        _half_open_circuit b)).
  { rewrite (can_attempts_open_early last early b _ Hs Hl Hearly).
    cbn [can_attempts]. rewrite (can_attempt_open_due now last b Hs Hl Hdue).
    rewrite can_attempts_half_open by reflexivity. rewrite Hs. reflexivity. }
  split; [|split; [|split; [|split]]].
  - pose proof (can_attempts_open_early last early b [] Hs Hl Hearly) as H.
    rewrite app_nil_r in H. cbn in H. rewrite app_nil_r in H. exact H.
  - exact (can_attempt_open_due now last b Hs Hl Hdue).
  - reflexivity.
  - exact Hrun.
  - rewrite Hrun. cbn [fst]. rewrite count_occ_app. cbn [count_occ].
    destruct (prod_eq_dec _ _ (OPEN, true) (OPEN, true)) as [_|n];
      [|congruence].
    assert (H1 : forall n, count_occ (prod_eq_dec CircuitState_eq_dec bool_dec)
               (repeat (OPEN, false) n) (OPEN, true) = 0%nat).
    { intros n. induction n as [|n IH]; [reflexivity|]. cbn [repeat count_occ].
      destruct (prod_eq_dec _ _ (OPEN, false) (OPEN, true)); congruence. }
    assert (H2 : forall n, count_occ (prod_eq_dec CircuitState_eq_dec bool_dec)
               (repeat (HALF_OPEN, true) n) (OPEN, true) = 0%nat).
    { intros n. induction n as [|n IH]; [reflexivity|]. cbn [repeat count_occ].
      destruct (prod_eq_dec _ _ (HALF_OPEN, true) (OPEN, true)); congruence. }
    rewrite H1, H2. reflexivity.
Qed.

Lemma can_attempt_open_then_half_open_witness :
  let b := record_failures [1%Q; 2%Q; 3%Q; 4%Q; 5%Q] (default "download") in
  can_attempts [6%Q; 64.5%Q; 65%Q; 66%Q] b
  = ([(OPEN, false); (OPEN, false); (OPEN, true); (HALF_OPEN, true)],
     _half_open_circuit b).
Proof.
  intros b.
  refine (proj1 (proj2 (proj2 (proj2
    (can_attempt_open_then_half_open b 5%Q [6%Q; 64.5%Q] 65%Q [66%Q]
       _ _ _ _))))).
  - reflexivity.
  - reflexivity.
  - repeat constructor.
  - vm_compute. congruence.
Defined.

(** *** Recovery, reopening and what every history keeps *)

(** [n] consecutive [record_success()] calls. *)
Definition record_successes (n : nat) (b : t) : t :=
  Nat.iter n record_success b.

Lemma record_successes_below n : forall b,
  state b = HALF_OPEN ->
  success_count b = 0 ->
  Z.of_nat n < recovery_threshold b ->
  state (record_successes n b) = HALF_OPEN
  /\ success_count (record_successes n b) = Z.of_nat n
  /\ recovery_threshold (record_successes n b) = recovery_threshold b
  /\ failure_count (record_successes n b) = failure_count b
  /\ recovery_timeout (record_successes n b) = recovery_timeout b.
Proof.
  induction n as [|n IH]; intros b Hs Hc Hlt.
  - cbn. repeat split; auto.
  - destruct (IH b Hs Hc) as (Hs1 & Hc1 & Hr1 & Hf1 & Ht1); [lia|].
    unfold record_successes in *. rewrite !Nat.iter_succ.
    set (b1 := Nat.iter n record_success b) in *.
    unfold record_success. rewrite Hs1. cbn.
    destruct (Z.leb_spec (recovery_threshold b1) (success_count b1 + 1)); [lia|].
    cbn. repeat split; auto. lia.
Qed.

(** X1. In HalfOpen, from a success count of zero and with a positive
    recovery threshold R: fewer than R consecutive [record_success()] calls
    leave the breaker HalfOpen, counting them; exactly R close it and zero
    both counters. *)
Theorem half_open_successes_close (b : t) (n : nat) :
  state b = HALF_OPEN ->
  success_count b = 0 ->
  1 <= recovery_threshold b ->
  (Z.of_nat n < recovery_threshold b ->
     state (record_successes n b) = HALF_OPEN
     /\ success_count (record_successes n b) = Z.of_nat n)
  /\ (Z.of_nat n = recovery_threshold b ->
     state (record_successes n b) = CLOSED
     /\ failure_count (record_successes n b) = 0
     /\ success_count (record_successes n b) = 0).
Proof.
  intros Hs Hc HR. split.
  - intros Hlt. destruct (record_successes_below n b Hs Hc Hlt) as (? & ? & _).
    auto.
  - intros Heq. destruct n as [|n]; [cbn in Heq; lia|].
    destruct (record_successes_below n b Hs Hc) as (Hs1 & Hc1 & Hr1 & _); [lia|].
    unfold record_successes in *. rewrite !Nat.iter_succ.
    set (b1 := Nat.iter n record_success b) in *.
    unfold record_success. rewrite Hs1. cbn.
    destruct (Z.leb_spec (recovery_threshold b1) (success_count b1 + 1)); [|lia].
    cbn. auto.
Qed.

Lemma half_open_successes_close_witness :
  let b := _half_open_circuit
             (record_failures [1%Q; 2%Q; 3%Q; 4%Q; 5%Q] (default "download")) in
  state (record_successes 1 b) = HALF_OPEN
  /\ state (record_successes 2 b) = CLOSED.
Proof.
  intros b. split.
  - apply (proj1 (half_open_successes_close b 1 eq_refl eq_refl
                    ltac:(vm_compute; congruence))).
    vm_compute. reflexivity.
  - apply (proj2 (half_open_successes_close b 2 eq_refl eq_refl
                    ltac:(vm_compute; congruence))).
    reflexivity.
Defined.

(** X2. In HalfOpen one [record_failure()] reopens the breaker whatever
    number of probes succeeded before it, and zeroes the success count;
    [can_attempt()] is then refused until the recovery timeout has passed
    since that failure. *)
Theorem half_open_failure_reopens (b : t) (n : nat) (failed_at now : Q) :
  state b = HALF_OPEN ->
  success_count b = 0 ->
  Z.of_nat n < recovery_threshold b ->
  (now - failed_at < recovery_timeout b)%Q ->
  let reopened := record_failure failed_at (record_successes n b) in
  state reopened = OPEN
  /\ success_count reopened = 0
  /\ failure_count reopened = failure_count b + 1
  /\ last_failure_time reopened = Some failed_at
  /\ can_attempt now reopened = (false, reopened).
Proof.
  intros Hs Hc Hlt Hnow reopened.
  destruct (record_successes_below n b Hs Hc Hlt) as (Hs1 & Hc1 & Hr1 & Hf1 & Ht1).
  assert (Hre : state reopened = OPEN
                /\ success_count reopened = 0
                /\ failure_count reopened = failure_count b + 1
                /\ last_failure_time reopened = Some failed_at
                /\ recovery_timeout reopened = recovery_timeout b).
  { unfold reopened, record_failure. cbn. rewrite Hs1. cbn.
    rewrite Hf1, Ht1. auto. }
  destruct Hre as (H1 & H2 & H3 & H4 & H5).
  repeat split; auto.
  apply (can_attempt_open_early now failed_at reopened H1 H4).
  rewrite H5. exact Hnow.
Qed.

Lemma half_open_failure_reopens_witness :
  let b := _half_open_circuit
             (record_failures [1%Q; 2%Q; 3%Q; 4%Q; 5%Q] (default "download")) in
  fst (can_attempt 100%Q (record_failure 70%Q (record_successes 1 b))) = false.
Proof.
  intros b.
  pose proof (half_open_failure_reopens b 1 70%Q 100%Q eq_refl eq_refl
                eq_refl eq_refl) as H.
  cbv zeta in H. destruct H as (_ & _ & _ & _ & H).
  rewrite H. reflexivity.
Defined.

(** What a history of calls never breaks. *)
Definition well_formed (b : t) : Prop :=
  (state b = OPEN -> last_failure_time b <> None)
  /\ (state b = CLOSED -> 0 <= failure_count b < failure_threshold b)
  /\ (state b <> HALF_OPEN -> success_count b = 0)
  /\ (state b = HALF_OPEN ->
        success_count b = 0
        \/ 0 < success_count b < recovery_threshold b)
  /\ 0 <= failure_count b
  /\ 1 <= failure_threshold b.

Lemma apply_call_parameters b c :
  name (apply_call b c) = name b
  /\ failure_threshold (apply_call b c) = failure_threshold b
  /\ recovery_timeout (apply_call b c) = recovery_timeout b
  /\ recovery_threshold (apply_call b c) = recovery_threshold b.
Proof.
  destruct b as [bn bf br bk s fc sc l].
  destruct c as [|now|now]; cbn.
  - unfold record_success; cbn. destruct s; cbn; auto.
    destruct (_ <=? _); cbn; auto.
  - unfold record_failure; cbn. destruct s; cbn; auto;
      destruct (_ <=? _); cbn; auto.
  - unfold can_attempt; cbn. destruct s; cbn; auto.
    destruct (_should_attempt_reset _ _); cbn; auto.
Qed.

Lemma apply_call_well_formed b c :
  well_formed b -> well_formed (apply_call b c).
Proof.
  unfold well_formed.
  destruct b as [bn bf br bk s fc sc l]; cbn.
  intros (Hopen & Hclosed & Hsc & Hhalf & Hfc & Hft).
  assert (Hcases : (s = CLOSED /\ sc = 0 /\ 0 <= fc < bf)
                   \/ (s = OPEN /\ sc = 0 /\ l <> None)
                   \/ (s = HALF_OPEN /\ (sc = 0 \/ 0 < sc < bk))).
  { destruct s.
    - left. split; [reflexivity|]. split; [apply Hsc; congruence|auto].
    - right; left. split; [reflexivity|]. split; [apply Hsc; congruence|auto].
    - right; right. auto. }
  clear Hopen Hclosed Hsc Hhalf.
  destruct Hcases as [(-> & -> & Hc)|[(-> & -> & Hl)|(-> & Hh)]];
    destruct c as [|now|now]; cbn;
    unfold record_success, record_failure, can_attempt; cbn;
    repeat match goal with
           | |- context [?x <=? ?y] => destruct (Z.leb_spec x y); cbn
           | |- context [_should_attempt_reset ?n ?b] =>
               destruct (_should_attempt_reset n b); cbn
           end;
    repeat split; intros; try congruence; try lia;
    try (left; reflexivity); try (right; lia); auto.
Qed.

(** X3. Whatever calls a breaker created with a positive failure threshold
    has received: an Open breaker has a last failure time, a Closed one a
    failure count below the threshold, the success count is zero outside
    HalfOpen and below the recovery threshold inside it, and the name and
    the three parameters are those it was created with. *)
Theorem history_well_formed (n : string) (f : Z) (r : Q) (k : Z)
    (cs : list call) :
  1 <= f ->
  let b := history cs (__init__ n f r k) in
  well_formed b
  /\ name b = n /\ failure_threshold b = f
  /\ recovery_timeout b = r /\ recovery_threshold b = k.
Proof.
  intros Hf. cbv zeta.
  induction cs as [|c cs IH] using rev_ind.
  - cbn. unfold well_formed; cbn. repeat split; try congruence; try lia.
  - unfold history in *. rewrite fold_left_app. cbn [fold_left].
    set (b := fold_left apply_call cs (__init__ n f r k)) in *.
    destruct IH as (Hwf & Hn & Hft & Hrt & Hrk).
    destruct (apply_call_parameters b c) as (Hn' & Hft' & Hrt' & Hrk').
    split; [apply apply_call_well_formed, Hwf|].
    repeat split; congruence.
Qed.

Lemma history_well_formed_witness :
  well_formed
    (history [RecordFailure 1%Q; RecordFailure 2%Q; CanAttempt 3%Q;
              RecordSuccess; RecordFailure 4%Q]
       (__init__ "player_endpoint" 2 60%Q 2)).
Proof.
  apply (history_well_formed "player_endpoint" 2 60%Q 2
           [RecordFailure 1%Q; RecordFailure 2%Q; CanAttempt 3%Q;
            RecordSuccess; RecordFailure 4%Q]).
  lia.
Defined.

(** X4. An Open breaker stays Open under every call but a [can_attempt()]
    made once the recovery timeout has passed: successes are ignored,
    failures and early probes leave it Open. *)
Theorem open_stays_open (b : t) (last : Q) (c : call) :
  state b = OPEN ->
  last_failure_time b = Some last ->
  (forall now, c = CanAttempt now -> (now - last < recovery_timeout b)%Q) ->
  state (apply_call b c) = OPEN
  /\ (c = RecordSuccess -> apply_call b c = b).
Proof.
  intros Hs Hl Hearly. destruct c as [|now|now]; cbn.
  - unfold record_success. rewrite Hs. split; [exact Hs|reflexivity].
  - unfold record_failure; cbn. rewrite Hs.
    destruct (_ <=? _); cbn; split; auto; discriminate.
  - rewrite (can_attempt_open_early now last b Hs Hl (Hearly now eq_refl)).
    cbn. split; [exact Hs|discriminate].
Qed.

Lemma open_stays_open_witness :
  state (apply_call
           (record_failures [1%Q; 2%Q; 3%Q; 4%Q; 5%Q] (default "download"))
           RecordSuccess) = OPEN.
Proof.
  apply (open_stays_open
           (record_failures [1%Q; 2%Q; 3%Q; 4%Q; 5%Q] (default "download"))
           5%Q RecordSuccess eq_refl eq_refl).
  intros now H. discriminate H.
Defined.

End CircuitBreaker.

(** ** circuit_breaker.py: class RetryPolicy *)
Module RetryPolicy.
Import py.

Definition RETRYABLE_ERRORS : list string :=
  ["timeout"; "connection_reset"; "connection_refused"; "network_unreachable"].

Definition TERMINAL_STATUS_CODES : list Z := [400; 401; 403; 404; 410].

(** [any(retryable in error_msg for retryable in RETRYABLE_ERRORS)] with
    [error_msg = str(exception).lower()]. *)
Definition matches_transient (e : exn) : bool :=
  existsb (fun retryable => contains retryable (lower (msg e))) RETRYABLE_ERRORS.

Definition is_retryable_error (e : exn) (status_code : option Z) : bool :=
  let by_status :=
    match status_code with
    | Some sc =>
        if truthy_int (Some sc) then
          if existsb (Z.eqb sc) TERMINAL_STATUS_CODES then Some false
          else if (500 <=? sc) && (sc <? 600) then Some true
          else None
        else None
    | None => None
    end in
  match by_status with
  | Some r => r
  | None => matches_transient e
  end.

(** What [with_retry] does, in order: the calls of the wrapped operation
    with the way each ended, the calls on the breaker, the backoff sleeps
    and the exception that leaves the function. *)
Inductive event :=
| Rejected
| Invoked (attempt : Z) (failure : option exn)
| BreakerSuccess
| BreakerFailure
| Slept (attempt : Z)
| Raised (e : exn).

Record run (W A : Type) := mk_run {
  result : exn + option A;
  breaker : option CircuitBreaker.t;
  world : W;
  trace : list event
}.
Arguments mk_run {W A}.
Arguments result {W A}.
Arguments breaker {W A}.
Arguments world {W A}.
Arguments trace {W A}.

Definition is_invoked (ev : event) : bool :=
  match ev with Invoked _ _ => true | _ => false end.

(** Number of times the wrapped operation was called. *)
Definition calls {W A} (r : run W A) : nat :=
  length (List.filter is_invoked (trace r)).

Definition success_events (cb : option CircuitBreaker.t) : list event :=
  match cb with Some _ => [BreakerSuccess] | None => [] end.

Definition failure_events (cb : option CircuitBreaker.t) : list event :=
  match cb with Some _ => [BreakerFailure] | None => [] end.

Section with_retry.
Context {W A : Type}.

(** The wrapped coroutine acts on a world [W]; the breaker is not part of
    it. [gate_time k] and [fail_time k] are the readings of [time.time()]
    at the [can_attempt] and the [record_failure] of attempt [k]. The
    backoff sleep leaves no mark but its event: the jitter is random and
    the time that passes shows in the later clock readings. *)
Variable func : W -> (exn + A) * W.
Variable gate_time fail_time : Z -> Q.
Variable operation_name : string.
Variable max_retries : Z.

Definition gate (attempt : Z) (cb : option CircuitBreaker.t)
    : bool * option CircuitBreaker.t :=
  match cb with
  | None => (true, None)
  | Some b =>
      let '(ok, b1) := CircuitBreaker.can_attempt (gate_time attempt) b in
      (ok, Some b1)
  end.

(** The body of [for attempt in range(max_retries + 1)], then the code
    after the loop. *)
Fixpoint loop (attempts : list Z) (cb : option CircuitBreaker.t) (w : W)
    (last_exception : option exn) : run W A :=
  match attempts with
  | [] =>
      match last_exception with
      | Some e => mk_run (inl e) cb w [Raised e]
      | None => mk_run (inr None) cb w []
      end
  | attempt :: rest =>
      let '(ok, cb1) := gate attempt cb in
      if negb ok then
        let e := Exception (String.append "Circuit breaker OPEN for " operation_name) in
        mk_run (inl e) cb1 w [Rejected; Raised e]
      else
        match func w with
        | (inr v, w1) =>
            mk_run (inr (Some v))
                   (option_map CircuitBreaker.record_success cb1) w1
                   (Invoked attempt None :: success_events cb1)
        | (inl e, w1) =>
            let cb2 :=
              option_map (CircuitBreaker.record_failure (fail_time attempt)) cb1 in
            if negb (is_retryable_error e (status_code e)) then
              mk_run (inl e) cb2 w1
                     (Invoked attempt (Some e) :: failure_events cb1 ++ [Raised e])
            else if max_retries <=? attempt then
              mk_run (inl e) cb2 w1
                     (Invoked attempt (Some e) :: failure_events cb1 ++ [Raised e])
            else
              let r := loop rest cb2 w1 (Some e) in
              mk_run (result r) (breaker r) (world r)
                     (Invoked attempt (Some e)
                        :: failure_events cb1 ++ Slept attempt :: trace r)
        end
  end.

Definition with_retry (cb : option CircuitBreaker.t) (w : W) : run W A :=
  loop (range (max_retries + 1)) cb w None.

End with_retry.

(** *** Properties *)

(** The claim's reading of Terminal: a terminal status code, or a message
    with no known transient substring. *)
Definition claimed_terminal (e : exn) : bool :=
  match status_code e with
  | Some sc => existsb (Z.eqb sc) TERMINAL_STATUS_CODES
  | None => false
  end || negb (matches_transient e).

Definition status_5xx (status_code : option Z) : bool :=
  match status_code with
  | Some sc => (500 <=? sc) && (sc <? 600)
  | None => false
  end.

Lemma terminal_status_not_retryable e sc :
  In sc TERMINAL_STATUS_CODES -> is_retryable_error e (Some sc) = false.
Proof.
  intros Hin. cbn in Hin.
  destruct Hin as [<-|[<-|[<-|[<-|[<-|[]]]]]]; reflexivity.
Qed.

Lemma unmatched_not_retryable e sc :
  matches_transient e = false -> status_5xx sc = false ->
  is_retryable_error e sc = false.
Proof.
  intros Hm H5. unfold is_retryable_error. destruct sc as [sc|]; [|exact Hm].
  cbn in H5. destruct (truthy_int (Some sc)); [|exact Hm].
  destruct (existsb _ _); [reflexivity|]. rewrite H5. exact Hm.
Qed.

Lemma cons_split {X} (x y : X) l pre post :
  x :: l = pre ++ y :: post ->
  (pre = [] /\ x = y /\ l = post)
  \/ (exists pre', pre = x :: pre' /\ l = pre' ++ y :: post).
Proof.
  destruct pre as [|p pre]; cbn; intros H; inversion H; subst; eauto.
Qed.

Lemma nil_split {X} (y : X) pre post : [] = pre ++ y :: post -> False.
Proof. destruct pre; discriminate. Qed.

(** Peel the first event off a decomposition of a trace around a failed
    call, closing the branches where the shapes disagree. *)
Ltac peel H :=
  first
    [ apply nil_split in H; contradiction
    | apply cons_split in H;
      destruct H as [(-> & H & ?)|(? & -> & H)];
      [ try discriminate H | ] ].

Section with_retry_facts.
Context {W A : Type}.
Variable func : W -> (exn + A) * W.
Variable gate_time fail_time : Z -> Q.
Variable operation_name : string.
Variable max_retries : Z.

#[local] Abbreviation loop :=
  (loop func gate_time fail_time operation_name max_retries).

Lemma gate_bound k cb :
  failure_events (snd (gate gate_time k cb)) = failure_events cb.
Proof.
  destruct cb as [b|]; cbn; [|reflexivity].
  destruct (CircuitBreaker.can_attempt _ _); reflexivity.
Qed.

Lemma record_failure_bound now cb :
  failure_events (option_map (CircuitBreaker.record_failure now) cb)
  = failure_events cb.
Proof. destruct cb; reflexivity. Qed.

Lemma filter_failure_events cb l :
  List.filter is_invoked (failure_events cb ++ l) = List.filter is_invoked l.
Proof. destruct cb; reflexivity. Qed.

Lemma filter_success_events cb :
  List.filter is_invoked (success_events cb) = [].
Proof. destruct cb; reflexivity. Qed.

Lemma calls_loop attempts : forall cb w last,
  (calls (loop attempts cb w last) <= length attempts)%nat.
Proof.
  induction attempts as [|k rest IH]; intros cb w last; unfold calls in *.
  - cbn. destruct last; cbn; lia.
  - cbn [RetryPolicy.loop]. destruct (gate gate_time k cb) as [ok cb1].
    destruct ok; cbn [negb]; [|cbn; lia].
    destruct (func w) as [[e|v] w1].
    + destruct (is_retryable_error e (status_code e)); cbn [negb].
      * destruct (max_retries <=? k); cbn [trace List.filter is_invoked length];
          rewrite filter_failure_events; cbn [List.filter is_invoked length].
        -- lia.
        -- specialize (IH (option_map
             (CircuitBreaker.record_failure (fail_time k)) cb1) w1 (Some e)).
           lia.
      * cbn [trace List.filter is_invoked length].
        rewrite filter_failure_events. cbn. lia.
    + cbn [trace List.filter is_invoked length].
      rewrite filter_success_events. cbn. lia.
Qed.

Lemma terminal_stops_loop attempts : forall cb w last pre k e post,
  trace (loop attempts cb w last) = pre ++ Invoked k (Some e) :: post ->
  is_retryable_error e (status_code e) = false ->
  post = failure_events cb ++ [Raised e]
  /\ result (loop attempts cb w last) = inl e.
Proof.
  induction attempts as [|a rest IH]; intros cb w last pre k e post Htr Hterm.
  - cbn in Htr. destruct last; cbn in Htr; [peel Htr; peel Htr | peel Htr].
  - cbn [RetryPolicy.loop] in *.
    pose proof (gate_bound a cb) as Hg.
    destruct (gate gate_time a cb) as [ok cb1]. cbn [snd] in Hg.
    destruct ok; cbn [negb] in *.
    2:{ cbn in Htr. peel Htr. peel Htr. peel Htr. }
    destruct (func w) as [[e0|v] w1].
    2:{ cbn [trace] in Htr. peel Htr.
        destruct cb1; cbn in Htr; [peel Htr; peel Htr | peel Htr]. }
    destruct (is_retryable_error e0 (status_code e0)) eqn:Hr; cbn [negb] in *.
    + destruct (max_retries <=? a); cbn [trace result] in *.
      * peel Htr; [congruence|].
        destruct cb1; cbn in Htr; repeat peel Htr.
      * peel Htr; [congruence|].
        rewrite <- Hg, <- (record_failure_bound (fail_time a) cb1).
        destruct cb1; cbn [failure_events app] in Htr.
        -- peel Htr. peel Htr. eapply IH; eassumption.
        -- peel Htr. eapply IH; eassumption.
    + cbn [trace result] in *. peel Htr.
      * inversion Htr; subst. rewrite Hg. split; reflexivity.
      * destruct cb1; cbn in Htr; repeat peel Htr.
Qed.

End with_retry_facts.

(** C4, as the code has it. With a non-negative retry budget, [with_retry]
    calls the operation at most [max_retries + 1] times; a failure that
    [is_retryable_error] classifies Terminal is followed by the breaker's
    [record_failure] (when a breaker is bound) and the re-raise of that
    same error, and by nothing else; and the classifier answers Terminal
    for every status in 400, 401, 403, 404, 410, and for every error with no
    known transient substring whose status is not in [500, 600). *)
Theorem with_retry_bounded_and_terminal_stops
    {W A : Type} (func : W -> (exn + A) * W) (gate_time fail_time : Z -> Q)
    (operation_name : string) (max_retries : Z)
    (cb : option CircuitBreaker.t) (w : W) :
  0 <= max_retries ->
  let r := with_retry func gate_time fail_time operation_name max_retries cb w in
  Z.of_nat (calls r) <= max_retries + 1
  /\ (forall pre k e post,
        trace r = pre ++ Invoked k (Some e) :: post ->
        is_retryable_error e (status_code e) = false ->
        post = failure_events cb ++ [Raised e] /\ result r = inl e)
  /\ (forall e sc,
        In sc TERMINAL_STATUS_CODES -> is_retryable_error e (Some sc) = false)
  /\ (forall e sc,
        matches_transient e = false -> status_5xx sc = false ->
        is_retryable_error e sc = false).
Proof.
  intros Hmax r. subst r. unfold with_retry. repeat split.
  - pose proof (calls_loop func gate_time fail_time operation_name max_retries
                  (range (max_retries + 1)) cb w None) as H.
    unfold range in H at 2. rewrite length_map, length_seq in H. lia.
  - eapply terminal_stops_loop; eassumption.
  - eapply terminal_stops_loop; eassumption.
  - apply terminal_status_not_retryable.
  - apply unmatched_not_retryable.
Qed.

(** An operation that fails with the same error at every call. *)
Definition always_fails (e : exn) : unit -> (exn + unit) * unit :=
  fun w => (inl e, w).

Definition not_found : exn := Exception "Download request failed: 404".

Definition unavailable : exn :=
  {| msg := "Service Unavailable"; status_code := Some 503 |}.

Lemma with_retry_bounded_and_terminal_stops_witness :
  0 <= 3
  /\ Z.of_nat (calls (with_retry (always_fails not_found)
                        (fun _ => 0%Q) (fun _ => 0%Q) "download_x" 3
                        (Some (CircuitBreaker.default "download")) tt))
     <= 3 + 1.
Proof.
  split; [lia|].
  apply (with_retry_bounded_and_terminal_stops (always_fails not_found)
           (fun _ => 0%Q) (fun _ => 0%Q) "download_x" 3
           (Some (CircuitBreaker.default "download")) tt).
  lia.
Defined.

(** C4 as stated fails: an error with status 503 and no transient substring
    in its message is Terminal in the claim's reading, yet the code
    classifies it Retryable and calls the operation again. *)
Lemma with_retry_retries_unmatched_5xx :
  claimed_terminal unavailable = true
  /\ matches_transient unavailable = false
  /\ is_retryable_error unavailable (status_code unavailable) = true
  /\ trace (with_retry (always_fails unavailable)
              (fun _ => 0%Q) (fun _ => 0%Q) "op" 1 None tt)
     = [Invoked 0 (Some unavailable); Slept 0;
        Invoked 1 (Some unavailable); Raised unavailable].
Proof. repeat split. Qed.

(** *** More on the runs of [with_retry] *)

Definition is_slept (ev : event) : bool :=
  match ev with Slept _ => true | _ => false end.

(** Number of backoff sleeps. *)
Definition sleeps {W A} (r : run W A) : nat :=
  length (List.filter is_slept (trace r)).

Definition breaker_open_error (operation_name : string) : exn :=
  Exception (String.append "Circuit breaker OPEN for " operation_name).

Section with_retry_runs.
Context {W A : Type}.
Variable func : W -> (exn + A) * W.
Variable gate_time fail_time : Z -> Q.
Variable operation_name : string.
Variable max_retries : Z.

#[local] Abbreviation loop :=
  (loop func gate_time fail_time operation_name max_retries).
#[local] Abbreviation with_retry :=
  (with_retry func gate_time fail_time operation_name max_retries).

Lemma range_cons n :
  0 < n -> range n = 0 :: map Z.of_nat (seq 1 (Z.to_nat n - 1)).
Proof.
  intros Hn. unfold range.
  replace (Z.to_nat n) with (S (Z.to_nat n - 1)) at 1 by lia.
  reflexivity.
Qed.

(** X5. When the bound breaker is Open and its recovery timeout has not
    passed, [with_retry] raises "Circuit breaker OPEN for ..." at once: the
    operation is not called, the world and the breaker are as they were. *)
Theorem open_breaker_fails_fast (b : CircuitBreaker.t) (last : Q) (w : W) :
  0 <= max_retries ->
  CircuitBreaker.state b = CircuitBreaker.OPEN ->
  CircuitBreaker.last_failure_time b = Some last ->
  (gate_time 0 - last < CircuitBreaker.recovery_timeout b)%Q ->
  with_retry (Some b) w
  = mk_run (inl (breaker_open_error operation_name)) (Some b) w
      [Rejected; Raised (breaker_open_error operation_name)]
  /\ calls (with_retry (Some b) w) = 0%nat.
Proof.
  intros Hmax Hs Hl Hearly.
  assert (Hrun : with_retry (Some b) w
     = mk_run (inl (breaker_open_error operation_name)) (Some b) w
         [Rejected; Raised (breaker_open_error operation_name)]).
  { unfold RetryPolicy.with_retry. rewrite range_cons by lia.
    cbn [RetryPolicy.loop gate].
    rewrite (CircuitBreaker.can_attempt_open_early _ last b Hs Hl Hearly).
    reflexivity. }
  split; [exact Hrun|]. rewrite Hrun. reflexivity.
Qed.

(** X6. With a negative [max_retries] the loop body never runs:
    [with_retry] returns [None] without calling the operation or touching
    the breaker. *)
Theorem negative_budget_returns_none (cb : option CircuitBreaker.t) (w : W) :
  max_retries < 0 ->
  with_retry cb w = mk_run (inr None) cb w [].
Proof.
  intros Hneg. unfold RetryPolicy.with_retry, range.
  replace (Z.to_nat (max_retries + 1)) with 0%nat by lia. reflexivity.
Qed.

(** A wrapped operation that fails with a retryable error whatever the
    world it runs in. *)
Definition always_retryable : Prop :=
  forall w, exists e,
    fst (func w) = inl e /\ is_retryable_error e (status_code e) = true.

Lemma exhaust_loop n : forall a w last,
  always_retryable ->
  Z.of_nat (a + n) = max_retries + 1 ->
  (0 < n)%nat ->
  let r := loop (map Z.of_nat (seq a n)) None w last in
  calls r = n /\ sleeps r = (n - 1)%nat /\ exists e, result r = inl e.
Proof.
  induction n as [|n IH]; intros a w last Hfail Hsum Hpos; [lia|].
  cbn [seq map RetryPolicy.loop gate negb].
  destruct (Hfail w) as (e & Hf & Hr).
  destruct (func w) as [[e'|v] w1]; cbn in Hf; [|discriminate].
  inversion Hf; subst e'. rewrite Hr. cbn [negb option_map].
  destruct (Z.leb_spec max_retries (Z.of_nat a)) as [Hlast|Hmore].
  - assert (n = 0%nat) by lia. subst n.
    unfold calls, sleeps. cbn. repeat split. eauto.
  - destruct (IH (S a) w1 (Some e) Hfail) as (Hc & Hs & He); [lia|lia|].
    cbv zeta in *. unfold calls, sleeps in *. cbn.
    rewrite Hc, Hs. repeat split; [lia|exact He].
Qed.

(** X7. The budget is spent in full on retryable failures: without a
    breaker, an operation that keeps failing with retryable errors is
    called exactly [max_retries + 1] times, with a backoff sleep between
    two calls, and the last error is raised. *)
Theorem retries_exhaust_budget (w : W) :
  0 <= max_retries ->
  always_retryable ->
  let r := with_retry None w in
  Z.of_nat (calls r) = max_retries + 1
  /\ Z.of_nat (sleeps r) = max_retries
  /\ exists e, result r = inl e.
Proof.
  intros Hmax Hfail. cbv zeta. unfold RetryPolicy.with_retry, range.
  destruct (exhaust_loop (Z.to_nat (max_retries + 1)) 0 w None Hfail)
    as (Hc & Hs & He); [lia|lia|].
  cbv zeta in *. rewrite Hc, Hs. repeat split; [lia|lia|exact He].
Qed.

Lemma success_bound cb now :
  success_events (option_map (CircuitBreaker.record_failure now) cb)
  = success_events cb.
Proof. destruct cb; reflexivity. Qed.

Lemma gate_success_bound k cb :
  success_events (snd (gate gate_time k cb)) = success_events cb.
Proof.
  destruct cb as [b|]; cbn; [|reflexivity].
  destruct (CircuitBreaker.can_attempt _ _); reflexivity.
Qed.

Lemma success_ends_loop attempts : forall cb w last pre k post,
  trace (loop attempts cb w last) = pre ++ Invoked k None :: post ->
  post = success_events cb
  /\ exists v, result (loop attempts cb w last) = inr (Some v).
Proof.
  induction attempts as [|a rest IH]; intros cb w last pre k post Htr.
  - cbn in Htr. destruct last; cbn in Htr; [peel Htr; peel Htr | peel Htr].
  - cbn [RetryPolicy.loop] in *.
    pose proof (gate_success_bound a cb) as Hg.
    destruct (gate gate_time a cb) as [ok cb1]. cbn [snd] in Hg.
    destruct ok; cbn [negb] in *.
    2:{ cbn in Htr. peel Htr. peel Htr. peel Htr. }
    destruct (func w) as [[e0|v] w1].
    2:{ cbn [trace result] in *. peel Htr.
        - subst post. rewrite Hg. eauto.
        - destruct cb1; cbn in Htr; [peel Htr; peel Htr | peel Htr]. }
    destruct (is_retryable_error e0 (status_code e0)); cbn [negb] in *.
    + destruct (max_retries <=? a); cbn [trace result] in *.
      * peel Htr. destruct cb1; cbn in Htr; repeat peel Htr.
      * peel Htr.
        rewrite <- Hg, <- (success_bound cb1 (fail_time a)).
        destruct cb1; cbn [failure_events app] in Htr.
        -- peel Htr. peel Htr. eapply IH; eassumption.
        -- peel Htr. eapply IH; eassumption.
    + cbn [trace result] in *. peel Htr.
      destruct cb1; cbn in Htr; repeat peel Htr.
Qed.

Lemma failure_recorded_loop attempts : forall cb w last pre k e post,
  trace (loop attempts cb w last) = pre ++ Invoked k (Some e) :: post ->
  exists post', post = failure_events cb ++ post'.
Proof.
  induction attempts as [|a rest IH]; intros cb w last pre k e post Htr.
  - cbn in Htr. destruct last; cbn in Htr; [peel Htr; peel Htr | peel Htr].
  - cbn [RetryPolicy.loop] in *.
    pose proof (gate_bound gate_time a cb) as Hg.
    destruct (gate gate_time a cb) as [ok cb1]. cbn [snd] in Hg.
    destruct ok; cbn [negb] in *.
    2:{ cbn in Htr. peel Htr. peel Htr. peel Htr. }
    destruct (func w) as [[e0|v] w1].
    2:{ cbn [trace] in Htr. peel Htr.
        destruct cb1; cbn in Htr; [peel Htr; peel Htr | peel Htr]. }
    destruct (is_retryable_error e0 (status_code e0)); cbn [negb] in *.
    + destruct (max_retries <=? a); cbn [trace] in *.
      * peel Htr.
        -- subst post. rewrite Hg. eauto.
        -- destruct cb1; cbn in Htr; repeat peel Htr.
      * peel Htr.
        -- subst post. rewrite Hg. eauto.
        -- rewrite <- Hg, <- (record_failure_bound (fail_time a) cb1).
           destruct cb1; cbn [failure_events app] in Htr.
           ++ peel Htr. peel Htr. eapply IH; eassumption.
           ++ peel Htr. eapply IH; eassumption.
    + cbn [trace] in *. peel Htr.
      * subst post. rewrite Hg. eauto.
      * destruct cb1; cbn in Htr; repeat peel Htr.
Qed.

(** X8. In every run of [with_retry] each call of the operation is
    followed at once by the matching call on the bound breaker: a call that
    succeeds by [record_success], after which the run returns the value and
    does nothing more, a call that fails by [record_failure], whether the
    error is then retried or raised. *)
Theorem every_call_is_recorded (cb : option CircuitBreaker.t) (w : W) :
  let r := with_retry cb w in
  (forall pre k post,
     trace r = pre ++ Invoked k None :: post ->
     post = success_events cb /\ exists v, result r = inr (Some v))
  /\ (forall pre k e post,
        trace r = pre ++ Invoked k (Some e) :: post ->
        exists post', post = failure_events cb ++ post').
Proof.
  cbv zeta. unfold RetryPolicy.with_retry. split.
  - intros pre k post. apply success_ends_loop.
  - intros pre k e post. apply failure_recorded_loop.
Qed.

Lemma record_failure_open_facts now b :
  CircuitBreaker.last_failure_time (CircuitBreaker.record_failure now b)
  = Some now
  /\ CircuitBreaker.recovery_timeout (CircuitBreaker.record_failure now b)
     = CircuitBreaker.recovery_timeout b.
Proof.
  unfold CircuitBreaker.record_failure; cbn.
  destruct (CircuitBreaker.state b); cbn; try destruct (_ <=? _); cbn; auto.
Qed.

Lemma can_attempt_closed now b :
  CircuitBreaker.state b = CircuitBreaker.CLOSED ->
  CircuitBreaker.can_attempt now b = (true, b).
Proof. intros Hs. unfold CircuitBreaker.can_attempt. rewrite Hs. reflexivity. Qed.

Lemma trip_loop r : forall a n b w last,
  always_retryable ->
  (forall k, (gate_time (k + 1) - fail_time k
              < CircuitBreaker.recovery_timeout b)%Q) ->
  CircuitBreaker.state b = CircuitBreaker.CLOSED ->
  CircuitBreaker.failure_threshold b - CircuitBreaker.failure_count b
  = Z.of_nat (S r) ->
  (S r < n)%nat ->
  Z.of_nat (a + S r) <= max_retries ->
  let run := loop (map Z.of_nat (seq a n)) (Some b) w last in
  calls run = S r
  /\ result run = inl (breaker_open_error operation_name)
  /\ option_map CircuitBreaker.state (breaker run) = Some CircuitBreaker.OPEN.
Proof.
  induction r as [|r IH]; intros a n b w last Hfail Hclock Hs Hgap Hn Hmax.
  - destruct n as [|[|n]]; [lia|lia|].
    cbn [seq map RetryPolicy.loop gate].
    rewrite (can_attempt_closed _ b Hs). cbn [negb].
    destruct (Hfail w) as (e & Hf & Hr).
    destruct (func w) as [[e'|v] w1]; cbn in Hf; [|discriminate].
    inversion Hf; subst e'. rewrite Hr. cbn [negb option_map].
    destruct (Z.leb_spec max_retries (Z.of_nat a)); [lia|].
    set (b1 := CircuitBreaker.record_failure (fail_time (Z.of_nat a)) b).
    assert (Hopen : CircuitBreaker.state b1 = CircuitBreaker.OPEN).
    { apply CircuitBreaker.record_failure_closed_reach; [exact Hs|lia]. }
    destruct (record_failure_open_facts (fail_time (Z.of_nat a)) b)
      as (Hlast & Htimeout).
    fold b1 in Hlast, Htimeout.
    assert (Hearly : (gate_time (Z.of_nat (S a)) - fail_time (Z.of_nat a)
                      < CircuitBreaker.recovery_timeout b1)%Q).
    { rewrite Htimeout, Nat2Z.inj_succ. apply Hclock. }
    cbn [gate].
    rewrite (CircuitBreaker.can_attempt_open_early _ _ b1 Hopen Hlast Hearly).
    clearbody b1. cbn [negb]. unfold calls. cbn. rewrite Hopen. auto.
  - destruct n as [|n]; [lia|].
    cbn [seq map RetryPolicy.loop gate].
    rewrite (can_attempt_closed _ b Hs). cbn [negb].
    destruct (Hfail w) as (e & Hf & Hr).
    destruct (func w) as [[e'|v] w1]; cbn in Hf; [|discriminate].
    inversion Hf; subst e'. rewrite Hr. cbn [negb option_map].
    destruct (Z.leb_spec max_retries (Z.of_nat a)); [lia|].
    set (b1 := CircuitBreaker.record_failure (fail_time (Z.of_nat a)) b).
    destruct (CircuitBreaker.record_failure_closed_below
                (fail_time (Z.of_nat a)) b Hs) as (Hs1 & Hc1); [lia|].
    pose proof (CircuitBreaker.record_failure_threshold
                  (fail_time (Z.of_nat a)) b) as Ht1.
    destruct (record_failure_open_facts (fail_time (Z.of_nat a)) b)
      as (_ & Htimeout).
    fold b1 in Hs1, Hc1, Ht1, Htimeout.
    destruct (IH (S a) n b1 w1 (Some e) Hfail) as (Hc & Hres & Hst);
      try assumption; try lia.
    { intros k. rewrite Htimeout. apply Hclock. }
    cbv zeta in *. unfold calls in *. cbn. rewrite Hc. auto.
Qed.

(** X9. The breaker cuts a retry loop short. With a Closed breaker that is
    [gap] failures away from its threshold, [gap] being at most
    [max_retries], and an operation that keeps failing with retryable
    errors, [with_retry] calls the operation exactly [gap] times: the last
    failure opens the breaker and the next attempt, made before the
    recovery timeout, is refused with "Circuit breaker OPEN for ...". *)
Theorem breaker_trips_during_retries (b : CircuitBreaker.t) (gap : nat)
    (w : W) :
  always_retryable ->
  (forall k, (gate_time (k + 1) - fail_time k
              < CircuitBreaker.recovery_timeout b)%Q) ->
  CircuitBreaker.state b = CircuitBreaker.CLOSED ->
  CircuitBreaker.failure_threshold b - CircuitBreaker.failure_count b
  = Z.of_nat gap ->
  (0 < gap)%nat ->
  Z.of_nat gap <= max_retries ->
  let run := with_retry (Some b) w in
  calls run = gap
  /\ result run = inl (breaker_open_error operation_name)
  /\ option_map CircuitBreaker.state (breaker run) = Some CircuitBreaker.OPEN.
Proof.
  intros Hfail Hclock Hs Hgap Hpos Hmax. cbv zeta.
  unfold RetryPolicy.with_retry, range.
  destruct gap as [|r]; [lia|].
  apply (trip_loop r 0 (Z.to_nat (max_retries + 1)) b w None);
    try assumption; lia.
Qed.

End with_retry_runs.

Definition timed_out : exn := Exception "Read timeout".

Lemma open_breaker_fails_fast_witness :
  calls (with_retry (always_fails not_found) (fun _ => 6%Q) (fun _ => 6%Q)
           "download_x" 3
           (Some (CircuitBreaker.record_failures [1%Q; 2%Q; 3%Q; 4%Q; 5%Q]
                    (CircuitBreaker.default "download"))) tt) = 0%nat.
Proof.
  apply (open_breaker_fails_fast (always_fails not_found) (fun _ => 6%Q)
           (fun _ => 6%Q) "download_x" 3
           (CircuitBreaker.record_failures [1%Q; 2%Q; 3%Q; 4%Q; 5%Q]
              (CircuitBreaker.default "download")) 5%Q tt);
    [lia|reflexivity|reflexivity|reflexivity].
Defined.

Lemma negative_budget_returns_none_witness :
  result (with_retry (always_fails not_found) (fun _ => 0%Q) (fun _ => 0%Q)
            "download_x" (-1) None tt) = inr None.
Proof.
  rewrite (negative_budget_returns_none (always_fails not_found)
             (fun _ => 0%Q) (fun _ => 0%Q) "download_x" (-1) None tt);
    [reflexivity|lia].
Defined.

Lemma always_fails_retryable e :
  is_retryable_error e (status_code e) = true ->
  always_retryable (always_fails e).
Proof. intros H w. exists e. split; [reflexivity|exact H]. Qed.

Lemma retries_exhaust_budget_witness :
  Z.of_nat (calls (with_retry (always_fails timed_out) (fun _ => 0%Q)
                     (fun _ => 0%Q) "download_x" 3 None tt)) = 3 + 1.
Proof.
  apply (retries_exhaust_budget (always_fails timed_out) (fun _ => 0%Q)
           (fun _ => 0%Q) "download_x" 3 tt); [lia|].
  apply always_fails_retryable. reflexivity.
Defined.

Lemma breaker_trips_during_retries_witness :
  calls (with_retry (always_fails timed_out) (fun k => inject_Z k)
           (fun k => inject_Z k) "download_x" 3
           (Some (CircuitBreaker.__init__ "download" 2 60%Q 2)) tt) = 2%nat.
Proof.
  apply (breaker_trips_during_retries (always_fails timed_out)
           (fun k => inject_Z k) (fun k => inject_Z k) "download_x" 3
           (CircuitBreaker.__init__ "download" 2 60%Q 2) 2 tt).
  - apply always_fails_retryable. reflexivity.
  - intros k. cbn [CircuitBreaker.recovery_timeout CircuitBreaker.__init__].
    unfold Qlt, Qminus, Qplus, Qopp, inject_Z. cbn. lia.
  - reflexivity.
  - reflexivity.
  - lia.
  - lia.
Defined.

Section with_retry_frame.
Context {W A : Type}.
Variable func : W -> (exn + A) * W.
Variable gate_time fail_time : Z -> Q.
Variable operation_name : string.
Variable max_retries : Z.

(** The world after [with_retry] is reached through calls of the operation
    alone: what every call keeps, the run keeps. *)
Lemma with_retry_preserves (P : W -> Prop) cb w :
  (forall w0, P w0 -> P (snd (func w0))) ->
  P w ->
  P (world (with_retry func gate_time fail_time operation_name max_retries
              cb w)).
Proof.
  intros Hstep. unfold with_retry.
  generalize (range (max_retries + 1)), (@None exn). intros attempts.
  revert cb w. induction attempts as [|a rest IH]; intros cb w last Hw.
  - cbn. destruct last; exact Hw.
  - cbn [loop]. destruct (gate gate_time a cb) as [ok cb1].
    destruct ok; cbn [negb]; [|exact Hw].
    pose proof (Hstep w Hw) as Hw1.
    destruct (func w) as [[e|v] w1]; cbn [snd] in Hw1; [|exact Hw1].
    destruct (is_retryable_error e (status_code e)); cbn [negb]; [|exact Hw1].
    destruct (max_retries <=? a); [exact Hw1|].
    cbn [world]. apply IH, Hw1.
Qed.

(** A first call that succeeds behind a closed breaker ends the run. *)
Lemma with_retry_first_success b w v w1 :
  0 <= max_retries ->
  CircuitBreaker.state b = CircuitBreaker.CLOSED ->
  func w = (inr v, w1) ->
  with_retry func gate_time fail_time operation_name max_retries (Some b) w
  = mk_run (inr (Some v)) (Some (CircuitBreaker.record_success b)) w1
      [Invoked 0 None; BreakerSuccess].
Proof.
  intros Hmax Hs Hf. unfold with_retry. rewrite range_cons by lia.
  cbn [loop gate]. rewrite (can_attempt_closed _ b Hs). cbn [negb].
  rewrite Hf. reflexivity.
Qed.

(** A first call that fails with a Terminal error behind a closed breaker
    ends the run as well. *)
Lemma with_retry_first_terminal b w e w1 :
  0 <= max_retries ->
  CircuitBreaker.state b = CircuitBreaker.CLOSED ->
  func w = (inl e, w1) ->
  is_retryable_error e (status_code e) = false ->
  with_retry func gate_time fail_time operation_name max_retries (Some b) w
  = mk_run (inl e)
      (Some (CircuitBreaker.record_failure (fail_time 0) b)) w1
      [Invoked 0 (Some e); BreakerFailure; Raised e].
Proof.
  intros Hmax Hs Hf Hterm. unfold with_retry. rewrite range_cons by lia.
  cbn [loop gate]. rewrite (can_attempt_closed _ b Hs). cbn [negb].
  rewrite Hf, Hterm. reflexivity.
Qed.

End with_retry_frame.


Lemma every_call_is_recorded_witness :
  exists post',
    [BreakerFailure; Slept 0; Invoked 1 (Some timed_out); BreakerFailure;
     Raised timed_out]
    = failure_events (Some (CircuitBreaker.default "download")) ++ post'.
Proof.
  apply (proj2 (every_call_is_recorded (always_fails timed_out)
                  (fun _ => 0%Q) (fun _ => 0%Q) "download_x" 1
                  (Some (CircuitBreaker.default "download")) tt)
           [] 0 timed_out).
  reflexivity.
Defined.

End RetryPolicy.

(** ** models.py *)
Module StreamFormat.
Record t := mk {
  itag : Z;
  url : option string;
  mime_type : string;
  bitrate : Z;
  width : option Z;
  height : option Z;
  signature_cipher : option string;
  content_length : option Z;
  quality : option string;
  fps : option Z
}.
End StreamFormat.

Module PlayerArtifact.
Record t := mk {
  player_url : string;
  player_version_id : string;
  extracted_sts : string;
  decipher_function_code : option string;
  n_function_code : option string;
  extraction_method_version : string;
  created_at : Q;
  last_validated : Q;
  failure_count : Z
}.
End PlayerArtifact.

Module ExtractionState.
Record t := mk {
  video_id : string;
  job_id : string;
  player_artifact_id : string;
  target_filename : string;
  bytes_completed : Z;
  content_length : option Z;
  etag : option string;
  last_modified : option string;
  last_successful_request : Q;
  retry_count : Z;
  status : string;
  error_message : option string
}.

(** [ExtractionState(video_id=.., job_id=.., player_artifact_id=..,
    target_filename=.., content_length=..)]: the other fields take their
    defaults, [now] being the [datetime.utcnow()] of the default factory. *)
Definition create (video_id job_id player_artifact_id target_filename : string)
    (content_length : option Z) (now : Q) : t :=
  mk video_id job_id player_artifact_id target_filename 0 content_length
     None None now 0 "pending" None.

Definition set_progress (bytes : Z) (now : Q) (s : t) : t :=
  mk (video_id s) (job_id s) (player_artifact_id s) (target_filename s)
     bytes (content_length s) (etag s) (last_modified s) now
     (retry_count s) (status s) (error_message s).

Definition set_etag (e : option string) (s : t) : t :=
  mk (video_id s) (job_id s) (player_artifact_id s) (target_filename s)
     (bytes_completed s) (content_length s) e (last_modified s)
     (last_successful_request s) (retry_count s) (status s) (error_message s).

Definition set_last_modified (m : option string) (s : t) : t :=
  mk (video_id s) (job_id s) (player_artifact_id s) (target_filename s)
     (bytes_completed s) (content_length s) (etag s) m
     (last_successful_request s) (retry_count s) (status s) (error_message s).

Definition set_status (st : string) (s : t) : t :=
  mk (video_id s) (job_id s) (player_artifact_id s) (target_filename s)
     (bytes_completed s) (content_length s) (etag s) (last_modified s)
     (last_successful_request s) (retry_count s) st (error_message s).

Definition set_bytes_completed (bytes : Z) (s : t) : t :=
  mk (video_id s) (job_id s) (player_artifact_id s) (target_filename s)
     bytes (content_length s) (etag s) (last_modified s)
     (last_successful_request s) (retry_count s) (status s) (error_message s).
End ExtractionState.

(** ** state_manager.py: class StateManager *)
Module StateManager.
Import py.

(** What the state manager sees of the disk: the job records and the
    artifact records of its two directories, by id, and the other files by
    path. [journal] is not on the disk: it lists every snapshot written by
    [save_extraction_state], oldest first, so that the succession of
    persisted values can be spoken of. *)
Record disk := mk_disk {
  jobs : gmap string ExtractionState.t;
  player_artifacts : gmap string PlayerArtifact.t;
  files : gmap string (list Byte.byte);
  journal : list ExtractionState.t
}.

Definition empty_disk : disk := mk_disk ∅ ∅ ∅ [].

Definition set_files (f : gmap string (list Byte.byte)) (d : disk) : disk :=
  mk_disk (jobs d) (player_artifacts d) f (journal d).

Definition save_extraction_state (state : ExtractionState.t) (d : disk) : disk :=
  mk_disk (<[ExtractionState.job_id state := state]> (jobs d))
          (player_artifacts d) (files d) (journal d ++ [state]).

Definition load_extraction_state (job_id : string) (d : disk)
    : option ExtractionState.t :=
  jobs d !! job_id.

Definition delete_extraction_state (job_id : string) (d : disk) : disk :=
  mk_disk (delete job_id (jobs d)) (player_artifacts d) (files d) (journal d).

Definition save_player_artifact (artifact : PlayerArtifact.t) (d : disk) : disk :=
  mk_disk (jobs d)
          (<[PlayerArtifact.player_version_id artifact := artifact]>
             (player_artifacts d))
          (files d) (journal d).

(** [now] is the [datetime.utcnow()] of the freshness check. *)
Definition load_player_artifact (version_id : string) (now : Q) (d : disk)
    : option PlayerArtifact.t :=
  match player_artifacts d !! version_id with
  | None => None
  | Some artifact =>
      let age_seconds := (now - PlayerArtifact.created_at artifact)%Q in
      if Qle_bool age_seconds IYEConfig.PLAYER_CACHE_TTL then Some artifact
      else None
  end.

Definition is_incomplete (s : ExtractionState.t) : bool :=
  String.eqb (ExtractionState.status s) "pending"
  || String.eqb (ExtractionState.status s) "in_progress".

Definition list_incomplete_jobs (d : disk) : gmap string ExtractionState.t :=
  filter (fun kv => is_incomplete kv.2 = true) (jobs d).

Definition get_download_resume_info (job_id target_filename : string) (d : disk)
    : Z * option string * option string :=
  match load_extraction_state job_id d with
  | None => (0, None, None)
  | Some state =>
      let part_file :=
        String.append target_filename IYEConfig.DOWNLOAD_TEMP_SUFFIX in
      let offset :=
        match files d !! part_file with
        | Some content =>
            let actual_size := Z.of_nat (length content) in
            Z.max actual_size (ExtractionState.bytes_completed state)
        | None => 0
        end in
      (offset, ExtractionState.etag state, ExtractionState.last_modified state)
  end.

(** [now] is the [datetime.utcnow()] stored in [last_successful_request]. *)
Definition update_download_progress (job_id : string) (bytes_completed : Z)
    (etag last_modified : option string) (now : Q) (d : disk) : disk :=
  match load_extraction_state job_id d with
  | None => d
  | Some state =>
      let s1 := ExtractionState.set_progress bytes_completed now state in
      let s2 := if truthy_str etag then ExtractionState.set_etag etag s1 else s1 in
      let s3 := if truthy_str last_modified
                then ExtractionState.set_last_modified last_modified s2 else s2 in
      save_extraction_state (ExtractionState.set_status "in_progress" s3) d
  end.

(** The values of [bytes_completed] persisted for a job while its status
    is in_progress, in the order they were written. *)
Definition persisted_progress (job_id : string) (d : disk) : list Z :=
  map ExtractionState.bytes_completed
    (List.filter
       (fun s => String.eqb (ExtractionState.job_id s) job_id
                 && String.eqb (ExtractionState.status s) "in_progress")
       (journal d)).

(** *** Properties *)

(** The offset as the claim words it: the larger of the persisted
    [bytes_completed] and the size of the partial file, an absent file
    counting for size 0. *)
Definition claimed_offset (state : ExtractionState.t)
    (part : option (list Byte.byte)) : Z :=
  Z.max (ExtractionState.bytes_completed state)
        (match part with Some content => Z.of_nat (length content) | None => 0 end).

(** A job checkpointed at 3000 bytes whose partial file is gone. *)
Definition job_3000 : ExtractionState.t :=
  ExtractionState.set_status "in_progress"
    (ExtractionState.set_bytes_completed 3000
       (ExtractionState.create "vid" "job" "current" "out.mp4" (Some 10000) 0%Q)).

Definition disk_without_part : disk := save_extraction_state job_3000 empty_disk.

Definition disk_with_part (content : list Byte.byte) : disk :=
  set_files (<["out.mp4.part" := content]> ∅) disk_without_part.

(** C3, as the code has it. For a job with persisted state: when the
    partial file exists the offset is the larger of the persisted
    [bytes_completed] and the file's size; when it does not exist the
    offset is 0, whatever was persisted. The validators returned are the
    persisted ones. *)
Theorem resume_info_offset (job_id target_filename : string) (d : disk)
    (state : ExtractionState.t) :
  load_extraction_state job_id d = Some state ->
  let part_file := String.append target_filename IYEConfig.DOWNLOAD_TEMP_SUFFIX in
  let info := get_download_resume_info job_id target_filename d in
  (forall content, files d !! part_file = Some content ->
     fst (fst info) = Z.max (ExtractionState.bytes_completed state)
                            (Z.of_nat (length content)))
  /\ (files d !! part_file = None -> fst (fst info) = 0)
  /\ snd (fst info) = ExtractionState.etag state
  /\ snd info = ExtractionState.last_modified state.
Proof.
  intros Hload. unfold get_download_resume_info. rewrite Hload. cbn.
  repeat split.
  - intros content Hc. rewrite Hc. apply Z.max_comm.
  - intros Hc. rewrite Hc. reflexivity.
Qed.

Lemma resume_info_offset_witness :
  fst (fst (get_download_resume_info "job" "out.mp4"
              (disk_with_part (repeat Byte.x00 4096))))
  = Z.max 3000 4096.
Proof.
  exact (proj1 (resume_info_offset "job" "out.mp4"
                  (disk_with_part (repeat Byte.x00 4096)) job_3000 eq_refl)
               (repeat Byte.x00 4096) eq_refl).
Defined.

(** C3 as stated fails: with 3000 bytes persisted and no partial file, the
    offset returned is 0 and not max(3000, 0). *)
Lemma resume_info_absent_part_is_zero :
  load_extraction_state "job" disk_without_part = Some job_3000
  /\ files disk_without_part !! "out.mp4.part" = None
  /\ claimed_offset job_3000 None = 3000
  /\ get_download_resume_info "job" "out.mp4" disk_without_part
     = (0, None, None).
Proof. repeat split. Qed.

(** *** Records, listings and freshness *)

(** Every job record sits under its own job id, as a store written only
    through [save_extraction_state] does. *)
Definition consistent (d : disk) : Prop :=
  forall k s, jobs d !! k = Some s -> ExtractionState.job_id s = k.

Lemma save_consistent state d :
  consistent d -> consistent (save_extraction_state state d).
Proof.
  intros Hd k s. cbn. rewrite lookup_insert_Some.
  intros [[Hk <-]|[_ H]]; [exact Hk|apply Hd, H].
Qed.

Lemma delete_consistent job_id d :
  consistent d -> consistent (delete_extraction_state job_id d).
Proof.
  intros Hd k s. cbn. rewrite lookup_delete_Some.
  intros [_ H]. apply Hd, H.
Qed.

Lemma empty_consistent : consistent empty_disk.
Proof. intros k s. cbn. rewrite lookup_empty. discriminate. Qed.

(** The validator a checkpoint leaves: the new one when it is there and
    not empty, the stored one otherwise. *)
Definition merged (new old : option string) : option string :=
  if py.truthy_str new then new else old.

(** A checkpoint leaves the record of a known job in progress. *)
Lemma checkpoint_marks_in_progress (job_id : string) (bytes : Z)
    (etag last_modified : option string) (now : Q) (d : disk) state :
  consistent d ->
  load_extraction_state job_id d = Some state ->
  exists state',
    load_extraction_state job_id
      (update_download_progress job_id bytes etag last_modified now d)
    = Some state'
    /\ ExtractionState.status state' = "in_progress".
Proof.
  intros Hd Hload. unfold update_download_progress. rewrite Hload.
  pose proof (Hd job_id state Hload) as Hid.
  set (s3 := ExtractionState.set_status "in_progress" _).
  assert (Hid3 : ExtractionState.job_id s3 = job_id).
  { unfold s3. destruct (py.truthy_str etag), (py.truthy_str last_modified);
      exact Hid. }
  exists s3. unfold load_extraction_state, save_extraction_state.
  cbn [jobs]. rewrite Hid3. split; [apply lookup_insert_eq|].
  unfold s3. destruct (py.truthy_str etag), (py.truthy_str last_modified);
    reflexivity.
Qed.

(** X10. A checkpoint for an unknown job changes nothing. For a known job
    of a consistent store it rewrites that job's record alone: the byte
    count and the time are the ones given, the status becomes in_progress,
    a validator is replaced only by one that is present and not empty, the
    other fields stay; no file is touched and the store stays consistent. *)
Theorem update_download_progress_effect (job_id : string) (bytes : Z)
    (etag last_modified : option string) (now : Q) (d : disk) :
  let d' := update_download_progress job_id bytes etag last_modified now d in
  (load_extraction_state job_id d = None -> d' = d)
  /\ (forall state,
        consistent d ->
        load_extraction_state job_id d = Some state ->
        exists state',
          load_extraction_state job_id d' = Some state'
          /\ ExtractionState.bytes_completed state' = bytes
          /\ ExtractionState.status state' = "in_progress"
          /\ ExtractionState.last_successful_request state' = now
          /\ ExtractionState.etag state'
             = merged etag (ExtractionState.etag state)
          /\ ExtractionState.last_modified state'
             = merged last_modified (ExtractionState.last_modified state)
          /\ ExtractionState.job_id state' = job_id
          /\ ExtractionState.video_id state' = ExtractionState.video_id state
          /\ ExtractionState.target_filename state'
             = ExtractionState.target_filename state
          /\ ExtractionState.content_length state'
             = ExtractionState.content_length state
          /\ ExtractionState.retry_count state'
             = ExtractionState.retry_count state
          /\ ExtractionState.player_artifact_id state'
             = ExtractionState.player_artifact_id state
          /\ ExtractionState.error_message state'
             = ExtractionState.error_message state
          /\ (forall other, other <> job_id ->
                load_extraction_state other d' = load_extraction_state other d)
          /\ files d' = files d
          /\ player_artifacts d' = player_artifacts d
          /\ consistent d').
Proof.
  cbv zeta. unfold update_download_progress. split.
  - intros Hnone. rewrite Hnone. reflexivity.
  - intros state Hd Hload. rewrite Hload.
    pose proof (Hd job_id state Hload) as Hid.
    set (s3 := ExtractionState.set_status "in_progress" _).
    assert (Hid3 : ExtractionState.job_id s3 = job_id).
    { unfold s3. destruct (py.truthy_str etag), (py.truthy_str last_modified);
        exact Hid. }
    exists s3. unfold load_extraction_state, save_extraction_state.
    cbn [jobs files player_artifacts]. rewrite Hid3.
    split; [apply lookup_insert_eq|].
    assert (Hfields :
      ExtractionState.bytes_completed s3 = bytes
      /\ ExtractionState.status s3 = "in_progress"
      /\ ExtractionState.last_successful_request s3 = now
      /\ ExtractionState.etag s3 = merged etag (ExtractionState.etag state)
      /\ ExtractionState.last_modified s3
         = merged last_modified (ExtractionState.last_modified state)
      /\ ExtractionState.video_id s3 = ExtractionState.video_id state
      /\ ExtractionState.target_filename s3
         = ExtractionState.target_filename state
      /\ ExtractionState.content_length s3
         = ExtractionState.content_length state
      /\ ExtractionState.retry_count s3 = ExtractionState.retry_count state
      /\ ExtractionState.player_artifact_id s3
         = ExtractionState.player_artifact_id state
      /\ ExtractionState.error_message s3
         = ExtractionState.error_message state).
    { unfold s3, merged.
      destruct (py.truthy_str etag), (py.truthy_str last_modified); cbn;
        repeat split; reflexivity. }
    destruct Hfields
      as (H1 & H2 & H3 & H4 & H5 & H6 & H7 & H8 & H9 & H10 & H11).
    clearbody s3.
    repeat (split; [assumption || reflexivity|]).
    split; [intros other Hne; apply lookup_insert_ne; congruence|].
    split; [reflexivity|]. split; [reflexivity|].
    intros k s. cbn [jobs]. rewrite lookup_insert_Some.
    intros [[Hk <-]|[_ H]]; [congruence|apply Hd, H].
Qed.

Lemma update_download_progress_effect_witness :
  option_map ExtractionState.bytes_completed
    (load_extraction_state "job"
       (update_download_progress "job" 4096 (Some "v1") None 9%Q
          disk_without_part)) = Some 4096.
Proof.
  destruct (proj2 (update_download_progress_effect "job" 4096 (Some "v1")
                     None 9%Q disk_without_part) job_3000)
    as (state' & Hload & Hbytes & _).
  - apply save_consistent, empty_consistent.
  - reflexivity.
  - rewrite Hload. cbn. rewrite Hbytes. reflexivity.
Defined.

(** X11. [list_incomplete_jobs] returns exactly the records whose status is
    pending or in_progress, each under its id; a job just checkpointed is
    among them, a job just deleted is not. *)
Theorem list_incomplete_jobs_exact (d : disk) :
  (forall k s,
     list_incomplete_jobs d !! k = Some s
     <-> jobs d !! k = Some s
         /\ (ExtractionState.status s = "pending"
             \/ ExtractionState.status s = "in_progress"))
  /\ (forall job_id bytes etag last_modified now,
        consistent d ->
        is_Some (load_extraction_state job_id d) ->
        is_Some (list_incomplete_jobs
                   (update_download_progress job_id bytes etag last_modified
                      now d) !! job_id))
  /\ (forall job_id,
        list_incomplete_jobs (delete_extraction_state job_id d) !! job_id
        = None).
Proof.
  assert (Hexact : forall d0 k s,
     list_incomplete_jobs d0 !! k = Some s
     <-> jobs d0 !! k = Some s
         /\ (ExtractionState.status s = "pending"
             \/ ExtractionState.status s = "in_progress")).
  { intros d0 k s. unfold list_incomplete_jobs.
    rewrite map_lookup_filter_Some. cbn. unfold is_incomplete.
    rewrite orb_true_iff, !String.eqb_eq. tauto. }
  split; [apply Hexact|]. split.
  - intros job_id bytes etag last_modified now Hd [state Hload].
    destruct (checkpoint_marks_in_progress job_id bytes etag last_modified now
                d state Hd Hload) as (state' & Hload' & Hstatus).
    exists state'. apply Hexact. split; [exact Hload'|right; exact Hstatus].
  - intros job_id.
    destruct (list_incomplete_jobs (delete_extraction_state job_id d) !! job_id)
      as [s|] eqn:E; [|reflexivity].
    apply Hexact in E. destruct E as [E _]. cbn in E.
    rewrite lookup_delete_eq in E. discriminate.
Qed.

(** X12. An artifact just saved is loaded back under its version id as long
    as its age is at most the TTL, the bound included; once older it is
    absent for [load_player_artifact] though its record is still on disk.
    Saving it changes nothing for the other version ids. *)
Theorem saved_artifact_expires (artifact : PlayerArtifact.t) (now : Q)
    (d : disk) :
  let id := PlayerArtifact.player_version_id artifact in
  let d' := save_player_artifact artifact d in
  ((now - PlayerArtifact.created_at artifact <= IYEConfig.PLAYER_CACHE_TTL)%Q ->
     load_player_artifact id now d' = Some artifact)
  /\ ((IYEConfig.PLAYER_CACHE_TTL < now - PlayerArtifact.created_at artifact)%Q ->
        load_player_artifact id now d' = None
        /\ player_artifacts d' !! id = Some artifact)
  /\ (forall other, other <> id ->
        load_player_artifact other now d' = load_player_artifact other now d)
  /\ jobs d' = jobs d /\ files d' = files d.
Proof.
  cbv zeta. unfold load_player_artifact, save_player_artifact.
  cbn [player_artifacts jobs files]. rewrite lookup_insert_eq.
  split; [|split; [|split]].
  - intros Hfresh. apply Qle_bool_iff in Hfresh. rewrite Hfresh. reflexivity.
  - intros Hold. split; [|reflexivity].
    destruct (Qle_bool _ _) eqn:E; [|reflexivity].
    apply Qle_bool_iff in E. exfalso. eapply Qlt_not_le; eassumption.
  - intros other Hne. rewrite lookup_insert_ne by congruence. reflexivity.
  - auto.
Qed.

Definition sample_artifact : PlayerArtifact.t :=
  PlayerArtifact.mk "https://www.youtube.com/s/player/0a1b2c3d/base.js"
    "0a1b2c3d" "19876" None None "2.0" 100%Q 100%Q 0.

Lemma saved_artifact_expires_witness :
  load_player_artifact "0a1b2c3d" 3700%Q
    (save_player_artifact sample_artifact empty_disk) = Some sample_artifact
  /\ load_player_artifact "0a1b2c3d" 3701%Q
       (save_player_artifact sample_artifact empty_disk) = None.
Proof.
  split.
  - apply (proj1 (saved_artifact_expires sample_artifact 3700%Q empty_disk)).
    vm_compute. congruence.
  - apply (proj1 (proj2 (saved_artifact_expires sample_artifact 3701%Q
                           empty_disk))).
    reflexivity.
Defined.


Lemma list_incomplete_jobs_exact_witness :
  is_Some (list_incomplete_jobs
             (update_download_progress "job" 4096 (Some "v1") None 9%Q
                disk_without_part) !! "job").
Proof.
  apply (proj1 (proj2 (list_incomplete_jobs_exact disk_without_part))
           "job" 4096 (Some "v1") None 9%Q).
  - apply save_consistent, empty_consistent.
  - exists job_3000. reflexivity.
Defined.

End StateManager.

(** ** downloader.py: class ResumableDownloader *)
Module ResumableDownloader.

(** A streamed response: the chunks [iter_content] yields, in order, and
    the exception it raises after them when the connection breaks. *)
Record Response := mk_response {
  status_code : Z;
  headers : gmap string string;
  body : list (list Byte.byte);
  body_error : option py.exn
}.

(** The world a download runs in: the disk, and how many requests and how
    many [datetime.utcnow()] readings have been made so far. *)
Record World := mk_world {
  disk : StateManager.disk;
  requests : nat;
  utc_reads : nat
}.

(** The chunk loop of [_download_with_range] as it goes. *)
Record progress := mk_progress {
  at_world : World;
  bytes_written : Z;
  chunk_count : Z
}.

Definition write_file (path : string) (chunk : list Byte.byte)
    (d : StateManager.disk) : StateManager.disk :=
  StateManager.set_files
    (<[path := default [] (StateManager.files d !! path) ++ chunk]>
       (StateManager.files d)) d.

(** [open(part_file, mode)]: ["wb"] truncates or creates, ["ab"] keeps
    what is there or creates. The open is taken to succeed. *)
Definition open_file (path mode : string) (d : StateManager.disk)
    : StateManager.disk :=
  if String.eqb mode "wb" then
    StateManager.set_files (<[path := []]> (StateManager.files d)) d
  else write_file path [] d.

Definition _atomic_complete (part_file final_file : string)
    (d : StateManager.disk) : py.exn + (string * StateManager.disk) :=
  match StateManager.files d !! part_file with
  | None => inl (py.Exception (String.append "Part file not found: " part_file))
  | Some content =>
      let removed := delete final_file (StateManager.files d) in
      let renamed := <[final_file := content]> (delete part_file removed) in
      inr (final_file, StateManager.set_files renamed d)
  end.

Section downloader.

(** [http_get k url headers] is the answer of the session to its [k]-th
    request, [utcnow k] the [k]-th reading of the UTC clock, [gate_time]
    and [fail_time] the readings of [time.time()] by the breaker. *)
Variable http_get : nat -> string -> gmap string string -> py.exn + Response.
Variable utcnow : nat -> Q.
Variable gate_time fail_time : Z -> Q.

Definition checkpoint (job_id : string) (bytes : Z)
    (etag last_modified : option string) (w : World) : World :=
  mk_world
    (StateManager.update_download_progress job_id bytes etag last_modified
       (utcnow (utc_reads w)) (disk w))
    (requests w)
    (match StateManager.load_extraction_state job_id (disk w) with
     | Some _ => S (utc_reads w)
     | None => utc_reads w
     end).

(** The body of [async for chunk in resp.iter_content(...)]. *)
Fixpoint write_chunks (chunks : list (list Byte.byte))
    (part_file job_id : string) (current_etag last_modified : option string)
    (content_length : option Z) (offset : Z) (p : progress)
    : option py.exn * progress :=
  match chunks with
  | [] => (None, p)
  | chunk :: rest =>
      match chunk with
      | [] => write_chunks rest part_file job_id current_etag last_modified
                content_length offset p
      | _ :: _ =>
          let w := at_world p in
          let w1 := mk_world (write_file part_file chunk (disk w))
                             (requests w) (utc_reads w) in
          let written := bytes_written p + Z.of_nat (length chunk) in
          let count := chunk_count p + 1 in
          if count mod 10 =? 0 then
            let w2 := checkpoint job_id written current_etag last_modified w1 in
            if py.truthy_int content_length
               && (default 0 content_length + offset =? 0)
            then (Some py.ZeroDivisionError, mk_progress w2 written count)
            else write_chunks rest part_file job_id current_etag last_modified
                   content_length offset (mk_progress w2 written count)
          else write_chunks rest part_file job_id current_etag last_modified
                 content_length offset (mk_progress w1 written count)
      end
  end.

(** [if content_length: content_length = int(content_length)]: the header
    as an [int] when it is present and not empty, the [ValueError] when it
    does not parse. *)
Definition int_if_present (content_length : option string)
    : py.exn + option Z :=
  match content_length with
  | Some text =>
      if py.truthy_str (Some text) then
        match py.int text with
        | inr n => inr (Some n)
        | inl e => inl e
        end
      else inr None
  | None => inr None
  end.

(** [if expected_etag and current_etag and expected_etag != current_etag:
    offset = 0]. *)
Definition validated_offset (expected_etag current_etag : option string)
    (offset : Z) : Z :=
  if py.truthy_str expected_etag && py.truthy_str current_etag
     && negb (bool_decide (expected_etag = current_etag))
  then 0 else offset.

Definition range_headers (offset : Z) : gmap string string :=
  if 0 <? offset then
    {[ "Range" := String.append "bytes="
                    (String.append (py.str_of_int offset) "-") ]}
  else ∅.

Definition open_mode (offset : Z) : string :=
  if 0 <? offset then "ab" else "wb".

Definition _download_with_range (url part_file : string) (offset : Z)
    (expected_etag expected_last_modified : option string) (job_id : string)
    (w : World) : (py.exn + unit) * World :=
  let headers_ := range_headers offset in
  let w0 := mk_world (disk w) (S (requests w)) (utc_reads w) in
  match http_get (requests w) url headers_ with
  | inl e => (inl e, w0)
  | inr resp =>
      if (0 <? offset) && negb ((status_code resp =? 200) || (status_code resp =? 206))
      then (inl (py.Exception (String.append "Range request failed: "
                                 (py.str_of_int (status_code resp)))), w0)
      else if (offset =? 0) && negb (status_code resp =? 200)
      then (inl (py.Exception (String.append "Download request failed: "
                                 (py.str_of_int (status_code resp)))), w0)
      else
        let current_etag := headers resp !! "ETag" in
        let offset1 := validated_offset expected_etag current_etag offset in
        match int_if_present (headers resp !! "Content-Length") with
        | inl e => (inl e, w0)
        | inr content_length =>
            let mode := open_mode offset1 in
            let w1 := mk_world (open_file part_file mode (disk w0))
                               (requests w0) (utc_reads w0) in
            let last_modified := headers resp !! "Last-Modified" in
            let '(raised, p) :=
              write_chunks (body resp) part_file job_id current_etag
                last_modified content_length offset1
                (mk_progress w1 offset1 0) in
            match raised, body_error resp with
            | Some e, _ => (inl e, at_world p)
            | None, Some e => (inl e, at_world p)
            | None, None =>
                (inr tt, checkpoint job_id (bytes_written p) current_etag
                           last_modified (at_world p))
            end
        end
  end.

Definition download_stream (cb : CircuitBreaker.t) (job_id : string)
    (stream : StreamFormat.t) (target_filename video_id : string) (w : World)
    : (py.exn + string) * CircuitBreaker.t * World :=
  let '(state, w1) :=
    match StateManager.load_extraction_state job_id (disk w) with
    | Some state => (state, w)
    | None =>
        let state := ExtractionState.create video_id job_id "current"
                       target_filename (StreamFormat.content_length stream)
                       (utcnow (utc_reads w)) in
        (state, mk_world (StateManager.save_extraction_state state (disk w))
                         (requests w) (S (utc_reads w)))
    end in
  let part_file := String.append target_filename IYEConfig.DOWNLOAD_TEMP_SUFFIX in
  let '(offset, etag, last_modified) :=
    StateManager.get_download_resume_info job_id target_filename (disk w1) in
  if negb (py.truthy_str (StreamFormat.url stream)) then
    (inl (py.Exception "Stream URL not available (cipher not decrypted)"), cb, w1)
  else
    let stream_url := default "" (StreamFormat.url stream) in
    let r := RetryPolicy.with_retry
               (_download_with_range stream_url part_file offset etag
                  last_modified job_id)
               gate_time fail_time (String.append "download_" video_id)
               IYEConfig.MAX_RETRIES (Some cb) w1 in
    let cb1 := default cb (RetryPolicy.breaker r) in
    let w2 := RetryPolicy.world r in
    match RetryPolicy.result r with
    | inl e => (inl e, cb1, w2)
    | inr _ =>
        match _atomic_complete part_file target_filename (disk w2) with
        | inl e => (inl e, cb1, w2)
        | inr (final_path, d3) =>
            let size :=
              Z.of_nat (length (default [] (StateManager.files d3 !! final_path))) in
            let completed :=
              ExtractionState.set_bytes_completed size
                (ExtractionState.set_status "completed" state) in
            let d4 := StateManager.save_extraction_state completed d3 in
            let d5 := StateManager.delete_extraction_state job_id d4 in
            (inr final_path, cb1, mk_world d5 (requests w2) (utc_reads w2))
        end
    end.

(** *** What one attempt writes and persists *)

Lemma persisted_progress_save job_id state d :
  StateManager.persisted_progress job_id
    (StateManager.save_extraction_state state d)
  = StateManager.persisted_progress job_id d
    ++ (if String.eqb (ExtractionState.job_id state) job_id
           && String.eqb (ExtractionState.status state) "in_progress"
        then [ExtractionState.bytes_completed state] else []).
Proof.
  unfold StateManager.persisted_progress, StateManager.save_extraction_state.
  cbn [StateManager.journal]. rewrite List.filter_app, map_app. cbn.
  destruct (_ && _); reflexivity.
Qed.

Lemma checkpoint_progress job_id bytes etag last_modified w :
  exists new,
    StateManager.persisted_progress job_id
      (disk (checkpoint job_id bytes etag last_modified w))
    = StateManager.persisted_progress job_id (disk w) ++ new
    /\ (new = [] \/ new = [bytes]).
Proof.
  unfold checkpoint, StateManager.update_download_progress. cbn [disk].
  destruct (StateManager.load_extraction_state job_id (disk w)) as [state|].
  - rewrite persisted_progress_save.
    destruct (_ && _); eexists; split; try reflexivity; [right|left; reflexivity].
    destruct (py.truthy_str etag), (py.truthy_str last_modified); reflexivity.
  - exists []. rewrite app_nil_r. auto.
Qed.

Lemma checkpoint_files job_id bytes etag last_modified w :
  StateManager.files (disk (checkpoint job_id bytes etag last_modified w))
  = StateManager.files (disk w).
Proof.
  unfold checkpoint, StateManager.update_download_progress. cbn [disk].
  destruct (StateManager.load_extraction_state job_id (disk w)); reflexivity.
Qed.

Lemma write_chunks_progress part_file job_id current_etag last_modified
    content_length offset chunks : forall p,
  let p' := snd (write_chunks chunks part_file job_id current_etag
                   last_modified content_length offset p) in
  exists new,
    StateManager.persisted_progress job_id (disk (at_world p'))
    = StateManager.persisted_progress job_id (disk (at_world p)) ++ new
    /\ StronglySorted Z.le new
    /\ Forall (fun v => bytes_written p <= v <= bytes_written p') new
    /\ bytes_written p <= bytes_written p'.
Proof.
  induction chunks as [|chunk rest IH]; intros p; cbn zeta.
  - exists []. cbn. rewrite app_nil_r. repeat split; try constructor; lia.
  - cbn [write_chunks]. destruct chunk as [|b chunk]; [apply IH|].
    set (w1 := mk_world _ _ _).
    set (written := bytes_written p + Z.of_nat (length (b :: chunk))).
    assert (Hw : bytes_written p <= written) by (unfold written; lia).
    destruct ((chunk_count p + 1) mod 10 =? 0).
    + destruct (checkpoint_progress job_id written current_etag
                  last_modified w1) as (l & Hl & Hcase).
      change (StateManager.persisted_progress job_id (disk w1))
        with (StateManager.persisted_progress job_id (disk (at_world p))) in Hl.
      destruct (py.truthy_int content_length && _).
      * cbn [snd at_world bytes_written]. exists l. split; [exact Hl|].
        destruct Hcase as [->| ->]; repeat split;
          repeat constructor; lia.
      * specialize (IH (mk_progress
          (checkpoint job_id written current_etag last_modified w1)
          written (chunk_count p + 1))).
        cbn zeta in IH. cbn [at_world bytes_written] in IH.
        destruct IH as (new & Hnew & Hsorted & Hall & Hle).
        exists (l ++ new). rewrite Hnew, Hl, <- app_assoc.
        split; [reflexivity|]. repeat split; [| |lia].
        -- destruct Hcase as [->| ->]; [exact Hsorted|].
           cbn. constructor; [exact Hsorted|].
           eapply List.Forall_impl; [|exact Hall]. cbn. intros; lia.
        -- apply Forall_app. split.
           ++ destruct Hcase as [->| ->]; repeat constructor; lia.
           ++ eapply List.Forall_impl; [|exact Hall]. cbn. intros; lia.
    + specialize (IH (mk_progress w1 written (chunk_count p + 1))).
      cbn zeta in IH. cbn [at_world bytes_written] in IH.
      destruct IH as (new & Hnew & Hsorted & Hall & Hle).
      exists new. split; [exact Hnew|]. repeat split; [exact Hsorted| |lia].
      eapply List.Forall_impl; [|exact Hall]. cbn. intros; lia.
Qed.

Lemma write_chunks_files part_file job_id current_etag last_modified
    content_length offset chunks : forall p p' content,
  StateManager.files (disk (at_world p)) !! part_file = Some content ->
  write_chunks chunks part_file job_id current_etag last_modified
    content_length offset p = (None, p') ->
  StateManager.files (disk (at_world p')) !! part_file
  = Some (content ++ concat chunks).
Proof.
  induction chunks as [|chunk rest IH]; intros p p' content Hc Hrun.
  - cbn in Hrun. inversion Hrun; subst. cbn. rewrite app_nil_r. exact Hc.
  - cbn [write_chunks] in Hrun. destruct chunk as [|b chunk].
    { cbn [concat app]. eapply IH; eassumption. }
    cbn [concat]. rewrite app_assoc.
    destruct ((chunk_count p + 1) mod 10 =? 0).
    + destruct (py.truthy_int content_length && _); [discriminate|].
      eapply IH; [|exact Hrun]. cbn [at_world].
      rewrite checkpoint_files. cbn. rewrite Hc. cbn.
      apply lookup_insert_eq.
    + eapply IH; [|exact Hrun]. cbn. rewrite Hc. cbn.
      apply lookup_insert_eq.
Qed.

(** C9, as the code has it. Within one attempt of the byte transfer the
    values of [bytes_completed] it persists for the job, the periodic
    checkpoints and the final one, come in non-decreasing order. Nothing
    ties them to what was persisted before the attempt started. *)
Theorem attempt_progress_nondecreasing (url part_file : string) (offset : Z)
    (expected_etag expected_last_modified : option string) (job_id : string)
    (w : World) :
  exists new,
    StateManager.persisted_progress job_id
      (disk (snd (_download_with_range url part_file offset expected_etag
                    expected_last_modified job_id w)))
    = StateManager.persisted_progress job_id (disk w) ++ new
    /\ StronglySorted Z.le new.
Proof.
  assert (Hnil : forall d, exists new,
            StateManager.persisted_progress job_id d
            = StateManager.persisted_progress job_id d ++ new
            /\ StronglySorted Z.le new).
  { intros d. exists []. rewrite app_nil_r. split; [reflexivity|constructor]. }
  unfold _download_with_range.
  destruct (http_get (requests w) url (range_headers offset)) as [e|resp];
    [apply Hnil|].
  destruct ((0 <? offset) && _); [apply Hnil|].
  destruct ((offset =? 0) && _); [apply Hnil|].
  set (offset1 := validated_offset _ _ offset).
  destruct (int_if_present (headers resp !! "Content-Length"))
    as [e|content_length]; [apply Hnil|].
  set (p0 := mk_progress _ offset1 0).
  pose proof (write_chunks_progress part_file job_id (headers resp !! "ETag")
                (headers resp !! "Last-Modified") content_length offset1
                (body resp) p0) as Hloop.
  cbn zeta in Hloop.
  destruct (write_chunks (body resp) part_file job_id (headers resp !! "ETag")
              (headers resp !! "Last-Modified") content_length offset1 p0)
    as [raised p] eqn:Hrun.
  cbn [snd] in Hloop. destruct Hloop as (new & Hnew & Hsorted & Hall & _).
  assert (Hopen : StateManager.persisted_progress job_id (disk (at_world p0))
                  = StateManager.persisted_progress job_id (disk w)).
  { unfold p0, open_file. cbn. destruct (String.eqb _ _); reflexivity. }
  rewrite Hopen in Hnew.
  destruct raised as [e|]; [exists new; auto|].
  destruct (body_error resp) as [e|]; [exists new; auto|].
  cbn [snd].
  destruct (checkpoint_progress job_id (bytes_written p)
              (headers resp !! "ETag") (headers resp !! "Last-Modified")
              (at_world p)) as (l & Hl & Hcase).
  exists (new ++ l). rewrite Hl, Hnew, <- app_assoc. split; [reflexivity|].
  destruct Hcase as [->| ->]; [rewrite app_nil_r; exact Hsorted|].
  clear - Hsorted Hall. induction new as [|v new IH]; cbn.
  - repeat constructor.
  - inversion Hsorted; subst. inversion Hall; subst.
    constructor; [auto|]. apply Forall_app. split; [assumption|].
    repeat constructor. lia.
Qed.

(** The status guard of a resumed attempt (offset > 0): a response whose
    status is neither 200 nor 206 makes the attempt raise
    "Range request failed" with nothing written and nothing persisted; run
    under [with_retry] with a closed breaker, that failure is recorded on
    the breaker. *)
Lemma resumed_other_status_fails (url part_file : string) (offset : Z)
    (expected_etag expected_last_modified : option string) (job_id : string)
    (w : World) (resp : Response) :
  0 < offset ->
  http_get (requests w) url (range_headers offset) = inr resp ->
  status_code resp <> 200 ->
  status_code resp <> 206 ->
  let e := py.Exception (String.append "Range request failed: "
                           (py.str_of_int (status_code resp))) in
  let attempt := _download_with_range url part_file offset expected_etag
                   expected_last_modified job_id in
  attempt w = (inl e, mk_world (disk w) (S (requests w)) (utc_reads w))
  /\ forall cb operation_name,
       CircuitBreaker.state cb = CircuitBreaker.CLOSED ->
       exists rest,
         RetryPolicy.trace
           (RetryPolicy.with_retry attempt gate_time fail_time operation_name
              IYEConfig.MAX_RETRIES (Some cb) w)
         = RetryPolicy.Invoked 0 (Some e) :: RetryPolicy.BreakerFailure :: rest.
Proof.
  intros Hoff Hget H200 H206 e attempt.
  assert (Hattempt : attempt w
            = (inl e, mk_world (disk w) (S (requests w)) (utc_reads w))).
  { unfold attempt, _download_with_range. rewrite Hget.
    destruct (Z.ltb_spec 0 offset); [|lia].
    destruct (Z.eqb_spec (status_code resp) 200); [contradiction|].
    destruct (Z.eqb_spec (status_code resp) 206); [contradiction|].
    reflexivity. }
  split; [exact Hattempt|].
  intros cb operation_name Hclosed.
  unfold RetryPolicy.with_retry.
  change (py.range (IYEConfig.MAX_RETRIES + 1)) with [0; 1; 2; 3].
  cbn [RetryPolicy.loop RetryPolicy.gate].
  unfold CircuitBreaker.can_attempt. rewrite Hclosed. cbn [negb].
  rewrite Hattempt.
  destruct (RetryPolicy.is_retryable_error e (py.status_code e)); cbn [negb].
  - destruct (IYEConfig.MAX_RETRIES <=? 0); cbn; eexists; reflexivity.
  - cbn. eexists; reflexivity.
Qed.

(** C10. For a job id with no persisted state, [get_download_resume_info]
    answers (0, None, None) whatever files exist, a partial file for the
    target included; the download started from that answer opens the
    partial file in truncating write mode, so that when the attempt succeeds
    the file holds the response body and nothing of what was there. *)
Theorem resume_info_without_state_is_fresh (job_id target_filename : string)
    (d : StateManager.disk) :
  StateManager.load_extraction_state job_id d = None ->
  let part_file := String.append target_filename IYEConfig.DOWNLOAD_TEMP_SUFFIX in
  StateManager.get_download_resume_info job_id target_filename d
  = (0, None, None)
  /\ open_mode 0 = "wb"
  /\ (forall d',
        StateManager.files (open_file part_file (open_mode 0) d') !! part_file
        = Some [])
  /\ (forall url w resp w',
        http_get (requests w) url (range_headers 0) = inr resp ->
        _download_with_range url part_file 0 None None job_id w = (inr tt, w') ->
        StateManager.files (disk w') !! part_file = Some (concat (body resp))).
Proof.
  intros Hload part_file. split; [|split; [reflexivity|split]].
  - unfold StateManager.get_download_resume_info. rewrite Hload. reflexivity.
  - intros d'. cbn. apply lookup_insert_eq.
  - intros url w resp w' Hget Hrun.
    unfold _download_with_range in Hrun. rewrite Hget in Hrun.
    cbn [Z.ltb Z.compare andb Z.eqb] in Hrun.
    destruct (status_code resp =? 200); cbn [negb] in Hrun; [|discriminate].
    cbn [py.truthy_str andb] in Hrun.
    destruct (int_if_present (headers resp !! "Content-Length"))
      as [e|content_length]; [discriminate|].
    destruct (write_chunks _ _ _ _ _ _ _ _) as [raised p] eqn:Hloop.
    destruct raised as [e|]; [discriminate|].
    destruct (body_error resp) as [e|]; [discriminate|].
    inversion Hrun; subst w'. rewrite checkpoint_files.
    eapply (write_chunks_files _ _ _ _ _ _ _ _ _ []) in Hloop; [exact Hloop|].
    cbn. apply lookup_insert_eq.
Qed.

End downloader.

(** *** Scenarios *)

Definition bytes_of (s : string) : list Byte.byte := list_byte_of_string s.

Fixpoint drop_prefix (p s : string) : option string :=
  match p, s with
  | EmptyString, _ => Some s
  | String a p', String b s' => if Ascii.eqb a b then drop_prefix p' s' else None
  | String _ _, EmptyString => None
  end.

Fixpoint start_digits (s : string) (acc : Z) (seen : bool) : option Z :=
  match s with
  | String c r =>
      if py.is_digit c then start_digits r (10 * acc + py.digit_value c) true
      else if Ascii.eqb c "-" && seen && String.eqb r "" then Some acc
      else None
  | EmptyString => None
  end.

(** The [N] of a header value ["bytes=N-"]. *)
Definition range_start (value : string) : option Z :=
  match drop_prefix "bytes=" value with
  | Some rest => start_digits rest 0 false
  | None => None
  end.

(** The transport is outside the repository; the scenarios run against
    these origins. [origin resource etag] serves [resource] under the
    validator [etag] and honours a single open-ended byte range: a request
    carrying ["Range: bytes=N-"] is answered 206 with the bytes from [N]
    on (416 when there are none), any other request 200 with the whole
    resource. The body comes as the chunks [cut] makes of it. *)
Definition origin (cut : list Byte.byte -> list (list Byte.byte))
    (resource : list Byte.byte) (etag : string)
    : nat -> string -> gmap string string -> py.exn + Response :=
  fun _ _ request_headers =>
    let whole := mk_response 200 {[ "ETag" := etag ]} (cut resource) None in
    match request_headers !! "Range" with
    | None => inr whole
    | Some value =>
        match range_start value with
        | Some n =>
            if n <? Z.of_nat (length resource) then
              inr (mk_response 206 {[ "ETag" := etag ]}
                     (cut (drop (Z.to_nat n) resource)) None)
            else inr (mk_response 416 {[ "ETag" := etag ]} [] None)
        | None => inr whole
        end
    end.

(** An origin that ignores [Range] and always sends the whole resource. *)
Definition rangeless_origin (resource : list Byte.byte) (etag : string)
    : nat -> string -> gmap string string -> py.exn + Response :=
  fun _ _ _ => inr (mk_response 200 {[ "ETag" := etag ]} [resource] None).

(** An origin that answers every request with the same status and no body. *)
Definition status_origin (status : Z)
    : nat -> string -> gmap string string -> py.exn + Response :=
  fun _ _ _ => inr (mk_response status ∅ [] None).

(** A connection that breaks with a read timeout after [n] bytes of the
    first answer and works from the second request on. *)
Definition flaky_origin (n : nat) (resource : list Byte.byte) (etag : string)
    : nat -> string -> gmap string string -> py.exn + Response :=
  fun k url request_headers =>
    match k with
    | O => inr (mk_response 200 {[ "ETag" := etag ]}
                  (map (fun b => [b]) (take n resource))
                  (Some (py.Exception "Read timeout")))
    | S _ => origin (map (fun b => [b])) resource etag k url request_headers
    end.

Definition whole (resource : list Byte.byte) : list (list Byte.byte) :=
  [resource].

Definition midnight : nat -> Q := fun _ => 0%Q.
Definition noon : Z -> Q := fun _ => 0%Q.

Definition stream_at (url : string) : StreamFormat.t :=
  StreamFormat.mk 18 (Some url) "video/mp4" 500000 (Some 640) (Some 360)
    None None (Some "medium") (Some 30).

(** A job interrupted after [done] was written to the partial file and
    checkpointed, the resource having then the validator [etag]. *)
Definition interrupted_job (done : list Byte.byte) (etag : string)
    : ExtractionState.t :=
  ExtractionState.set_status "in_progress"
    (ExtractionState.set_etag (Some etag)
       (ExtractionState.set_bytes_completed (Z.of_nat (length done))
          (ExtractionState.create "vid" "job" "current" "out.mp4" None 0%Q))).

Definition interrupted (done : list Byte.byte) (etag : string) : World :=
  mk_world
    (StateManager.set_files (<["out.mp4.part" := done]> ∅)
       (StateManager.save_extraction_state (interrupted_job done etag)
          StateManager.empty_disk))
    0 0.

(** No job record, but a partial file left behind. *)
Definition orphaned (left : list Byte.byte) : World :=
  mk_world
    (StateManager.set_files (<["out.mp4.part" := left]> ∅)
       StateManager.empty_disk)
    0 0.

Definition fresh : World := mk_world StateManager.empty_disk 0 0.

(** C1 on the code. A transfer interrupted at offset 4 under validator v1
    is resumed after the resource changed to the 10 bytes ABCDEFGHIJ under
    v2. The code asks for the range from 4, sees the mismatch, truncates
    the partial file and writes the body of the range answer: the finished
    file holds the 6 bytes EFGHIJ, not the 10 bytes of the resource. *)
Theorem etag_mismatch_resume_is_incomplete :
  let resource := bytes_of "ABCDEFGHIJ" in
  let w := interrupted (bytes_of "abcd") "v1" in
  let out := download_stream (origin whole resource "v2") midnight noon noon
               (CircuitBreaker.default "download") "job"
               (stream_at "https://cdn.example/v") "out.mp4" "vid" w in
  StateManager.get_download_resume_info "job" "out.mp4" (disk w)
  = (4, Some "v1", None)
  /\ validated_offset (Some "v1") (Some "v2") 4 = 0
  /\ fst (fst out) = inr "out.mp4"
  /\ StateManager.files (disk (snd out)) !! "out.mp4" = Some (bytes_of "EFGHIJ")
  /\ StateManager.files (disk (snd out)) !! "out.mp4" <> Some resource
  /\ length resource = 10%nat.
Proof. vm_compute. repeat split. congruence. Qed.

Lemma resumed_other_status_fails_witness :
  _download_with_range (status_origin 503) midnight "https://cdn.example/v"
    "out.mp4.part" 4 (Some "v1") None "job" (interrupted (bytes_of "abcd") "v1")
  = (inl (py.Exception "Range request failed: 503"),
     mk_world (disk (interrupted (bytes_of "abcd") "v1")) 1 0).
Proof.
  refine (proj1 (resumed_other_status_fails (status_origin 503) midnight
                   noon noon "https://cdn.example/v" "out.mp4.part" 4
                   (Some "v1") None "job" (interrupted (bytes_of "abcd") "v1")
                   (mk_response 503 ∅ [] None) _ _ _ _)).
  - lia.
  - reflexivity.
  - cbn. lia.
  - cbn. lia.
Defined.

(** C2 on the code. A transfer interrupted at offset 4 is resumed against
    an origin that ignores the range and answers 200 with the whole 10-byte
    resource ABCDEFGHIJ, under the validator persisted for the job. The
    resumed attempt accepts the 200, opens the partial file in append mode
    and writes the whole body after the 4 bytes already there: nothing is
    raised, the breaker records a success, one request is made, and
    [download_stream] returns a finished file of 14 bytes that is not the
    resource. *)
Theorem resumed_200_is_appended :
  let resource := bytes_of "ABCDEFGHIJ" in
  let w := interrupted (bytes_of "abcd") "v1" in
  let attempt := _download_with_range (rangeless_origin resource "v1")
                   midnight "https://cdn.example/v" "out.mp4.part" 4
                   (Some "v1") None "job" w in
  let out := download_stream (rangeless_origin resource "v1") midnight noon
               noon (CircuitBreaker.default "download") "job"
               (stream_at "https://cdn.example/v") "out.mp4" "vid" w in
  StateManager.get_download_resume_info "job" "out.mp4" (disk w)
  = (4, Some "v1", None)
  /\ option_map status_code
       (match rangeless_origin resource "v1" 0%nat "https://cdn.example/v"
                (range_headers 4) with
        | inr resp => Some resp
        | inl _ => None
        end) = Some 200
  /\ fst attempt = inr tt
  /\ StateManager.files (disk (snd attempt)) !! "out.mp4.part"
     = Some (bytes_of "abcdABCDEFGHIJ")
  /\ fst (fst out) = inr "out.mp4"
  /\ snd (fst out)
     = CircuitBreaker.record_success (CircuitBreaker.default "download")
  /\ requests (snd out) = 1%nat
  /\ StateManager.files (disk (snd out)) !! "out.mp4"
     = Some (bytes_of "abcdABCDEFGHIJ")
  /\ StateManager.files (disk (snd out)) !! "out.mp4" <> Some resource
  /\ length resource = 10%nat.
Proof. vm_compute. repeat split. congruence. Qed.

(** C9 as stated fails. Across a retried attempt: the first attempt
    checkpoints 10 and 20 bytes and breaks, the retry starts again from the
    offset computed before the first attempt and checkpoints 10. Across a
    validator mismatch: 8 bytes were persisted, the restart from zero
    persists 2. *)
Lemma progress_drops_across_attempts :
  let resource := bytes_of "ABCDEFGHIJKLMNOPQRSTUVWXY" in
  let retried := download_stream (flaky_origin 23 resource "v1") midnight
                   noon noon (CircuitBreaker.default "download") "job"
                   (stream_at "https://cdn.example/v") "out.mp4" "vid" fresh in
  let restarted := download_stream
                     (origin whole (bytes_of "ABCDEFGHIJ") "v2") midnight
                     noon noon (CircuitBreaker.default "download") "job"
                     (stream_at "https://cdn.example/v") "out.mp4" "vid"
                     (interrupted (bytes_of "abcdefgh") "v1") in
  fst (fst retried) = inr "out.mp4"
  /\ StateManager.persisted_progress "job" (disk (snd retried))
     = [10; 20; 10; 20; 25]
  /\ ~ StronglySorted Z.le [10; 20; 10; 20; 25]
  /\ fst (fst restarted) = inr "out.mp4"
  /\ StateManager.persisted_progress "job" (disk (snd restarted)) = [8; 2]
  /\ ~ StronglySorted Z.le [8; 2].
Proof.
  cbv zeta. repeat split; try (vm_compute; reflexivity).
  - intros H. inversion H as [|? ? H1 _]; subst.
    inversion H1 as [|? ? _ Hf]; subst. inversion Hf; subst. lia.
  - intros H. inversion H as [|? ? _ Hf]; subst. inversion Hf; subst. lia.
Qed.

Lemma resume_info_without_state_is_fresh_witness :
  let run := _download_with_range
               (origin whole (bytes_of "ABCDEFGHIJ") "v2") midnight
               "https://cdn.example/v" "out.mp4.part" 0 None None "job"
               (orphaned (bytes_of "stale bytes")) in
  StateManager.get_download_resume_info "job" "out.mp4"
    (disk (orphaned (bytes_of "stale bytes"))) = (0, None, None)
  /\ StateManager.files (disk (snd run)) !! "out.mp4.part"
     = Some (concat [bytes_of "ABCDEFGHIJ"]).
Proof.
  pose proof (resume_info_without_state_is_fresh
                (origin whole (bytes_of "ABCDEFGHIJ") "v2") midnight
                "job" "out.mp4" (disk (orphaned (bytes_of "stale bytes")))
                eq_refl) as (Hinfo & _ & _ & Hfile).
  split; [exact Hinfo|].
  exact (Hfile "https://cdn.example/v" (orphaned (bytes_of "stale bytes"))
           (mk_response 200 {[ "ETag" := "v2" ]} [bytes_of "ABCDEFGHIJ"] None)
           _ eq_refl eq_refl).
Defined.

(** Seen from [download_stream], the answer without state is never asked
    for: a job record is saved before the resume information is read, so a
    partial file left behind by an unknown job is resumed from its size. *)
Remark download_stream_resumes_orphan :
  let out := download_stream
               (origin whole (bytes_of "ABCDEFGHIJKLMNOP") "v2") midnight
               noon noon (CircuitBreaker.default "download") "job"
               (stream_at "https://cdn.example/v") "out.mp4" "vid"
               (orphaned (bytes_of "stale bytes")) in
  fst (fst out) = inr "out.mp4"
  /\ StateManager.files (disk (snd out)) !! "out.mp4"
     = Some (bytes_of "stale bytesLMNOP").
Proof. cbv zeta. split; vm_compute; reflexivity. Qed.

(** *** The finalize step *)

(** What [_atomic_complete] does to the files. *)
Lemma _atomic_complete_renames (part_file final_file : string)
    (d : StateManager.disk) :
  part_file <> final_file ->
  (StateManager.files d !! part_file = None ->
     _atomic_complete part_file final_file d
     = inl (py.Exception (String.append "Part file not found: " part_file)))
  /\ (forall content,
        StateManager.files d !! part_file = Some content ->
        exists d',
          _atomic_complete part_file final_file d = inr (final_file, d')
          /\ StateManager.files d' !! final_file = Some content
          /\ StateManager.files d' !! part_file = None
          /\ (forall path, path <> part_file -> path <> final_file ->
                StateManager.files d' !! path = StateManager.files d !! path)
          /\ StateManager.jobs d' = StateManager.jobs d
          /\ StateManager.player_artifacts d' = StateManager.player_artifacts d
          /\ StateManager.journal d' = StateManager.journal d).
Proof.
  intros Hne. unfold _atomic_complete. split.
  - intros Hnone. rewrite Hnone. reflexivity.
  - intros content Hc. rewrite Hc. eexists. split; [reflexivity|].
    cbn. repeat split.
    + apply lookup_insert_eq.
    + rewrite lookup_insert_ne by congruence. apply lookup_delete_eq.
    + intros path Hp Hf.
      rewrite lookup_insert_ne, !lookup_delete_ne by congruence. reflexivity.
Qed.

(** X13. [_atomic_complete], for a partial path other than the target: with
    no partial file it raises "Part file not found" ; otherwise the target
    holds what the partial file held, whatever was at the target before,
    the partial path is gone, every other file and every record is as it
    was. *)
Theorem atomic_complete_moves (part_file final_file : string)
    (d : StateManager.disk) :
  part_file <> final_file ->
  (StateManager.files d !! part_file = None ->
     _atomic_complete part_file final_file d
     = inl (py.Exception (String.append "Part file not found: " part_file)))
  /\ (forall content,
        StateManager.files d !! part_file = Some content ->
        exists d',
          _atomic_complete part_file final_file d = inr (final_file, d')
          /\ StateManager.files d' !! final_file = Some content
          /\ StateManager.files d' !! part_file = None
          /\ (forall path, path <> part_file -> path <> final_file ->
                StateManager.files d' !! path = StateManager.files d !! path)
          /\ StateManager.jobs d' = StateManager.jobs d
          /\ StateManager.player_artifacts d' = StateManager.player_artifacts d
          /\ StateManager.journal d' = StateManager.journal d).
Proof. exact (_atomic_complete_renames part_file final_file d). Qed.

Lemma atomic_complete_moves_witness :
  exists d',
    _atomic_complete "out.mp4.part" "out.mp4"
      (disk (orphaned (bytes_of "new bytes"))) = inr ("out.mp4", d')
    /\ StateManager.files d' !! "out.mp4" = Some (bytes_of "new bytes").
Proof.
  destruct (proj2 (atomic_complete_moves "out.mp4.part" "out.mp4"
                     (disk (orphaned (bytes_of "new bytes")))
                     ltac:(discriminate))
              (bytes_of "new bytes") eq_refl) as (d' & H1 & H2 & _).
  exists d'. split; assumption.
Defined.

Section downloader_facts.
Variable http_get : nat -> string -> gmap string string -> py.exn + Response.
Variable utcnow : nat -> Q.
Variable gate_time fail_time : Z -> Q.

#[local] Abbreviation attempt := (_download_with_range http_get utcnow).
#[local] Abbreviation checkpoint_at := (checkpoint utcnow).
#[local] Abbreviation chunk_loop := (write_chunks utcnow).

(** What the chunk loop keeps, from what its two steps keep. *)
Lemma write_chunks_keeps (P : World -> Prop) part_file job_id current_etag
    last_modified content_length offset :
  (forall w chunk,
     P w -> P (mk_world (write_file part_file chunk (disk w))
                        (requests w) (utc_reads w))) ->
  (forall w bytes,
     P w -> P (checkpoint_at job_id bytes current_etag last_modified w)) ->
  forall chunks p,
    P (at_world p) ->
    P (at_world (snd (chunk_loop chunks part_file job_id current_etag
                        last_modified content_length offset p))).
Proof.
  intros Hwrite Hcheck. induction chunks as [|chunk rest IH]; intros p Hp.
  - exact Hp.
  - cbn [write_chunks]. destruct chunk as [|b chunk]; [apply IH, Hp|].
    destruct ((chunk_count p + 1) mod 10 =? 0).
    + destruct (py.truthy_int content_length && _).
      * cbn. apply Hcheck, Hwrite, Hp.
      * apply IH. cbn. apply Hcheck, Hwrite, Hp.
    + apply IH. cbn. apply Hwrite, Hp.
Qed.

(** What one attempt keeps, from what its steps keep. *)
Lemma attempt_keeps (P : World -> Prop) url part_file offset expected_etag
    expected_last_modified job_id :
  (forall w, P w -> P (mk_world (disk w) (S (requests w)) (utc_reads w))) ->
  (forall w mode,
     P w -> P (mk_world (open_file part_file mode (disk w))
                        (requests w) (utc_reads w))) ->
  (forall w chunk,
     P w -> P (mk_world (write_file part_file chunk (disk w))
                        (requests w) (utc_reads w))) ->
  (forall w bytes etag last_modified,
     P w -> P (checkpoint_at job_id bytes etag last_modified w)) ->
  forall w,
    P w ->
    P (snd (attempt url part_file offset expected_etag expected_last_modified
              job_id w)).
Proof.
  intros Hreq Hopen Hwrite Hcheck w Hw. unfold _download_with_range.
  destruct (http_get (requests w) url (range_headers offset)) as [e|resp];
    [apply Hreq, Hw|].
  destruct ((0 <? offset) && _); [apply Hreq, Hw|].
  destruct ((offset =? 0) && _); [apply Hreq, Hw|].
  destruct (int_if_present (headers resp !! "Content-Length"))
    as [e|content_length]; [apply Hreq, Hw|].
  set (offset1 := validated_offset _ _ offset).
  set (p0 := mk_progress _ offset1 0).
  assert (Hp0 : P (at_world p0)) by (apply (Hopen _ _ (Hreq w Hw))).
  pose proof (write_chunks_keeps P part_file job_id (headers resp !! "ETag")
                (headers resp !! "Last-Modified") content_length offset1
                Hwrite (fun w0 bytes => Hcheck w0 bytes _ _)
                (body resp) p0 Hp0) as Hloop.
  destruct (chunk_loop (body resp) part_file job_id (headers resp !! "ETag")
              (headers resp !! "Last-Modified") content_length offset1 p0)
    as [raised p].
  cbn [snd] in Hloop.
  destruct raised as [e|]; [exact Hloop|].
  destruct (body_error resp) as [e|]; [exact Hloop|].
  cbn [snd]. apply Hcheck, Hloop.
Qed.

Definition has_job (job_id : string) (w : World) : Prop :=
  is_Some (StateManager.jobs (disk w) !! job_id).

Lemma checkpoint_has_job k job_id bytes etag last_modified w :
  has_job k w -> has_job k (checkpoint_at job_id bytes etag last_modified w).
Proof.
  unfold has_job, checkpoint, StateManager.update_download_progress.
  cbn [disk].
  destruct (StateManager.load_extraction_state job_id (disk w)); [|auto].
  cbn. intros H. apply lookup_insert_is_Some.
  destruct (decide (ExtractionState.job_id
                      (ExtractionState.set_status "in_progress"
                         (if py.truthy_str last_modified
                          then ExtractionState.set_last_modified last_modified
                                 (if py.truthy_str etag
                                  then ExtractionState.set_etag etag
                                         (ExtractionState.set_progress bytes
                                            (utcnow (utc_reads w)) t)
                                  else ExtractionState.set_progress bytes
                                         (utcnow (utc_reads w)) t)
                          else if py.truthy_str etag
                               then ExtractionState.set_etag etag
                                      (ExtractionState.set_progress bytes
                                         (utcnow (utc_reads w)) t)
                               else ExtractionState.set_progress bytes
                                      (utcnow (utc_reads w)) t)) = k));
    auto.
Qed.

Lemma attempt_has_job k url part_file offset expected_etag
    expected_last_modified job_id w :
  has_job k w ->
  has_job k (snd (attempt url part_file offset expected_etag
                    expected_last_modified job_id w)).
Proof.
  apply (attempt_keeps (has_job k)); auto.
  - intros w0 mode H. unfold has_job, open_file in *. cbn.
    destruct (String.eqb mode "wb"); exact H.
  - intros. apply checkpoint_has_job. assumption.
Qed.

Lemma write_chunks_no_raise part_file job_id current_etag last_modified
    content_length offset chunks : forall p,
  py.truthy_int content_length && (default 0 content_length + offset =? 0)
  = false ->
  fst (chunk_loop chunks part_file job_id current_etag last_modified
         content_length offset p) = None.
Proof.
  intros p Hok. revert p.
  induction chunks as [|chunk rest IH]; intros p; [reflexivity|].
  cbn [write_chunks]. destruct chunk as [|b chunk]; [apply IH|].
  destruct ((chunk_count p + 1) mod 10 =? 0); [|apply IH].
  rewrite Hok. apply IH.
Qed.

(** What was in the partial file when the chunk loop starts. *)
Definition opened (offset : Z) (before : option (list Byte.byte))
    : list Byte.byte :=
  if 0 <? offset then default [] before else [].

Lemma open_file_content part_file offset d :
  StateManager.files (open_file part_file (open_mode offset) d) !! part_file
  = Some (opened offset (StateManager.files d !! part_file)).
Proof.
  unfold open_file, open_mode, opened. destruct (0 <? offset); cbn.
  - unfold write_file. cbn. rewrite lookup_insert_eq, app_nil_r. reflexivity.
  - apply lookup_insert_eq.
Qed.

(** An attempt whose answer is accepted, parses and comes through whole
    returns normally, with the body after what the file was opened on. *)
Lemma attempt_succeeds url part_file offset expected_etag
    expected_last_modified job_id w resp content_length :
  http_get (requests w) url (range_headers offset) = inr resp ->
  (0 <? offset) && negb ((status_code resp =? 200) || (status_code resp =? 206))
  = false ->
  (offset =? 0) && negb (status_code resp =? 200) = false ->
  int_if_present (headers resp !! "Content-Length") = inr content_length ->
  py.truthy_int content_length
  && (default 0 content_length
      + validated_offset expected_etag (headers resp !! "ETag") offset =? 0)
  = false ->
  body_error resp = None ->
  exists w',
    attempt url part_file offset expected_etag expected_last_modified job_id w
    = (inr tt, w')
    /\ StateManager.files (disk w') !! part_file
       = Some (opened (validated_offset expected_etag (headers resp !! "ETag")
                         offset)
                 (StateManager.files (disk w) !! part_file)
               ++ concat (body resp))
    /\ requests w' = S (requests w).
Proof.
  intros Hget Hresumed Hfresh Hlen Hdiv Hbody.
  unfold _download_with_range. rewrite Hget, Hresumed, Hfresh, Hlen.
  set (offset1 := validated_offset _ _ offset) in *.
  set (p0 := mk_progress _ offset1 0).
  pose proof (write_chunks_no_raise part_file job_id (headers resp !! "ETag")
                (headers resp !! "Last-Modified") content_length offset1
                (body resp) p0 Hdiv) as Hnone.
  pose proof (write_chunks_keeps (fun w0 => requests w0 = S (requests w))
                part_file job_id (headers resp !! "ETag")
                (headers resp !! "Last-Modified") content_length offset1
                ltac:(intros; assumption)
                ltac:(intros; assumption)
                (body resp) p0 eq_refl) as Hreq.
  destruct (chunk_loop (body resp) part_file job_id (headers resp !! "ETag")
              (headers resp !! "Last-Modified") content_length offset1 p0)
    as [raised p] eqn:Hrun.
  cbn [fst snd] in Hnone, Hreq. subst raised. rewrite Hbody.
  eexists. split; [reflexivity|]. split; [|exact Hreq].
  rewrite checkpoint_files.
  eapply write_chunks_files; [|exact Hrun].
  unfold p0. cbn [at_world disk]. apply open_file_content.
Qed.

End downloader_facts.

(** *** Whole transfers *)

Section transfers.
Variable http_get : nat -> string -> gmap string string -> py.exn + Response.
Variable utcnow : nat -> Q.
Variable gate_time fail_time : Z -> Q.

#[local] Abbreviation attempt := (_download_with_range http_get utcnow).
#[local] Abbreviation transfer :=
  (download_stream http_get utcnow gate_time fail_time).

(** The first step of [download_stream]: the record loaded, or created and
    saved. *)
Definition prepare (job_id : string) (stream : StreamFormat.t)
    (target_filename video_id : string) (w : World)
    : ExtractionState.t * World :=
  match StateManager.load_extraction_state job_id (disk w) with
  | Some state => (state, w)
  | None =>
      let state := ExtractionState.create video_id job_id "current"
                     target_filename (StreamFormat.content_length stream)
                     (utcnow (utc_reads w)) in
      (state, mk_world (StateManager.save_extraction_state state (disk w))
                       (requests w) (S (utc_reads w)))
  end.

Lemma prepare_facts job_id stream target_filename video_id w :
  let '(state, w1) := prepare job_id stream target_filename video_id w in
  StateManager.load_extraction_state job_id (disk w1) = Some state
  /\ StateManager.files (disk w1) = StateManager.files (disk w)
  /\ requests w1 = requests w
  /\ (StateManager.load_extraction_state job_id (disk w) = None ->
        ExtractionState.etag state = None
        /\ ExtractionState.last_modified state = None
        /\ ExtractionState.bytes_completed state = 0)
  /\ (forall state0,
        StateManager.load_extraction_state job_id (disk w) = Some state0 ->
        state = state0 /\ w1 = w).
Proof.
  unfold prepare.
  destruct (StateManager.load_extraction_state job_id (disk w)) as [state|]
    eqn:Hload.
  - repeat split; auto; try congruence; intros ? H; inversion H; auto.
  - cbn. unfold StateManager.load_extraction_state. cbn.
    rewrite lookup_insert_eq. repeat split; auto; discriminate.
Qed.

Definition missing_url_error : py.exn :=
  py.Exception "Stream URL not available (cipher not decrypted)".

(** X14. When the stream has no URL ([None] or empty), [download_stream]
    raises "Stream URL not available" without making a request or touching
    the breaker or any file; the job record it loaded or just created is on
    disk. *)
Theorem missing_url_fails_before_any_request (cb : CircuitBreaker.t)
    (job_id : string) (stream : StreamFormat.t)
    (target_filename video_id : string) (w : World) :
  py.truthy_str (StreamFormat.url stream) = false ->
  let out := transfer cb job_id stream target_filename video_id w in
  fst (fst out) = inl missing_url_error
  /\ snd (fst out) = cb
  /\ requests (snd out) = requests w
  /\ StateManager.files (disk (snd out)) = StateManager.files (disk w)
  /\ has_job job_id (snd out)
  /\ (forall state,
        StateManager.load_extraction_state job_id (disk w) = Some state ->
        snd out = w).
Proof.
  intros Hurl. cbv zeta. unfold download_stream.
  fold (prepare job_id stream target_filename video_id w).
  pose proof (prepare_facts job_id stream target_filename video_id w) as Hp.
  destruct (prepare job_id stream target_filename video_id w) as [state w1].
  destruct Hp as (Hload & Hfiles & Hreq & _ & Hsame).
  destruct (StateManager.get_download_resume_info job_id target_filename
              (disk w1)) as [[offset etag] last_modified].
  rewrite Hurl. cbn. repeat split; auto.
  - unfold has_job. unfold StateManager.load_extraction_state in Hload.
    rewrite Hload. eauto.
  - intros state0 H0. apply (Hsame state0 H0).
Qed.

Lemma part_ne_target target_filename :
  String.append target_filename IYEConfig.DOWNLOAD_TEMP_SUFFIX
  <> target_filename.
Proof. apply py.append_suffix_ne. discriminate. Qed.

(** X15. Whenever [download_stream] returns a path, it is the target path:
    the target file exists, the partial file and the job record are gone,
    and the last snapshot written for the job had status completed and the
    size of the finished file as its byte count. *)
Theorem completed_transfer_leaves (cb : CircuitBreaker.t) (job_id : string)
    (stream : StreamFormat.t) (target_filename video_id : string) (w : World)
    (path : string) :
  let out := transfer cb job_id stream target_filename video_id w in
  fst (fst out) = inr path ->
  path = target_filename
  /\ StateManager.files (disk (snd out))
       !! String.append target_filename IYEConfig.DOWNLOAD_TEMP_SUFFIX = None
  /\ StateManager.load_extraction_state job_id (disk (snd out)) = None
  /\ exists content completed,
       StateManager.files (disk (snd out)) !! target_filename = Some content
       /\ last (StateManager.journal (disk (snd out))) = Some completed
       /\ ExtractionState.status completed = "completed"
       /\ ExtractionState.bytes_completed completed
          = Z.of_nat (length content).
Proof.
  cbv zeta. unfold download_stream.
  fold (prepare job_id stream target_filename video_id w).
  destruct (prepare job_id stream target_filename video_id w) as [state w1].
  destruct (StateManager.get_download_resume_info job_id target_filename
              (disk w1)) as [[offset etag] last_modified].
  destruct (negb (py.truthy_str (StreamFormat.url stream)));
    [cbn; discriminate|].
  set (r := RetryPolicy.with_retry _ _ _ _ _ _ _).
  destruct (RetryPolicy.result r) as [e|v]; [cbn; discriminate|].
  pose proof (part_ne_target target_filename) as Hne.
  destruct (StateManager.files (disk (RetryPolicy.world r))
              !! String.append target_filename IYEConfig.DOWNLOAD_TEMP_SUFFIX)
    as [content|] eqn:Hpart.
  - destruct (proj2 (_atomic_complete_renames _ _ _ Hne) content Hpart)
      as (d' & Hac & Hfinal & Hgone & _).
    rewrite Hac. cbn [fst snd disk]. intros H. inversion H; subst path.
    split; [reflexivity|]. split; [exact Hgone|].
    split; [cbn; apply lookup_delete_eq|].
    eexists content, _. cbn [StateManager.files StateManager.journal
      StateManager.delete_extraction_state StateManager.save_extraction_state].
    split; [exact Hfinal|]. split; [apply last_snoc|].
    rewrite Hfinal. split; reflexivity.
  - rewrite (proj1 (_atomic_complete_renames _ _ _ Hne) Hpart).
    cbn. discriminate.
Qed.

(** X16. Whenever [download_stream] raises, whatever the cause, the job
    record is still on disk for a later resume. *)
Theorem failed_transfer_keeps_job (cb : CircuitBreaker.t) (job_id : string)
    (stream : StreamFormat.t) (target_filename video_id : string) (w : World)
    (e : py.exn) :
  let out := transfer cb job_id stream target_filename video_id w in
  fst (fst out) = inl e ->
  has_job job_id (snd out).
Proof.
  cbv zeta. unfold download_stream.
  fold (prepare job_id stream target_filename video_id w).
  pose proof (prepare_facts job_id stream target_filename video_id w) as Hp.
  destruct (prepare job_id stream target_filename video_id w) as [state w1].
  destruct Hp as (Hload & _).
  assert (Hjob : has_job job_id w1).
  { unfold has_job. unfold StateManager.load_extraction_state in Hload.
    rewrite Hload. eauto. }
  destruct (StateManager.get_download_resume_info job_id target_filename
              (disk w1)) as [[offset etag] last_modified].
  destruct (negb (py.truthy_str (StreamFormat.url stream)));
    [cbn; intros _; exact Hjob|].
  set (r := RetryPolicy.with_retry _ _ _ _ _ _ _).
  assert (Hr : has_job job_id (RetryPolicy.world r)).
  { unfold r. apply RetryPolicy.with_retry_preserves; [|exact Hjob].
    intros w0. apply attempt_has_job. }
  destruct (RetryPolicy.result r) as [e0|v]; [cbn; intros _; exact Hr|].
  destruct (_atomic_complete _ target_filename (disk (RetryPolicy.world r)))
    as [e0|[final_path d3]]; [cbn; intros _; exact Hr|].
  cbn. discriminate.
Qed.

Lemma status_error_is_terminal (resumed : bool) (status : Z) :
  RetryPolicy.is_retryable_error
    (py.Exception
       (String.append
          (if resumed then "Range request failed: "
           else "Download request failed: ")
          (py.str_of_int status)))
    None = false.
Proof.
  unfold RetryPolicy.is_retryable_error, RetryPolicy.matches_transient,
    RetryPolicy.RETRYABLE_ERRORS.
  cbn [py.msg py.Exception existsb].
  rewrite py.lower_append, (py.lower_numeric _ (py.str_of_int_numeric status)).
  rewrite !py.contains_append_numeric
    by (reflexivity || apply py.str_of_int_numeric).
  destruct resumed; reflexivity.
Qed.

(** X17. A transfer that starts from nothing, behind a closed breaker: when
    the first answer is 200, its length header parses and its body comes
    through, [download_stream] returns the target path after one request,
    the target file holds exactly the body, and the success is recorded on
    the breaker. *)
Theorem fresh_transfer_completes (cb : CircuitBreaker.t) (job_id : string)
    (stream : StreamFormat.t) (target_filename video_id : string) (w : World)
    (url : string) (resp : Response) (content_length : option Z) :
  CircuitBreaker.state cb = CircuitBreaker.CLOSED ->
  StateManager.load_extraction_state job_id (disk w) = None ->
  StateManager.files (disk w)
    !! String.append target_filename IYEConfig.DOWNLOAD_TEMP_SUFFIX = None ->
  StreamFormat.url stream = Some url ->
  url <> "" ->
  http_get (requests w) url ∅ = inr resp ->
  status_code resp = 200 ->
  int_if_present (headers resp !! "Content-Length") = inr content_length ->
  body_error resp = None ->
  let out := transfer cb job_id stream target_filename video_id w in
  fst (fst out) = inr target_filename
  /\ snd (fst out) = CircuitBreaker.record_success cb
  /\ StateManager.files (disk (snd out)) !! target_filename
     = Some (concat (body resp))
  /\ requests (snd out) = S (requests w).
Proof.
  intros Hclosed Hnone Hpart Hurl Hne Hget Hstatus Hlen Hbody. cbv zeta.
  unfold download_stream.
  fold (prepare job_id stream target_filename video_id w).
  pose proof (prepare_facts job_id stream target_filename video_id w) as Hp.
  destruct (prepare job_id stream target_filename video_id w) as [state w1].
  destruct Hp as (Hload & Hfiles & Hreq & Hnew & _).
  destruct (Hnew Hnone) as (Hetag & Hlm & _).
  unfold StateManager.get_download_resume_info.
  rewrite Hload, Hfiles, Hpart, Hetag, Hlm, Hurl.
  assert (Htruthy : py.truthy_str (Some url) = true).
  { cbn. destruct (String.eqb_spec url ""); [contradiction|reflexivity]. }
  rewrite Htruthy. cbn [negb default].
  destruct (attempt_succeeds http_get utcnow url
              (String.append target_filename IYEConfig.DOWNLOAD_TEMP_SUFFIX)
              0 None None job_id w1 resp content_length)
    as (w2 & Hrun & Hfile & Hreq2); auto.
  { rewrite Hreq. exact Hget. }
  { rewrite Hstatus. reflexivity. }
  { unfold validated_offset. cbn [py.truthy_str andb].
    destruct content_length as [n|]; [|reflexivity]. cbn.
    rewrite Z.add_0_r. destruct (n =? 0); reflexivity. }
  rewrite (RetryPolicy.with_retry_first_success _ _ _ _
             IYEConfig.MAX_RETRIES cb w1 tt w2
             ltac:(unfold IYEConfig.MAX_RETRIES; lia) Hclosed Hrun).
  cbn [RetryPolicy.result RetryPolicy.breaker RetryPolicy.world default].
  unfold validated_offset in Hfile. cbn [py.truthy_str andb] in Hfile.
  unfold opened in Hfile. cbn in Hfile.
  destruct (proj2 (_atomic_complete_renames _ _ (disk w2)
                     (part_ne_target target_filename)) _ Hfile)
    as (d' & Hac & Hfinal & _).
  rewrite Hac. cbn. repeat split; auto. congruence.
Qed.

(** X18. A transfer resumed behind a closed breaker from a partial file at
    least as long as the persisted byte count: the request carries the
    range from the size of the partial file; when the answer is 206 under
    the validator persisted for the job, its length header parses and is
    not negative and its body comes through, [download_stream] returns the
    target path and the target file holds the partial bytes followed by
    the body. *)
Theorem resumed_transfer_appends (cb : CircuitBreaker.t) (job_id : string)
    (stream : StreamFormat.t) (target_filename video_id : string) (w : World)
    (state : ExtractionState.t) (partial : list Byte.byte)
    (url : string) (resp : Response) (content_length : option Z) :
  CircuitBreaker.state cb = CircuitBreaker.CLOSED ->
  StateManager.load_extraction_state job_id (disk w) = Some state ->
  StateManager.files (disk w)
    !! String.append target_filename IYEConfig.DOWNLOAD_TEMP_SUFFIX
  = Some partial ->
  partial <> [] ->
  ExtractionState.bytes_completed state <= Z.of_nat (length partial) ->
  StreamFormat.url stream = Some url ->
  url <> "" ->
  http_get (requests w) url (range_headers (Z.of_nat (length partial)))
  = inr resp ->
  status_code resp = 206 ->
  headers resp !! "ETag" = ExtractionState.etag state ->
  int_if_present (headers resp !! "Content-Length") = inr content_length ->
  (forall n, content_length = Some n -> 0 <= n) ->
  body_error resp = None ->
  let out := transfer cb job_id stream target_filename video_id w in
  fst (fst out) = inr target_filename
  /\ StateManager.files (disk (snd out)) !! target_filename
     = Some (partial ++ concat (body resp))
  /\ requests (snd out) = S (requests w).
Proof.
  intros Hclosed Hstate Hpart Hnonempty Hbytes Hurl Hne Hget Hstatus Hetag
    Hlen Hpos Hbody. cbv zeta.
  assert (Hsize : 0 < Z.of_nat (length partial)).
  { destruct partial; [congruence|cbn; lia]. }
  unfold download_stream.
  fold (prepare job_id stream target_filename video_id w).
  pose proof (prepare_facts job_id stream target_filename video_id w) as Hp.
  destruct (prepare job_id stream target_filename video_id w) as [state1 w1].
  destruct Hp as (_ & _ & _ & _ & Hsame).
  destruct (Hsame state Hstate) as [-> ->].
  unfold StateManager.get_download_resume_info.
  rewrite Hstate, Hpart, Hurl, Z.max_l by lia.
  assert (Htruthy : py.truthy_str (Some url) = true).
  { cbn. destruct (String.eqb_spec url ""); [contradiction|reflexivity]. }
  rewrite Htruthy. cbn [negb default].
  assert (Hsame_offset :
            validated_offset (ExtractionState.etag state)
              (headers resp !! "ETag") (Z.of_nat (length partial))
            = Z.of_nat (length partial)).
  { unfold validated_offset. rewrite Hetag.
    rewrite bool_decide_eq_true_2 by reflexivity.
    rewrite andb_false_r. reflexivity. }
  destruct (attempt_succeeds http_get utcnow url
              (String.append target_filename IYEConfig.DOWNLOAD_TEMP_SUFFIX)
              (Z.of_nat (length partial)) (ExtractionState.etag state)
              (ExtractionState.last_modified state) job_id w resp
              content_length)
    as (w2 & Hrun & Hfile & Hreq2); auto.
  { rewrite Hstatus. cbn. apply andb_false_r. }
  { destruct (Z.eqb_spec (Z.of_nat (length partial)) 0); [lia|reflexivity]. }
  { rewrite Hsame_offset. destruct content_length as [n|]; [|reflexivity].
    specialize (Hpos n eq_refl). change (default 0 (Some n)) with n.
    destruct (Z.eqb_spec (n + Z.of_nat (length partial)) 0); [lia|].
    apply andb_false_r. }
  rewrite (RetryPolicy.with_retry_first_success _ _ _ _
             IYEConfig.MAX_RETRIES cb w tt w2
             ltac:(unfold IYEConfig.MAX_RETRIES; lia) Hclosed Hrun).
  cbn [RetryPolicy.result RetryPolicy.breaker RetryPolicy.world default].
  rewrite Hsame_offset, Hpart in Hfile. unfold opened in Hfile.
  destruct (Z.ltb_spec 0 (Z.of_nat (length partial))); [|lia].
  cbn [default] in Hfile.
  destruct (proj2 (_atomic_complete_renames _ _ (disk w2)
                     (part_ne_target target_filename)) _ Hfile)
    as (d' & Hac & Hfinal & _).
  rewrite Hac. cbn. repeat split; auto.
Qed.

(** X19. A status the attempt refuses is never retried, 5xx and 429
    included: the error it raises carries no status code and no transient
    word, so [with_retry], behind a closed breaker, calls the attempt once,
    records the failure and raises. Nothing is written. *)
Theorem refused_status_is_not_retried (cb : CircuitBreaker.t)
    (url part_file : string) (offset : Z)
    (expected_etag expected_last_modified : option string)
    (job_id operation_name : string) (w : World) (resp : Response) :
  CircuitBreaker.state cb = CircuitBreaker.CLOSED ->
  0 <= offset ->
  http_get (requests w) url (range_headers offset) = inr resp ->
  status_code resp <> 200 ->
  (0 < offset -> status_code resp <> 206) ->
  let e := py.Exception
             (String.append
                (if 0 <? offset then "Range request failed: "
                 else "Download request failed: ")
                (py.str_of_int (status_code resp))) in
  RetryPolicy.with_retry
    (attempt url part_file offset expected_etag expected_last_modified job_id)
    gate_time fail_time operation_name IYEConfig.MAX_RETRIES (Some cb) w
  = RetryPolicy.mk_run (inl e)
      (Some (CircuitBreaker.record_failure (fail_time 0) cb))
      (mk_world (disk w) (S (requests w)) (utc_reads w))
      [RetryPolicy.Invoked 0 (Some e); RetryPolicy.BreakerFailure;
       RetryPolicy.Raised e].
Proof.
  intros Hclosed Hoff Hget H200 H206 e.
  apply RetryPolicy.with_retry_first_terminal;
    [unfold IYEConfig.MAX_RETRIES; lia|exact Hclosed|
     |apply status_error_is_terminal].
  unfold _download_with_range. rewrite Hget. unfold e.
  destruct (Z.eqb_spec (status_code resp) 200); [contradiction|].
  destruct (Z.ltb_spec 0 offset).
  - destruct (Z.eqb_spec (status_code resp) 206); [apply H206 in e0; [contradiction|lia]|].
    reflexivity.
  - assert (offset = 0) by lia. subst offset. reflexivity.
Qed.

End transfers.

Lemma missing_url_fails_before_any_request_witness :
  fst (fst (download_stream (status_origin 200) midnight noon noon
              (CircuitBreaker.default "download") "job"
              (StreamFormat.mk 18 None "video/mp4" 500000 None None
                 (Some "s=abc&url=x") None None None)
              "out.mp4" "vid" fresh))
  = inl missing_url_error.
Proof.
  apply (missing_url_fails_before_any_request (status_origin 200) midnight
           noon noon (CircuitBreaker.default "download") "job"
           (StreamFormat.mk 18 None "video/mp4" 500000 None None
              (Some "s=abc&url=x") None None None)
           "out.mp4" "vid" fresh).
  reflexivity.
Defined.

Lemma completed_transfer_leaves_witness :
  StateManager.load_extraction_state "job"
    (disk (snd (download_stream (origin whole (bytes_of "ABCDEFGHIJ") "v2")
                  midnight noon noon (CircuitBreaker.default "download")
                  "job" (stream_at "https://cdn.example/v") "out.mp4" "vid"
                  fresh))) = None.
Proof.
  refine (proj1 (proj2 (proj2
    (completed_transfer_leaves (origin whole (bytes_of "ABCDEFGHIJ") "v2")
       midnight noon noon (CircuitBreaker.default "download") "job"
       (stream_at "https://cdn.example/v") "out.mp4" "vid" fresh "out.mp4"
       _)))).
  vm_compute. reflexivity.
Defined.

Lemma failed_transfer_keeps_job_witness :
  has_job "job"
    (snd (download_stream (status_origin 503) midnight noon noon
            (CircuitBreaker.default "download") "job"
            (stream_at "https://cdn.example/v") "out.mp4" "vid" fresh)).
Proof.
  refine (failed_transfer_keeps_job (status_origin 503) midnight noon noon
            (CircuitBreaker.default "download") "job"
            (stream_at "https://cdn.example/v") "out.mp4" "vid" fresh
            (py.Exception "Download request failed: 503") _).
  vm_compute. reflexivity.
Defined.

Lemma fresh_transfer_completes_witness :
  StateManager.files
    (disk (snd (download_stream (origin whole (bytes_of "ABCDEFGHIJ") "v2")
                  midnight noon noon (CircuitBreaker.default "download")
                  "job" (stream_at "https://cdn.example/v") "out.mp4" "vid"
                  fresh))) !! "out.mp4"
  = Some (concat [bytes_of "ABCDEFGHIJ"]).
Proof.
  refine (proj1 (proj2 (proj2
    (fresh_transfer_completes (origin whole (bytes_of "ABCDEFGHIJ") "v2")
       midnight noon noon (CircuitBreaker.default "download") "job"
       (stream_at "https://cdn.example/v") "out.mp4" "vid" fresh
       "https://cdn.example/v"
       (mk_response 200 {[ "ETag" := "v2" ]} [bytes_of "ABCDEFGHIJ"] None)
       None _ _ _ _ _ _ _ _ _))));
    try reflexivity.
  discriminate.
Defined.

Lemma resumed_transfer_appends_witness :
  StateManager.files
    (disk (snd (download_stream (origin whole (bytes_of "abcdEFGHIJ") "v1")
                  midnight noon noon (CircuitBreaker.default "download")
                  "job" (stream_at "https://cdn.example/v") "out.mp4" "vid"
                  (interrupted (bytes_of "abcd") "v1")))) !! "out.mp4"
  = Some (bytes_of "abcd" ++ concat [bytes_of "EFGHIJ"]).
Proof.
  refine (proj1 (proj2
    (resumed_transfer_appends (origin whole (bytes_of "abcdEFGHIJ") "v1")
       midnight noon noon (CircuitBreaker.default "download") "job"
       (stream_at "https://cdn.example/v") "out.mp4" "vid"
       (interrupted (bytes_of "abcd") "v1")
       (interrupted_job (bytes_of "abcd") "v1") (bytes_of "abcd")
       "https://cdn.example/v"
       (mk_response 206 {[ "ETag" := "v1" ]} [bytes_of "EFGHIJ"] None)
       None _ _ _ _ _ _ _ _ _ _ _ _ _)));
    try reflexivity.
  - discriminate.
  - discriminate.
  - intros n H. discriminate H.
Defined.

Lemma refused_status_is_not_retried_witness :
  RetryPolicy.calls
    (RetryPolicy.with_retry
       (_download_with_range (status_origin 503) midnight
          "https://cdn.example/v" "out.mp4.part" 0 None None "job")
       noon noon "download_vid" IYEConfig.MAX_RETRIES
       (Some (CircuitBreaker.default "download")) fresh) = 1%nat.
Proof.
  rewrite (refused_status_is_not_retried (status_origin 503) midnight noon
             noon (CircuitBreaker.default "download")
             "https://cdn.example/v" "out.mp4.part" 0 None None "job"
             "download_vid" fresh (mk_response 503 ∅ [] None)).
  - reflexivity.
  - reflexivity.
  - lia.
  - reflexivity.
  - cbn. lia.
  - cbn. lia.
Defined.

(** *** Choosing the stream *)

(** [s.mime_type and "video" in s.mime_type]. *)
Definition is_video_stream (s : StreamFormat.t) : bool :=
  negb (String.eqb (StreamFormat.mime_type s) "")
  && py.contains "video" (StreamFormat.mime_type s).

(** [prefer_codec.lower() in s.mime_type.lower()]. *)
Definition has_codec (prefer_codec : string) (s : StreamFormat.t) : bool :=
  py.contains (py.lower prefer_codec) (py.lower (StreamFormat.mime_type s)).

(** The key of the [max]: [(s.height or 0, s.bitrate)]. *)
Definition quality_key (s : StreamFormat.t) : Z * Z :=
  (match StreamFormat.height s with
   | Some h => if h =? 0 then 0 else h
   | None => 0
   end,
   StreamFormat.bitrate s).

(** [a < b] on such tuples. *)
Definition key_lt (a b : Z * Z) : bool :=
  (fst a <? fst b) || ((fst a =? fst b) && (snd a <? snd b)).

(** [max(streams, key=...)]: the first of the greatest. *)
Fixpoint max_from (best : StreamFormat.t) (rest : list StreamFormat.t)
    : StreamFormat.t :=
  match rest with
  | [] => best
  | s :: r =>
      if key_lt (quality_key best) (quality_key s) then max_from s r
      else max_from best r
  end.

(** The streams the [max] is taken over: the video streams, narrowed to the
    preferred codec when one is asked for and some stream has it. *)
Definition candidates (streams : list StreamFormat.t)
    (prefer_codec : option string) : list StreamFormat.t :=
  let video_streams := List.filter is_video_stream streams in
  if py.truthy_str prefer_codec then
    match List.filter (has_codec (default "" prefer_codec)) video_streams with
    | [] => video_streams
    | preferred => preferred
    end
  else video_streams.

(** [os.path.join(a, b)] on a POSIX system. *)
Definition endswith_slash (a : string) : bool :=
  match String.get (String.length a - 1) a with
  | Some c => Ascii.eqb c "/"
  | None => false
  end.

Definition os_path_join (a b : string) : string :=
  if py.startswith "/" b then b
  else if String.eqb a "" || endswith_slash a then String.append a b
  else String.append a (String.append "/" b).

Definition target_name (best : StreamFormat.t) (video_id output_dir : string)
    : string :=
  let quality :=
    if py.truthy_int (StreamFormat.height best)
    then String.append (py.str_of_int (default 0 (StreamFormat.height best))) "p"
    else "unknown" in
  let codec :=
    if py.contains "vp9" (StreamFormat.mime_type best) then "vp9" else "h264" in
  os_path_join output_dir
    (String.append video_id
       (String.append "_"
          (String.append quality
             (String.append "_" (String.append codec ".mp4"))))).

Section best_quality.
Variable http_get : nat -> string -> gmap string string -> py.exn + Response.
Variable utcnow : nat -> Q.
Variable gate_time fail_time : Z -> Q.

Definition download_best_quality (cb : CircuitBreaker.t) (job_id : string)
    (streams : list StreamFormat.t) (video_id output_dir : string)
    (prefer_codec : option string) (w : World)
    : (py.exn + string) * CircuitBreaker.t * World :=
  match List.filter is_video_stream streams with
  | [] => (inl (py.Exception "No video streams found"), cb, w)
  | _ :: _ =>
      match candidates streams prefer_codec with
      | [] => (inl (py.Exception "max() arg is an empty sequence"), cb, w)
      | first :: rest =>
          let best_stream := max_from first rest in
          download_stream http_get utcnow gate_time fail_time cb job_id
            best_stream (target_name best_stream video_id output_dir)
            video_id w
      end
  end.

End best_quality.

Lemma key_lt_iff a b :
  key_lt a b = true
  <-> fst a < fst b \/ (fst a = fst b /\ snd a < snd b).
Proof.
  unfold key_lt.
  rewrite orb_true_iff, andb_true_iff, !Z.ltb_lt, Z.eqb_eq. tauto.
Qed.

Lemma max_from_greatest rest : forall best,
  In (max_from best rest) (best :: rest)
  /\ forall s, In s (best :: rest) ->
       key_lt (quality_key (max_from best rest)) (quality_key s) = false.
Proof.
  induction rest as [|x rest IH]; intros best; cbn [max_from].
  - split; [left; reflexivity|]. intros s [<-|[]].
    destruct (key_lt _ _) eqn:E; [|reflexivity].
    apply key_lt_iff in E. lia.
  - destruct (key_lt (quality_key best) (quality_key x)) eqn:E.
    + destruct (IH x) as [Hin Hmax]. split.
      * right. exact Hin.
      * intros s [<-|Hs]; [|apply Hmax, Hs].
        specialize (Hmax x (or_introl eq_refl)).
        destruct (key_lt (quality_key (max_from x rest)) (quality_key best))
          eqn:E2; [|reflexivity].
        apply key_lt_iff in E, E2.
        assert (Hn : ~ (fst (quality_key (max_from x rest)) < fst (quality_key x)
                        \/ fst (quality_key (max_from x rest))
                           = fst (quality_key x)
                           /\ snd (quality_key (max_from x rest))
                              < snd (quality_key x))).
        { rewrite <- key_lt_iff. congruence. }
        lia.
    + destruct (IH best) as [Hin Hmax]. split.
      * destruct Hin as [H|H]; [left; exact H|right; right; exact H].
      * intros s [<-|[<-|Hs]].
        -- apply Hmax. left; reflexivity.
        -- specialize (Hmax best (or_introl eq_refl)).
           destruct (key_lt (quality_key (max_from best rest))
                       (quality_key x)) eqn:E2; [|reflexivity].
           apply key_lt_iff in E2.
           assert (Hn1 : ~ (fst (quality_key best) < fst (quality_key x)
                            \/ fst (quality_key best) = fst (quality_key x)
                               /\ snd (quality_key best)
                                  < snd (quality_key x))).
           { rewrite <- key_lt_iff. congruence. }
           assert (Hn2 : ~ (fst (quality_key (max_from best rest))
                            < fst (quality_key best)
                            \/ fst (quality_key (max_from best rest))
                               = fst (quality_key best)
                               /\ snd (quality_key (max_from best rest))
                                  < snd (quality_key best))).
           { rewrite <- key_lt_iff. congruence. }
           lia.
        -- apply Hmax. right; exact Hs.
Qed.

Lemma candidates_video streams prefer_codec s :
  In s (candidates streams prefer_codec) ->
  In s streams /\ is_video_stream s = true.
Proof.
  unfold candidates. intros H.
  assert (Hv : In s (List.filter is_video_stream streams)).
  { destruct (py.truthy_str prefer_codec); [|exact H].
    destruct (List.filter (has_codec _) _) eqn:E; [exact H|].
    rewrite <- E in H. apply List.filter_In in H. apply H. }
  apply List.filter_In in Hv. exact Hv.
Qed.

(** X20. [download_best_quality] raises "No video streams found", with no
    effect, exactly when no stream has "video" in its MIME type. Otherwise
    it hands to [download_stream] a video stream of the list that no
    candidate beats on (height, bitrate), the candidates being the video
    streams with the preferred codec when some have it, all the video
    streams otherwise. *)
Theorem best_quality_is_greatest
    (http_get : nat -> string -> gmap string string -> py.exn + Response)
    (utcnow : nat -> Q) (gate_time fail_time : Z -> Q)
    (cb : CircuitBreaker.t) (job_id : string) (streams : list StreamFormat.t)
    (video_id output_dir : string) (prefer_codec : option string) (w : World) :
  let out := download_best_quality http_get utcnow gate_time fail_time cb
               job_id streams video_id output_dir prefer_codec w in
  ((forall s, In s streams -> is_video_stream s = false) ->
     out = (inl (py.Exception "No video streams found"), cb, w))
  /\ ((exists s, In s streams /\ is_video_stream s = true) ->
        exists best,
          In best streams
          /\ is_video_stream best = true
          /\ In best (candidates streams prefer_codec)
          /\ (forall s, In s (candidates streams prefer_codec) ->
                key_lt (quality_key best) (quality_key s) = false)
          /\ (py.truthy_str prefer_codec = true ->
              (exists s, In s streams /\ is_video_stream s = true
                         /\ has_codec (default "" prefer_codec) s = true) ->
              has_codec (default "" prefer_codec) best = true)
          /\ out = download_stream http_get utcnow gate_time fail_time cb
                     job_id best (target_name best video_id output_dir)
                     video_id w).
Proof.
  cbv zeta. unfold download_best_quality. split.
  - intros Hnone.
    assert (Hf : List.filter is_video_stream streams = []).
    { induction streams as [|s r IH]; [reflexivity|]. cbn.
      rewrite (Hnone s (or_introl eq_refl)). apply IH.
      intros s' Hs'. apply Hnone. right; exact Hs'. }
    rewrite Hf. reflexivity.
  - intros (s0 & Hin0 & Hv0).
    assert (Hvid : In s0 (List.filter is_video_stream streams)).
    { apply List.filter_In. auto. }
    destruct (List.filter is_video_stream streams) as [|v vs] eqn:Hf;
      [destruct Hvid|].
    assert (Hcand : candidates streams prefer_codec <> []).
    { unfold candidates. rewrite Hf.
      destruct (py.truthy_str prefer_codec); [|discriminate].
      destruct (List.filter _ (v :: vs)); discriminate. }
    destruct (candidates streams prefer_codec) as [|first rest] eqn:Hc;
      [congruence|].
    destruct (max_from_greatest rest first) as [Hin Hmax].
    exists (max_from first rest).
    assert (Hbest : In (max_from first rest)
                      (candidates streams prefer_codec)).
    { rewrite Hc. exact Hin. }
    destruct (candidates_video _ _ _ Hbest) as [Hs Hv].
    repeat split; auto.
    intros Hprefer (s1 & Hin1 & Hv1 & Hcodec1).
    {
      unfold candidates in Hbest. rewrite Hprefer in Hbest.
      destruct (List.filter (has_codec (default "" prefer_codec))
                  (List.filter is_video_stream streams)) as [|p ps] eqn:Hp.
      * exfalso.
        assert (H1 : In s1 (List.filter (has_codec (default "" prefer_codec))
                        (List.filter is_video_stream streams))).
        { apply List.filter_In. split; [|exact Hcodec1].
          apply List.filter_In. auto. }
        rewrite Hp in H1. destruct H1.
      * rewrite <- Hp in Hbest. apply List.filter_In in Hbest. apply Hbest. }
Qed.


(** A 720p stream beside the 360p one of [stream_at]. *)
Definition hd_stream_at (url : string) : StreamFormat.t :=
  StreamFormat.mk 22 (Some url) "video/mp4" 2000000 (Some 1280) (Some 720)
    None None (Some "hd720") (Some 30).

Lemma best_quality_is_greatest_witness :
  exists best,
    In best [stream_at "https://cdn.example/v"; hd_stream_at "https://cdn.example/hd"]
    /\ (forall s,
          In s (candidates [stream_at "https://cdn.example/v";
                            hd_stream_at "https://cdn.example/hd"] None) ->
          key_lt (quality_key best) (quality_key s) = false)
    /\ download_best_quality (origin whole (bytes_of "ABCDEFGHIJ") "v2")
         midnight noon noon (CircuitBreaker.default "download") "job"
         [stream_at "https://cdn.example/v"; hd_stream_at "https://cdn.example/hd"]
         "vid" "out" None fresh
       = download_stream (origin whole (bytes_of "ABCDEFGHIJ") "v2")
           midnight noon noon (CircuitBreaker.default "download") "job" best
           (target_name best "vid" "out") "vid" fresh.
Proof.
  destruct (proj2 (best_quality_is_greatest
                     (origin whole (bytes_of "ABCDEFGHIJ") "v2")
                     midnight noon noon (CircuitBreaker.default "download")
                     "job"
                     [stream_at "https://cdn.example/v";
                      hd_stream_at "https://cdn.example/hd"]
                     "vid" "out" None fresh))
    as (best & Hin & _ & _ & Hmax & _ & Hout).
  - exists (stream_at "https://cdn.example/v").
    split; [left; reflexivity|reflexivity].
  - exists best. split; [exact Hin|]. split; [exact Hmax|exact Hout].
Defined.


(** *** What a later resume finds *)

(** [listed k w]: the job [k] has a record, filed under its own id, whose
    status is pending or in_progress. *)
Definition listed (k : string) (w : World) : Prop :=
  exists s,
    StateManager.jobs (disk w) !! k = Some s
    /\ ExtractionState.job_id s = k
    /\ StateManager.is_incomplete s = true.

Lemma listed_is_incomplete k w :
  listed k w ->
  is_Some (StateManager.list_incomplete_jobs (disk w) !! k).
Proof.
  intros (s & Hs & _ & Hinc). exists s.
  unfold StateManager.list_incomplete_jobs.
  apply map_lookup_filter_Some. split; [exact Hs|exact Hinc].
Qed.

Lemma unknown_is_not_incomplete k d :
  StateManager.jobs d !! k = None ->
  StateManager.list_incomplete_jobs d !! k = None.
Proof.
  intros Hnone.
  destruct (StateManager.list_incomplete_jobs d !! k) as [s|] eqn:E;
    [|reflexivity].
  unfold StateManager.list_incomplete_jobs in E.
  apply map_lookup_filter_Some in E as [E _]. congruence.
Qed.

Section resumability.
Variable http_get : nat -> string -> gmap string string -> py.exn + Response.
Variable utcnow : nat -> Q.
Variable gate_time fail_time : Z -> Q.

Lemma checkpoint_listed k job_id bytes etag last_modified w :
  listed k w ->
  listed k (checkpoint utcnow job_id bytes etag last_modified w).
Proof.
  intros (s & Hs & Hid & Hinc).
  unfold listed, checkpoint, StateManager.update_download_progress.
  cbn [disk].
  destruct (StateManager.load_extraction_state job_id (disk w)) as [t|];
    [|exists s; auto].
  set (s3 := ExtractionState.set_status "in_progress" _).
  cbn [StateManager.jobs StateManager.save_extraction_state].
  destruct (decide (ExtractionState.job_id s3 = k)) as [E|E].
  - exists s3. rewrite E, lookup_insert_eq. repeat split; auto.
  - exists s. rewrite lookup_insert_ne by exact E. auto.
Qed.

Lemma attempt_listed k url part_file offset expected_etag
    expected_last_modified job_id w :
  listed k w ->
  listed k (snd (_download_with_range http_get utcnow url part_file offset
                   expected_etag expected_last_modified job_id w)).
Proof.
  apply (attempt_keeps http_get utcnow (listed k)).
  - intros w0 H. exact H.
  - intros w0 mode H. unfold listed, open_file in *. cbn.
    destruct (String.eqb mode "wb"); exact H.
  - intros w0 chunk H. exact H.
  - intros. apply checkpoint_listed. assumption.
Qed.

(** X29. What [resume_incomplete_jobs] will find after a transfer. For a
    job that has no record yet, or one listed as incomplete:
    when [download_stream] raises, whatever the cause and however far the
    transfer went, the job is among [list_incomplete_jobs] afterwards (no
    path through the transfer marks a job failed); when it returns, the
    job is not. *)
Theorem raised_transfer_stays_listed (cb : CircuitBreaker.t)
    (job_id : string) (stream : StreamFormat.t)
    (target_filename video_id : string) (w : World) :
  StateManager.load_extraction_state job_id (disk w) = None
  \/ listed job_id w ->
  let out := download_stream http_get utcnow gate_time fail_time cb job_id
               stream target_filename video_id w in
  (forall e, fst (fst out) = inl e ->
     is_Some (StateManager.list_incomplete_jobs (disk (snd out)) !! job_id))
  /\ (forall path, fst (fst out) = inr path ->
        StateManager.list_incomplete_jobs (disk (snd out)) !! job_id = None).
Proof.
  intros Hstart. cbv zeta. unfold download_stream.
  fold (prepare utcnow job_id stream target_filename video_id w).
  assert (Hjob : listed job_id
                   (snd (prepare utcnow job_id stream target_filename video_id
                           w))).
  { unfold prepare.
    destruct (StateManager.load_extraction_state job_id (disk w)) as [s0|]
      eqn:Hload.
    - destruct Hstart as [?|H]; [discriminate|exact H].
    - cbn [snd]. eexists. cbn. rewrite lookup_insert_eq.
      split; [reflexivity|]. split; reflexivity. }
  destruct (prepare utcnow job_id stream target_filename video_id w)
    as [state w1].
  cbn [snd] in Hjob.
  destruct (StateManager.get_download_resume_info job_id target_filename
              (disk w1)) as [[offset etag] last_modified].
  destruct (negb (py.truthy_str (StreamFormat.url stream))).
  { cbn. split; [intros _ _; apply listed_is_incomplete, Hjob|discriminate]. }
  set (r := RetryPolicy.with_retry _ _ _ _ _ _ _).
  assert (Hr : listed job_id (RetryPolicy.world r)).
  { unfold r. apply RetryPolicy.with_retry_preserves; [|exact Hjob].
    intros w0. apply attempt_listed. }
  destruct (RetryPolicy.result r) as [e0|v].
  { cbn. split; [intros _ _; apply listed_is_incomplete, Hr|discriminate]. }
  destruct (_atomic_complete _ target_filename (disk (RetryPolicy.world r)))
    as [e0|[final_path d3]] eqn:Hac.
  { cbn. split; [intros _ _; apply listed_is_incomplete, Hr|discriminate]. }
  cbn. split; [discriminate|]. intros _ _.
  apply unknown_is_not_incomplete. cbn. apply lookup_delete_eq.
Qed.

End resumability.

Lemma raised_transfer_stays_listed_witness :
  is_Some (StateManager.list_incomplete_jobs
             (disk (snd (download_stream
                           (origin whole (bytes_of "ABCDEFGHIJ") "v2")
                           midnight noon noon
                           (CircuitBreaker.default "download") "job"
                           (StreamFormat.mk 18 None "video/mp4" 500000 None
                              None (Some "s=abc") None None None)
                           "out.mp4" "vid" fresh))) !! "job").
Proof.
  apply (proj1 (raised_transfer_stays_listed
                  (origin whole (bytes_of "ABCDEFGHIJ") "v2") midnight noon
                  noon (CircuitBreaker.default "download") "job"
                  (StreamFormat.mk 18 None "video/mp4" 500000 None None
                     (Some "s=abc") None None None)
                  "out.mp4" "vid" fresh (or_introl eq_refl))
           missing_url_error).
  reflexivity.
Defined.

End ResumableDownloader.

(** ** player_artifacts.py: class PlayerArtifactManager *)
Module PlayerArtifactManager.

(** A fetched document: [resp.status_code] and [resp.text]. *)
Record Page := mk_page { status_code : Z; text : string }.

(** The manager and what it acts on: the in-memory cache in insertion
    order, the current artifact and the time of its last refresh, the disk
    of its state manager, and the lines it printed. *)
Record t := mk {
  _artifact_cache : list (string * PlayerArtifact.t);
  _current_artifact : option PlayerArtifact.t;
  _last_refresh : option Q;
  state_manager : StateManager.disk;
  printed : list string
}.

Definition __init__ (d : StateManager.disk) : t := mk [] None None d [].

Definition set_cache (c : list (string * PlayerArtifact.t)) (m : t) : t :=
  mk c (_current_artifact m) (_last_refresh m) (state_manager m) (printed m).

Definition set_current (a : PlayerArtifact.t) (now : Q) (m : t) : t :=
  mk (_artifact_cache m) (Some a) (Some now) (state_manager m) (printed m).

Definition set_disk (d : StateManager.disk) (m : t) : t :=
  mk (_artifact_cache m) (_current_artifact m) (_last_refresh m) d (printed m).

Definition print (line : string) (m : t) : t :=
  mk (_artifact_cache m) (_current_artifact m) (_last_refresh m)
     (state_manager m) (printed m ++ [line]).

Definition quote : ascii := ascii_of_nat 34.
Definition apostrophe : ascii := ascii_of_nat 39.

Definition is_quote (c : ascii) : bool :=
  Ascii.eqb c quote || Ascii.eqb c apostrophe.

Definition not_quote (c : ascii) : bool := negb (Ascii.eqb c quote).

(** The first pattern of [_extract_sts_safe]: [sts], an optional double or
    single quote, [\s*:\s*], then the group [(\d+)]. *)
Definition sts_pattern : list py.atom :=
  py.lits "sts"
  ++ [py.Opt is_quote; py.Star py.is_space; py.Lit ":"; py.Star py.is_space;
      py.Open; py.Plus py.is_digit; py.Close].

(** Its second pattern: the same with [signatureTimestamp] for [sts]. *)
Definition signatureTimestamp_pattern : list py.atom :=
  py.lits "signatureTimestamp"
  ++ [py.Opt is_quote; py.Star py.is_space; py.Lit ":"; py.Star py.is_space;
      py.Open; py.Plus py.is_digit; py.Close].

(** The pattern of the player URL: [jsUrl] between double quotes,
    [\s*:\s*], then between double quotes the group made of [/s/player/],
    one or more characters other than a double quote, [/player], one or
    more such characters again, and [.js]. *)
Definition jsUrl_pattern : list py.atom :=
  [py.Lit quote] ++ py.lits "jsUrl" ++ [py.Lit quote]
  ++ [py.Star py.is_space; py.Lit ":"; py.Star py.is_space; py.Lit quote;
      py.Open]
  ++ py.lits "/s/player/" ++ [py.Plus not_quote]
  ++ py.lits "/player" ++ [py.Plus not_quote]
  ++ py.lits ".js" ++ [py.Close; py.Lit quote].

(** The string it returns and the line it prints, if any. *)
Definition _extract_sts_safe (js_code : string) : string * list string :=
  let sts_match :=
    match py.re_search sts_pattern js_code with
    | Some groups => Some groups
    | None => py.re_search signatureTimestamp_pattern js_code
    end in
  match sts_match with
  | None => ("19000",
             ["[PlayerArtifact] WARNING: Failed to extract STS, using default"])
  | Some groups => (py.group1 groups, [])
  end.

(** [now] is the [datetime.utcnow()] of the freshness check on disk. *)
Definition _get_from_cache (version_id : string) (now : Q) (m : t)
    : option PlayerArtifact.t * t :=
  match py.dict_get version_id (_artifact_cache m) with
  | Some artifact => (Some artifact, m)
  | None =>
      match StateManager.load_player_artifact version_id now (state_manager m) with
      | Some artifact =>
          (Some artifact,
           set_cache (py.dict_set version_id artifact (_artifact_cache m)) m)
      | None => (None, m)
      end
  end.

Definition _add_to_cache (artifact : PlayerArtifact.t) (m : t) : t :=
  let cache := py.dict_set (PlayerArtifact.player_version_id artifact) artifact
                 (_artifact_cache m) in
  if IYEConfig.PLAYER_CACHE_SIZE <? Z.of_nat (length cache) then
    match py.dict_min_key PlayerArtifact.created_at cache with
    | Some oldest_key => set_cache (py.dict_del oldest_key cache) m
    | None => set_cache cache m
    end
  else set_cache cache m.

Section sync.

(** [session_get url] is what the session answers for [url] during the
    call. The two hashes and the extraction of the function bodies, which
    runs on the worker pool, are taken as given: nothing below depends on
    what they compute. *)
Variable session_get : string -> py.exn + Page.
Variable md5_hexdigest : string -> string.
Variable calculate_player_version_hash : string -> string.
Variable _extract_functions : string -> option string * option string.

(** The [except Exception as e] of [sync_player_artifact]. *)
Definition sync_failed (e : py.exn) (m : t) : (py.exn + PlayerArtifact.t) * t :=
  let m1 := print (String.append "[PlayerArtifact] Sync failed: " (py.msg e)) m in
  match _current_artifact m1 with
  | Some current =>
      (inr current, print "[PlayerArtifact] Falling back to existing artifact" m1)
  | None => (inl e, m1)
  end.

Definition use_cached (version_id : string) (cached : PlayerArtifact.t)
    (now : Q) (m : t) : (py.exn + PlayerArtifact.t) * t :=
  (inr cached,
   set_current cached now
     (print (String.append "[PlayerArtifact] Using cached artifact: "
               (String.append (py.prefix 12 version_id) "...")) m)).

(** The call is taken as instantaneous: each [datetime.utcnow()] in it
    reads [now]. *)
Definition sync_player_artifact (now : Q) (m : t)
    : (py.exn + PlayerArtifact.t) * t :=
  let m0 := print "[PlayerArtifact] Syncing player artifact..." m in
  match session_get "https://www.youtube.com/watch?v=dQw4w9WgXcQ" with
  | inl e => sync_failed e m0
  | inr resp =>
      if negb (status_code resp =? 200) then
        sync_failed (py.Exception (String.append "Failed to fetch watch page: "
                                     (py.str_of_int (status_code resp)))) m0
      else
        match py.re_search jsUrl_pattern (text resp) with
        | None => sync_failed (py.Exception "Failed to extract player URL") m0
        | Some groups =>
            let player_path := py.replace "\/" "/" (py.group1 groups) in
            let player_url :=
              String.append "https://www.youtube.com" player_path in
            let temp_version_id := md5_hexdigest player_url in
            match _get_from_cache temp_version_id now m0 with
            | (Some cached, m1) => use_cached temp_version_id cached now m1
            | (None, m1) =>
                let m2 := print (String.append "[PlayerArtifact] Fetching player: "
                                   player_url) m1 in
                match session_get player_url with
                | inl e => sync_failed e m2
                | inr js_resp =>
                    if negb (status_code js_resp =? 200) then
                      sync_failed
                        (py.Exception
                           (String.append "Failed to fetch player JS: "
                              (py.str_of_int (status_code js_resp)))) m2
                    else
                      let js_code := text js_resp in
                      let player_version_id :=
                        calculate_player_version_hash js_code in
                      match _get_from_cache player_version_id now m2 with
                      | (Some cached, m3) =>
                          use_cached player_version_id cached now m3
                      | (None, m3) =>
                          let '(extracted_sts, warning) :=
                            _extract_sts_safe js_code in
                          let m4 := fold_left (fun m line => print line m)
                                      warning m3 in
                          let '(decipher_code, n_code) :=
                            _extract_functions js_code in
                          let artifact :=
                            PlayerArtifact.mk player_url player_version_id
                              extracted_sts decipher_code n_code "2.0"
                              now now 0 in
                          let m5 := _add_to_cache artifact m4 in
                          let m6 := set_disk
                                      (StateManager.save_player_artifact artifact
                                         (state_manager m5)) m5 in
                          let m7 := set_current artifact now m6 in
                          (inr artifact,
                           print
                             (String.append "[PlayerArtifact] Synced successfully: v"
                               (String.append (py.prefix 12 player_version_id)
                                 (String.append "... STS=" extracted_sts))) m7)
                      end
                end
            end
        end
  end.

End sync.

(** *** What [_add_to_cache] keeps *)

Lemma length_dict_set {V} k (v : V) d :
  length (py.dict_set k v d)
  = match py.dict_get k d with
    | Some _ => length d
    | None => S (length d)
    end.
Proof.
  induction d as [|[k' v'] r IH]; cbn; [reflexivity|].
  destruct (String.eqb k k'); cbn; [reflexivity|].
  rewrite IH. destruct (py.dict_get k r); reflexivity.
Qed.

Lemma length_dict_del {V} k (d : list (string * V)) :
  py.dict_get k d <> None -> S (length (py.dict_del k d)) = length d.
Proof.
  induction d as [|[k' v'] r IH]; cbn; [congruence|].
  destruct (String.eqb k k'); cbn; [reflexivity|].
  intros H. rewrite IH; auto.
Qed.

Lemma dict_get_in {V} k (v : V) d : In (k, v) d -> py.dict_get k d <> None.
Proof.
  induction d as [|[k' v'] r IH]; cbn; [tauto|].
  intros [H|H].
  - inversion H; subst. rewrite String.eqb_refl. congruence.
  - destruct (String.eqb k k'); [congruence|auto].
Qed.

Lemma min_from_oldest {V} (key : V -> Q) d : forall best,
  exists v,
    In (py.min_from key best d, v) (best :: d)
    /\ forall kv, In kv (best :: d) -> (key v <= key (snd kv))%Q.
Proof.
  induction d as [|kv r IH]; intros best; cbn [py.min_from].
  - exists (snd best). split; [left; destruct best; reflexivity|].
    intros kv [<-|[]]. apply Qle_refl.
  - destruct (Qle_bool (key (snd best)) (key (snd kv))) eqn:E; cbn [negb].
    + apply Qle_bool_iff in E.
      destruct (IH best) as (v & Hin & Hmin). exists v. split.
      * destruct Hin as [H|H]; [left; exact H|right; right; exact H].
      * intros x [<-|[<-|H]].
        -- apply Hmin. left; reflexivity.
        -- eapply Qle_trans; [apply Hmin; left; reflexivity|exact E].
        -- apply Hmin. right; exact H.
    + assert (Hlt : (key (snd kv) < key (snd best))%Q).
      { apply Qnot_le_lt. intros H. apply Qle_bool_iff in H. congruence. }
      destruct (IH kv) as (v & Hin & Hmin). exists v. split.
      * right. exact Hin.
      * intros x [<-|[<-|H]].
        -- eapply Qle_trans; [apply Hmin; left; reflexivity|].
           apply Qlt_le_weak, Hlt.
        -- apply Hmin. left; reflexivity.
        -- apply Hmin. right; exact H.
Qed.

(** An insert through [_add_to_cache] keeps the cache within its capacity. *)
Lemma _add_to_cache_bounded artifact m :
  Z.of_nat (length (_artifact_cache m)) <= IYEConfig.PLAYER_CACHE_SIZE ->
  Z.of_nat (length (_artifact_cache (_add_to_cache artifact m)))
  <= IYEConfig.PLAYER_CACHE_SIZE.
Proof.
  intros Hle. unfold _add_to_cache.
  set (cache := py.dict_set _ artifact (_artifact_cache m)).
  assert (Hlen : (length cache <= S (length (_artifact_cache m)))%nat).
  { unfold cache. rewrite length_dict_set.
    destruct (py.dict_get _ _); lia. }
  destruct (Z.ltb_spec IYEConfig.PLAYER_CACHE_SIZE (Z.of_nat (length cache)))
    as [Hover|Hfit]; [|cbn; lia].
  destruct cache as [|kv r] eqn:Hc; cbn [py.dict_min_key]; [cbn in *; lia|].
  destruct (min_from_oldest PlayerArtifact.created_at r kv) as (v & Hin & _).
  apply dict_get_in, length_dict_del in Hin. cbn [_artifact_cache set_cache].
  lia.
Qed.

(** When the insert goes over capacity, the entry it removes is one whose
    [created_at] is the least of the cache. *)
Lemma _add_to_cache_evicts_oldest artifact m :
  let cache := py.dict_set (PlayerArtifact.player_version_id artifact) artifact
                 (_artifact_cache m) in
  IYEConfig.PLAYER_CACHE_SIZE < Z.of_nat (length cache) ->
  exists oldest_key oldest,
    In (oldest_key, oldest) cache
    /\ (forall kv, In kv cache ->
          (PlayerArtifact.created_at oldest
           <= PlayerArtifact.created_at (snd kv))%Q)
    /\ _artifact_cache (_add_to_cache artifact m) = py.dict_del oldest_key cache
    /\ S (length (_artifact_cache (_add_to_cache artifact m))) = length cache.
Proof.
  intros cache Hover. unfold _add_to_cache. fold cache.
  destruct (Z.ltb_spec IYEConfig.PLAYER_CACHE_SIZE (Z.of_nat (length cache)));
    [|lia].
  destruct cache as [|kv r] eqn:Hc; [cbn in Hover; unfold IYEConfig.PLAYER_CACHE_SIZE in Hover; lia|].
  cbn [py.dict_min_key].
  destruct (min_from_oldest PlayerArtifact.created_at r kv) as (v & Hin & Hmin).
  exists (py.min_from PlayerArtifact.created_at kv r), v.
  repeat split; auto.
  cbn [_artifact_cache set_cache]. apply length_dict_del.
  eapply dict_get_in; eassumption.
Qed.

Lemma _add_to_cache_printed artifact m :
  printed (_add_to_cache artifact m) = printed m.
Proof.
  unfold _add_to_cache. destruct (_ <? _); [|reflexivity].
  destruct (py.dict_min_key _ _); reflexivity.
Qed.

Lemma _get_from_cache_miss version_id now m :
  _artifact_cache m = [] ->
  StateManager.player_artifacts (state_manager m) = ∅ ->
  _get_from_cache version_id now m = (None, m).
Proof.
  intros Hc Hd. unfold _get_from_cache, StateManager.load_player_artifact.
  rewrite Hc, Hd, lookup_empty. reflexivity.
Qed.

(** *** Scenarios *)

Definition double_quote : string := String quote EmptyString.

Definition watch_url : string := "https://www.youtube.com/watch?v=dQw4w9WgXcQ".

(** A watch page naming its player, and a player script with no [sts] and
    no [signatureTimestamp] in it. *)
Definition watch_page : string :=
  String.concat double_quote
    ["<script>var ytcfg = {"; "jsUrl"; ":";
     "/s/player/0a1b2c3d/player_ias.vflset/en_US/base.js"; "};</script>"].

Definition player_js : string := "var a=1;function b(c){return c+1}".

Definition serving (page js : string) : string -> py.exn + Page :=
  fun url =>
    if String.eqb url watch_url then inr (mk_page 200 page)
    else inr (mk_page 200 js).

Definition sts_warning : string :=
  "[PlayerArtifact] WARNING: Failed to extract STS, using default".

(** C5 on the code. The player script has no STS field. [_extract_sts_safe]
    prints a warning and returns the default "19000"; no error is raised,
    and [sync_player_artifact], on a manager with no prior artifact,
    returns, keeps as current and persists an artifact whose
    [extracted_sts] is that default. *)
Theorem missing_sts_is_defaulted
    (md5_hexdigest calculate_player_version_hash : string -> string)
    (_extract_functions : string -> option string * option string) (now : Q) :
  let out := sync_player_artifact (serving watch_page player_js) md5_hexdigest
               calculate_player_version_hash _extract_functions now
               (__init__ StateManager.empty_disk) in
  py.re_search sts_pattern player_js = None
  /\ py.re_search signatureTimestamp_pattern player_js = None
  /\ _extract_sts_safe player_js = ("19000", [sts_warning])
  /\ exists artifact,
       fst out = inr artifact
       /\ PlayerArtifact.extracted_sts artifact = "19000"
       /\ _current_artifact (snd out) = Some artifact
       /\ StateManager.player_artifacts (state_manager (snd out))
            !! calculate_player_version_hash player_js = Some artifact
       /\ In sts_warning (printed (snd out)).
Proof.
  cbv zeta. split; [vm_compute; reflexivity|].
  split; [vm_compute; reflexivity|].
  assert (Hsts : _extract_sts_safe player_js = ("19000", [sts_warning]))
    by (vm_compute; reflexivity).
  split; [exact Hsts|].
  assert (Hpage : serving watch_page player_js
                    "https://www.youtube.com/watch?v=dQw4w9WgXcQ"
                  = inr (mk_page 200 watch_page)) by reflexivity.
  assert (Hurl : py.re_search jsUrl_pattern watch_page
                 = Some ["/s/player/0a1b2c3d/player_ias.vflset/en_US/base.js"])
    by (vm_compute; reflexivity).
  assert (Hjs : serving watch_page player_js
                  (String.append "https://www.youtube.com"
                     (py.replace "\/" "/" (py.group1
                        ["/s/player/0a1b2c3d/player_ias.vflset/en_US/base.js"])))
                = inr (mk_page 200 player_js)) by (vm_compute; reflexivity).
  unfold sync_player_artifact.
  rewrite Hpage. cbn [status_code text]. change (200 =? 200) with true.
  cbn [negb]. rewrite Hurl.
  rewrite _get_from_cache_miss by reflexivity.
  rewrite Hjs. cbn [status_code text]. change (200 =? 200) with true.
  cbn [negb].
  rewrite _get_from_cache_miss by reflexivity.
  rewrite Hsts.
  destruct (_extract_functions player_js) as [decipher_code n_code].
  eexists. split; [reflexivity|].
  split; [reflexivity|]. split; [reflexivity|]. split.
  - cbn. apply lookup_insert_eq.
  - cbn [snd printed print set_current set_disk]. apply in_or_app. left.
    rewrite _add_to_cache_printed. cbn. auto.
Qed.

(** [artifact_at id t]: an artifact of version [id] created at time [t]. *)
Definition artifact_at (id : string) (created : Q) : PlayerArtifact.t :=
  PlayerArtifact.mk
    (String.append "https://www.youtube.com/s/player/"
       (String.append id "/player_ias.vflset/en_US/base.js"))
    id "19876" None None "2.0" created created 0.

(** What a successful sync does with a new artifact: into the memory
    cache, then onto the disk. *)
Definition remember (m : t) (artifact : PlayerArtifact.t) : t :=
  let m1 := _add_to_cache artifact m in
  set_disk (StateManager.save_player_artifact artifact (state_manager m1)) m1.

Definition eleven_versions : list PlayerArtifact.t :=
  [artifact_at "v01" 1; artifact_at "v02" 2; artifact_at "v03" 3;
   artifact_at "v04" 4; artifact_at "v05" 5; artifact_at "v06" 6;
   artifact_at "v07" 7; artifact_at "v08" 8; artifact_at "v09" 9;
   artifact_at "v10" 10; artifact_at "v11" 11].

Definition after_eleven : t :=
  fold_left remember eleven_versions (__init__ StateManager.empty_disk).

(** C8 on the code. Eleven versions are synced within the hour: the
    eleventh insert evicts v01, the oldest, and the cache holds 10 entries.
    The player then goes back to v01: [_get_from_cache] finds it on disk,
    still fresh, and puts it in the memory cache with no eviction; the
    cache holds 11 entries, and the next [_add_to_cache] removes one entry
    for the one it adds, leaving 11. *)
Theorem disk_hit_overfills_cache :
  let m := after_eleven in
  let hit := _get_from_cache "v01" 12 m in
  length (_artifact_cache m) = 10%nat
  /\ py.dict_get "v01" (_artifact_cache m) = None
  /\ fst hit = Some (artifact_at "v01" 1)
  /\ length (_artifact_cache (snd hit)) = 11%nat
  /\ IYEConfig.PLAYER_CACHE_SIZE < Z.of_nat (length (_artifact_cache (snd hit)))
  /\ length (_artifact_cache (_add_to_cache (artifact_at "v12" 13) (snd hit)))
     = 11%nat.
Proof. cbv zeta. repeat split; vm_compute; reflexivity. Qed.

(** *** The current artifact *)

(** [now] is the [datetime.utcnow()] of the age check; a [datetime] is
    always true, so [not self._last_refresh] tells [None] apart. *)
Definition _needs_refresh (now : Q) (m : t) : bool :=
  match _last_refresh m with
  | None => true
  | Some last_refresh =>
      let age_seconds := (now - last_refresh)%Q in
      negb (Qle_bool age_seconds IYEConfig.PLAYER_CACHE_TTL)
  end.

Section current.

Variable session_get : string -> py.exn + Page.
Variable md5_hexdigest : string -> string.
Variable calculate_player_version_hash : string -> string.
Variable _extract_functions : string -> option string * option string.

(** The three tests of [needs_refresh] only read the manager; the test on
    the current artifact is taken first, which binds the artifact that is
    returned when no refresh is needed. *)
Definition get_current_artifact (force_refresh : bool) (now : Q) (m : t)
    : (py.exn + PlayerArtifact.t) * t :=
  match _current_artifact m with
  | None =>
      sync_player_artifact session_get md5_hexdigest
        calculate_player_version_hash _extract_functions now m
  | Some current =>
      if force_refresh || _needs_refresh now m then
        sync_player_artifact session_get md5_hexdigest
          calculate_player_version_hash _extract_functions now m
      else (inr current, m)
  end.

End current.

(** *** What a sync leaves behind *)

(** [untouched m m']: from [m] to [m'] only the log has grown. *)
Definition untouched (m m' : t) : Prop :=
  _artifact_cache m' = _artifact_cache m
  /\ _current_artifact m' = _current_artifact m
  /\ _last_refresh m' = _last_refresh m
  /\ state_manager m' = state_manager m.

Lemma untouched_refl m : untouched m m.
Proof. repeat split. Qed.

Lemma untouched_print line m m' : untouched m m' -> untouched m (print line m').
Proof. intros (Hc & Hcur & Hl & Hd). repeat split; cbn; assumption. Qed.

Lemma _get_from_cache_none version_id now m m' :
  _get_from_cache version_id now m = (None, m') -> m' = m.
Proof.
  unfold _get_from_cache.
  destruct (py.dict_get _ _); [discriminate|].
  destruct (StateManager.load_player_artifact _ _ _); [discriminate|].
  congruence.
Qed.

(** How a sync that started on [m] at [now] has ended. *)
Definition settled (m : t) (now : Q) (out : (py.exn + PlayerArtifact.t) * t)
    : Prop :=
  match fst out with
  | inr artifact =>
      _current_artifact (snd out) = Some artifact
      /\ (_last_refresh (snd out) = Some now
          \/ (_current_artifact m = Some artifact /\ untouched m (snd out)))
  | inl _ => _current_artifact m = None /\ untouched m (snd out)
  end.

Lemma sync_failed_settled e now m m' :
  untouched m m' -> settled m now (sync_failed e m').
Proof.
  intros Hu. pose proof Hu as (Hc & Hcur & Hl & Hd).
  unfold sync_failed, settled. cbn [_current_artifact print].
  destruct (_current_artifact m') as [current|] eqn:E; cbn [fst snd].
  - split; [exact E|]. right. split; [congruence|].
    do 2 apply untouched_print. exact Hu.
  - split; [congruence|]. apply untouched_print. exact Hu.
Qed.

Lemma use_cached_settled version_id cached now m m' :
  settled m now (use_cached version_id cached now m').
Proof. unfold use_cached, settled. cbn. auto. Qed.

Section sync_facts.

Variable session_get : string -> py.exn + Page.
Variable md5_hexdigest : string -> string.
Variable calculate_player_version_hash : string -> string.
Variable _extract_functions : string -> option string * option string.

Lemma sync_player_artifact_settled now m :
  settled m now
    (sync_player_artifact session_get md5_hexdigest
       calculate_player_version_hash _extract_functions now m).
Proof.
  unfold sync_player_artifact.
  assert (H0 : untouched m (print "[PlayerArtifact] Syncing player artifact..." m))
    by apply untouched_print, untouched_refl.
  set (m0 := print _ m) in *. clearbody m0.
  destruct (session_get _) as [e|resp]; [apply sync_failed_settled, H0|].
  destruct (negb _); [apply sync_failed_settled, H0|].
  destruct (py.re_search _ _) as [groups|]; [|apply sync_failed_settled, H0].
  cbv zeta.
  destruct (_get_from_cache _ now m0) as [[cached|] m1] eqn:E1;
    [apply use_cached_settled|].
  apply _get_from_cache_none in E1. subst m1.
  assert (H2 : forall line, untouched m (print line m0))
    by (intros; apply untouched_print, H0).
  destruct (session_get _) as [e|js_resp]; [apply sync_failed_settled, H2|].
  destruct (negb _); [apply sync_failed_settled, H2|].
  destruct (_get_from_cache _ now _) as [[cached|] m3] eqn:E3;
    [apply use_cached_settled|].
  destruct (_extract_sts_safe _) as [extracted_sts warning].
  destruct (_extract_functions _) as [decipher_code n_code].
  unfold settled. cbn. auto.
Qed.

(** X21. However [sync_player_artifact] ends, at any time and on any
    manager: an artifact it returns is the current artifact afterwards, and
    either the refresh time is now the time of the call or the artifact is
    the one that was current before and nothing but the log has changed
    (the fallback after a failure); an error it raises reaches the caller
    only when there was no current artifact, and then nothing but the log
    has changed; with a current artifact it never raises. *)
Theorem sync_player_artifact_outcome now m :
  let out := sync_player_artifact session_get md5_hexdigest
               calculate_player_version_hash _extract_functions now m in
  (forall artifact, fst out = inr artifact ->
     _current_artifact (snd out) = Some artifact
     /\ (_last_refresh (snd out) = Some now
         \/ (_current_artifact m = Some artifact /\ untouched m (snd out))))
  /\ (forall e, fst out = inl e ->
        _current_artifact m = None /\ untouched m (snd out))
  /\ (_current_artifact m <> None -> exists artifact, fst out = inr artifact).
Proof.
  cbv zeta. pose proof (sync_player_artifact_settled now m) as H.
  unfold settled in H.
  destruct (fst (sync_player_artifact _ _ _ _ now m)) as [e|artifact].
  - split; [discriminate|]. split; [intros ? _; exact H|].
    intros Hcur. destruct H as [H _]. contradiction.
  - split; [intros a Ha; inversion Ha; subst; exact H|].
    split; [discriminate|]. eauto.
Qed.

End sync_facts.

Lemma _needs_refresh_within now last m :
  _last_refresh m = Some last ->
  (now - last <= IYEConfig.PLAYER_CACHE_TTL)%Q ->
  _needs_refresh now m = false.
Proof.
  intros Hl Hle. unfold _needs_refresh. rewrite Hl. cbv zeta.
  apply Qle_bool_iff in Hle. rewrite Hle. reflexivity.
Qed.

Lemma _needs_refresh_expired now last m :
  _last_refresh m = Some last ->
  (IYEConfig.PLAYER_CACHE_TTL < now - last)%Q ->
  _needs_refresh now m = true.
Proof.
  intros Hl Hlt. unfold _needs_refresh. rewrite Hl. cbv zeta.
  destruct (Qle_bool _ _) eqn:E; [|reflexivity].
  apply Qle_bool_iff in E. exfalso. apply (Qlt_not_le _ _ Hlt E).
Qed.

(** X22. The first artifact is served again without the network. On a
    manager with no current artifact, when [get_current_artifact] returns
    an artifact at [t0], every unforced call within [PLAYER_CACHE_TTL]
    seconds of [t0] returns that artifact and leaves the manager as it is,
    whatever the session would answer. *)
Theorem first_artifact_is_served_within_ttl
    (session_get session_get' : string -> py.exn + Page)
    (md5_hexdigest calculate_player_version_hash : string -> string)
    (_extract_functions : string -> option string * option string)
    (force_refresh : bool) (t0 t1 : Q) (m : t) (artifact : PlayerArtifact.t) :
  let first := get_current_artifact session_get md5_hexdigest
                 calculate_player_version_hash _extract_functions
                 force_refresh t0 m in
  _current_artifact m = None ->
  fst first = inr artifact ->
  (t1 - t0 <= IYEConfig.PLAYER_CACHE_TTL)%Q ->
  get_current_artifact session_get' md5_hexdigest
    calculate_player_version_hash _extract_functions false t1 (snd first)
  = (inr artifact, snd first).
Proof.
  cbv zeta. intros Hnone Hfst Hle.
  unfold get_current_artifact in Hfst |- *. rewrite Hnone in Hfst |- *.
  pose proof (sync_player_artifact_settled session_get md5_hexdigest
                calculate_player_version_hash _extract_functions t0 m) as Hs.
  unfold settled in Hs. rewrite Hfst in Hs.
  destruct Hs as (Hcur & [Hl|[Hprior _]]); [|congruence].
  rewrite Hcur. cbn [orb].
  rewrite (_needs_refresh_within _ _ _ Hl Hle). reflexivity.
Qed.

(** X23. A refresh that fails is not a refresh. On a manager whose current
    artifact has outlived [PLAYER_CACHE_TTL], an unforced
    [get_current_artifact] never raises; when the refresh time is not the
    time of the call afterwards, the artifact returned is the stale one,
    nothing but the log has changed, and every later unforced call runs
    the sync again. *)
Theorem failed_refresh_serves_stale
    (session_get session_get' : string -> py.exn + Page)
    (md5_hexdigest calculate_player_version_hash : string -> string)
    (_extract_functions : string -> option string * option string)
    (now last : Q) (m : t) (current : PlayerArtifact.t) :
  let out := get_current_artifact session_get md5_hexdigest
               calculate_player_version_hash _extract_functions false now m in
  _current_artifact m = Some current ->
  _last_refresh m = Some last ->
  (IYEConfig.PLAYER_CACHE_TTL < now - last)%Q ->
  exists artifact,
    fst out = inr artifact
    /\ _current_artifact (snd out) = Some artifact
    /\ (_last_refresh (snd out) <> Some now ->
        artifact = current
        /\ untouched m (snd out)
        /\ forall later, (now <= later)%Q ->
             get_current_artifact session_get' md5_hexdigest
               calculate_player_version_hash _extract_functions false later
               (snd out)
             = sync_player_artifact session_get' md5_hexdigest
                 calculate_player_version_hash _extract_functions later
                 (snd out)).
Proof.
  cbv zeta. intros Hcur Hl Hlt.
  assert (E : get_current_artifact session_get md5_hexdigest
                 calculate_player_version_hash _extract_functions false now m
               = sync_player_artifact session_get md5_hexdigest
                   calculate_player_version_hash _extract_functions now m).
  { unfold get_current_artifact. rewrite Hcur.
    rewrite (_needs_refresh_expired _ _ _ Hl Hlt). reflexivity. }
  rewrite E. clear E.
  pose proof (sync_player_artifact_settled session_get md5_hexdigest
                calculate_player_version_hash _extract_functions now m) as Hs.
  unfold settled in Hs.
  destruct (fst (sync_player_artifact session_get md5_hexdigest
                   calculate_player_version_hash _extract_functions now m))
    as [e|artifact]; [destruct Hs; congruence|].
  exists artifact. split; [reflexivity|].
  destruct Hs as (Hcur' & Hcase). split; [exact Hcur'|].
  intros Hstale. destruct Hcase as [?|[Hprior Hu]]; [contradiction|].
  split; [congruence|]. split; [exact Hu|].
  intros later Hlater. destruct Hu as (_ & Hc & Hl' & _).
  unfold get_current_artifact. rewrite Hcur'.
  rewrite (_needs_refresh_expired later last); [reflexivity|congruence|].
  lra.
Qed.


(** *** The two levels of the cache *)

(** X25. The memory level has no expiry. An artifact absent from the memory
    cache, present on disk and within [PLAYER_CACHE_TTL] of its creation
    is returned by [_get_from_cache], which adds it to the memory cache
    (one entry more) and leaves the disk as it is; from then on
    [_get_from_cache] returns it from memory at any later time, however old
    it has become, with no further change. *)
Theorem disk_hit_is_promoted version_id now m artifact :
  py.dict_get version_id (_artifact_cache m) = None ->
  StateManager.player_artifacts (state_manager m) !! version_id = Some artifact ->
  (now - PlayerArtifact.created_at artifact <= IYEConfig.PLAYER_CACHE_TTL)%Q ->
  let m' := snd (_get_from_cache version_id now m) in
  fst (_get_from_cache version_id now m) = Some artifact
  /\ length (_artifact_cache m') = S (length (_artifact_cache m))
  /\ state_manager m' = state_manager m
  /\ forall later, _get_from_cache version_id later m' = (Some artifact, m').
Proof.
  intros Hmiss Hdisk Hfresh. cbv zeta.
  assert (E : _get_from_cache version_id now m
              = (Some artifact,
                 set_cache (py.dict_set version_id artifact (_artifact_cache m))
                   m)).
  { unfold _get_from_cache. rewrite Hmiss.
    unfold StateManager.load_player_artifact. rewrite Hdisk. cbv zeta.
    apply Qle_bool_iff in Hfresh. rewrite Hfresh. reflexivity. }
  rewrite E. cbn [fst snd].
  split; [reflexivity|]. split.
  { cbn [_artifact_cache set_cache]. rewrite length_dict_set, Hmiss.
    reflexivity. }
  split; [reflexivity|].
  intros later. unfold _get_from_cache. cbn [_artifact_cache set_cache].
  rewrite py.dict_get_set_eq. reflexivity.
Qed.

(** X26. Through [_add_to_cache] alone the memory cache never outgrows
    [PLAYER_CACHE_SIZE]: from a cache within capacity, any sequence of
    inserts leaves a cache within capacity. *)
Theorem inserts_stay_within_capacity artifacts : forall m,
  Z.of_nat (length (_artifact_cache m)) <= IYEConfig.PLAYER_CACHE_SIZE ->
  Z.of_nat (length (_artifact_cache
              (fold_left (fun m artifact => _add_to_cache artifact m)
                 artifacts m)))
  <= IYEConfig.PLAYER_CACHE_SIZE.
Proof.
  induction artifacts as [|artifact rest IH]; intros m Hle; cbn [fold_left].
  - exact Hle.
  - apply IH, _add_to_cache_bounded, Hle.
Qed.

(** X27. The eviction of [_add_to_cache] spares the artifact just inserted
    as soon as the cache holds, under another version id, an artifact
    created strictly before it: the inserted artifact is then found under
    its version id after the call. (No two entries of the cache share a
    key, as in a [dict].) *)
Theorem newest_insert_is_kept artifact m other_key other :
  NoDup (map fst (_artifact_cache m)) ->
  In (other_key, other) (_artifact_cache m) ->
  other_key <> PlayerArtifact.player_version_id artifact ->
  (PlayerArtifact.created_at other < PlayerArtifact.created_at artifact)%Q ->
  py.dict_get (PlayerArtifact.player_version_id artifact)
    (_artifact_cache (_add_to_cache artifact m)) = Some artifact.
Proof.
  intros Hnd Hin Hne Holder. unfold _add_to_cache.
  set (id := PlayerArtifact.player_version_id artifact) in *.
  assert (Hset : py.dict_get id (py.dict_set id artifact (_artifact_cache m))
                 = Some artifact) by apply py.dict_get_set_eq.
  assert (Hnd' : NoDup (map fst (py.dict_set id artifact (_artifact_cache m))))
    by apply py.dict_set_NoDup, Hnd.
  assert (Hin' : In (other_key, other)
                   (py.dict_set id artifact (_artifact_cache m)))
    by (apply py.In_dict_set_other; assumption).
  set (cache := py.dict_set id artifact (_artifact_cache m)) in *.
  destruct (_ <? _); [|exact Hset].
  destruct cache as [|kv r] eqn:Hc; [discriminate|].
  cbn [py.dict_min_key].
  destruct (min_from_oldest PlayerArtifact.created_at r kv)
    as (oldest & Hold & Hmin).
  cbn [_artifact_cache set_cache].
  destruct (String.eqb_spec id (py.min_from PlayerArtifact.created_at kv r))
    as [Heq|Hother].
  - exfalso. rewrite <- Heq in Hold.
    apply (py.In_dict_get _ _ _ Hnd') in Hold.
    assert (oldest = artifact) by congruence. subst oldest.
    specialize (Hmin _ Hin'). cbn [snd] in Hmin.
    apply (Qlt_not_le _ _ Holder Hmin).
  - rewrite py.dict_get_del_ne by exact Hother. exact Hset.
Qed.

(** *** The signature timestamp *)

Lemma final_group_digits pre js_code groups :
  forallb py.is_plain pre = true ->
  py.re_search (pre ++ [py.Open; py.Plus py.is_digit; py.Close]) js_code
  = Some groups ->
  py.group1 groups <> EmptyString
  /\ py.all_chars py.is_digit (py.group1 groups) = true.
Proof.
  intros Hp Hs. apply py.re_search_matches in Hs as [s' Hm].
  apply py.match_at_final_group in Hm as (captured & -> & Hne & Hall);
    [|exact Hp].
  split; assumption.
Qed.

(** X28. Whatever the player script, [_extract_sts_safe] returns a
    non-empty string of decimal digits and never raises. It prints nothing
    when one of its two patterns is found in the script; when neither is,
    it prints the warning and the string is the default 19000. *)
Theorem _extract_sts_safe_is_numeric js_code :
  let sts := fst (_extract_sts_safe js_code) in
  let warning := snd (_extract_sts_safe js_code) in
  sts <> EmptyString
  /\ py.all_chars py.is_digit sts = true
  /\ (warning = []
      \/ (warning = [sts_warning] /\ sts = "19000"))
  /\ (warning = []
      <-> (py.re_search sts_pattern js_code <> None
           \/ py.re_search signatureTimestamp_pattern js_code <> None)).
Proof.
  cbv zeta. unfold _extract_sts_safe.
  destruct (py.re_search sts_pattern js_code) as [groups|] eqn:E1.
  - cbn [fst snd].
    destruct (final_group_digits
                (py.lits "sts" ++ [py.Opt is_quote; py.Star py.is_space;
                                   py.Lit ":"; py.Star py.is_space])
                js_code groups eq_refl E1) as [Hne Hall].
    split; [exact Hne|]. split; [exact Hall|]. split; [left; reflexivity|].
    split; [intros _; left; discriminate|reflexivity].
  - destruct (py.re_search signatureTimestamp_pattern js_code)
      as [groups|] eqn:E2; cbn [fst snd].
    + destruct (final_group_digits
                  (py.lits "signatureTimestamp"
                   ++ [py.Opt is_quote; py.Star py.is_space;
                       py.Lit ":"; py.Star py.is_space])
                  js_code groups eq_refl E2) as [Hne Hall].
      split; [exact Hne|]. split; [exact Hall|]. split; [left; reflexivity|].
      split; [intros _; right; discriminate|reflexivity].
    + split; [discriminate|]. split; [reflexivity|].
      split; [right; split; reflexivity|].
      split; [discriminate|]. intros [H|H]; congruence.
Qed.

(** *** Runs of the manager *)

Definition offline : string -> py.exn + Page :=
  fun _ => inl (py.Exception "connection_reset by peer").

Definition as_is (s : string) : string := s.

Definition no_functions (js_code : string) : option string * option string :=
  (None, None).

Definition player_url_of_watch_page : string :=
  "https://www.youtube.com/s/player/0a1b2c3d/player_ias.vflset/en_US/base.js".

(** The artifact a sync at [now] makes of [watch_page] and [player_js]. *)
Definition synced_at (now : Q) : PlayerArtifact.t :=
  PlayerArtifact.mk player_url_of_watch_page player_js "19000" None None
    "2.0" now now 0.

(** A manager holding [synced_at 0] as current, refreshed at 0. *)
Definition warm : t :=
  snd (sync_player_artifact (serving watch_page player_js) as_is as_is
         no_functions 0%Q (__init__ StateManager.empty_disk)).

Lemma sync_player_artifact_outcome_witness :
  (_current_artifact (__init__ StateManager.empty_disk) = None
   /\ untouched (__init__ StateManager.empty_disk)
        (snd (sync_player_artifact offline as_is as_is no_functions 5%Q
                (__init__ StateManager.empty_disk))))
  /\ exists artifact,
       fst (sync_player_artifact offline as_is as_is no_functions 5%Q warm)
       = inr artifact.
Proof.
  split.
  - apply (proj1 (proj2 (sync_player_artifact_outcome offline as_is as_is
                           no_functions 5%Q
                           (__init__ StateManager.empty_disk)))
             (py.Exception "connection_reset by peer")).
    reflexivity.
  - apply (proj2 (proj2 (sync_player_artifact_outcome offline as_is as_is
                           no_functions 5%Q warm))).
    vm_compute. discriminate.
Defined.

Lemma first_artifact_is_served_within_ttl_witness :
  get_current_artifact offline as_is as_is no_functions false 3600%Q warm
  = (inr (synced_at 0), warm).
Proof.
  apply (first_artifact_is_served_within_ttl (serving watch_page player_js)
           offline as_is as_is no_functions false 0%Q 3600%Q
           (__init__ StateManager.empty_disk) (synced_at 0)).
  - reflexivity.
  - vm_compute. reflexivity.
  - vm_compute. congruence.
Defined.

Lemma failed_refresh_serves_stale_witness :
  exists artifact,
    fst (get_current_artifact offline as_is as_is no_functions false 3601%Q
           warm) = inr artifact
    /\ _current_artifact
         (snd (get_current_artifact offline as_is as_is no_functions false
                 3601%Q warm)) = Some artifact
    /\ (_last_refresh
          (snd (get_current_artifact offline as_is as_is no_functions false
                  3601%Q warm)) <> Some 3601%Q ->
        artifact = synced_at 0
        /\ untouched warm
             (snd (get_current_artifact offline as_is as_is no_functions
                     false 3601%Q warm))
        /\ forall later, (3601 <= later)%Q ->
             get_current_artifact (serving watch_page player_js) as_is as_is
               no_functions false later
               (snd (get_current_artifact offline as_is as_is no_functions
                       false 3601%Q warm))
             = sync_player_artifact (serving watch_page player_js) as_is
                 as_is no_functions later
                 (snd (get_current_artifact offline as_is as_is no_functions
                         false 3601%Q warm))).
Proof.
  apply (failed_refresh_serves_stale offline (serving watch_page player_js)
           as_is as_is no_functions 3601%Q 0%Q warm (synced_at 0)).
  - vm_compute. reflexivity.
  - vm_compute. reflexivity.
  - vm_compute. reflexivity.
Defined.

Lemma disk_hit_is_promoted_witness :
  fst (_get_from_cache "v01" 12%Q after_eleven) = Some (artifact_at "v01" 1)
  /\ _get_from_cache "v01" 999999%Q
       (snd (_get_from_cache "v01" 12%Q after_eleven))
     = (Some (artifact_at "v01" 1),
        snd (_get_from_cache "v01" 12%Q after_eleven)).
Proof.
  pose proof (disk_hit_is_promoted "v01" 12%Q after_eleven
                (artifact_at "v01" 1)) as H.
  cbv zeta in H.
  destruct H as (Hfst & _ & _ & Hlater).
  - vm_compute. reflexivity.
  - vm_compute. reflexivity.
  - vm_compute. congruence.
  - split; [exact Hfst|apply Hlater].
Defined.

Lemma inserts_stay_within_capacity_witness :
  Z.of_nat (length (_artifact_cache
              (fold_left (fun m artifact => _add_to_cache artifact m)
                 eleven_versions (__init__ StateManager.empty_disk))))
  <= IYEConfig.PLAYER_CACHE_SIZE.
Proof.
  apply (inserts_stay_within_capacity eleven_versions
           (__init__ StateManager.empty_disk)).
  vm_compute. congruence.
Defined.

Lemma newest_insert_is_kept_witness :
  py.dict_get "v12"
    (_artifact_cache (_add_to_cache (artifact_at "v12" 13) after_eleven))
  = Some (artifact_at "v12" 13).
Proof.
  apply (newest_insert_is_kept (artifact_at "v12" 13) after_eleven
           "v05" (artifact_at "v05" 5)).
  - vm_compute. repeat (constructor; [rewrite list_elem_of_In; cbn; intuition discriminate|]).
    constructor.
  - vm_compute. tauto.
  - discriminate.
  - reflexivity.
Defined.


(** *** The two ids of a player *)

Lemma In_dict_set_inv {V} k (v : V) d kv :
  In kv (py.dict_set k v d) -> kv = (k, v) \/ In kv d.
Proof.
  induction d as [|[k' v'] r IH]; cbn.
  - intros [H|[]]. left. congruence.
  - destruct (String.eqb k k'); cbn.
    + intros [H|H]; [left; congruence|right; right; exact H].
    + intros [H|H]; [right; left; exact H|].
      destruct (IH H) as [?|?]; [left; assumption|right; right; assumption].
Qed.

Lemma In_dict_del_incl {V} k (d : list (string * V)) kv :
  In kv (py.dict_del k d) -> In kv d.
Proof.
  induction d as [|[k' v'] r IH]; cbn; [tauto|].
  destruct (String.eqb k k'); cbn; [tauto|]. intros [H|H]; auto.
Qed.

(** [keyed_by n m]: every version id under which the manager holds an
    artifact, in memory or on disk, has [n] characters. *)
Definition keyed_by (n : nat) (m : t) : Prop :=
  (forall k v, In (k, v) (_artifact_cache m) -> String.length k = n)
  /\ (forall k v,
        StateManager.player_artifacts (state_manager m) !! k = Some v ->
        String.length k = n).

Lemma keyed_by_print n line m : keyed_by n m -> keyed_by n (print line m).
Proof. intros H. exact H. Qed.

Lemma keyed_by_set_current n artifact now m :
  keyed_by n m -> keyed_by n (set_current artifact now m).
Proof. intros H. exact H. Qed.

Lemma keyed_by__get_from_cache n version_id now m :
  keyed_by n m -> keyed_by n (snd (_get_from_cache version_id now m)).
Proof.
  intros [Hc Hd]. unfold _get_from_cache.
  destruct (py.dict_get _ _); [split; assumption|].
  unfold StateManager.load_player_artifact.
  destruct (StateManager.player_artifacts _ !! version_id) as [artifact|]
    eqn:E; [|split; assumption].
  cbv zeta. destruct (Qle_bool _ _); [|split; assumption].
  split; [|exact Hd]. cbn [snd _artifact_cache set_cache].
  intros k v Hin. apply In_dict_set_inv in Hin as [Heq|Hin]; [|eauto].
  inversion Heq; subst. eauto.
Qed.

Lemma keyed_by__add_to_cache n artifact m :
  String.length (PlayerArtifact.player_version_id artifact) = n ->
  keyed_by n m -> keyed_by n (_add_to_cache artifact m).
Proof.
  intros Hid [Hc Hd].
  assert (Hset : forall k v,
            In (k, v) (py.dict_set (PlayerArtifact.player_version_id artifact)
                         artifact (_artifact_cache m)) ->
            String.length k = n).
  { intros k v Hin. apply In_dict_set_inv in Hin as [Heq|Hin]; [|eauto].
    inversion Heq; subst. reflexivity. }
  unfold _add_to_cache. destruct (_ <? _); [|split; assumption].
  destruct (py.dict_min_key _ _); [|split; assumption].
  split; [|exact Hd]. cbn [_artifact_cache set_cache].
  intros k v Hin. apply In_dict_del_incl in Hin. eauto.
Qed.

Lemma keyed_by_sync_failed n e m :
  keyed_by n m -> keyed_by n (snd (sync_failed e m)).
Proof.
  intros H. unfold sync_failed. cbn [_current_artifact print].
  destruct (_current_artifact m); exact H.
Qed.

Section digests.

Variable session_get : string -> py.exn + Page.
Variable md5_hexdigest : string -> string.
Variable calculate_player_version_hash : string -> string.
Variable _extract_functions : string -> option string * option string.

(** A hexadecimal MD5 digest has 32 characters, a SHA-256 one 64. *)
Hypothesis md5_length :
  forall s, String.length (md5_hexdigest s) = 32%nat.
Hypothesis sha256_length :
  forall s, String.length (calculate_player_version_hash s) = 64%nat.

Lemma keyed_by_sync now m :
  keyed_by 64 m ->
  keyed_by 64
    (snd (sync_player_artifact session_get md5_hexdigest
            calculate_player_version_hash _extract_functions now m)).
Proof.
  intros H. unfold sync_player_artifact.
  apply (keyed_by_print _ "[PlayerArtifact] Syncing player artifact...") in H.
  set (m0 := print _ m) in *. clearbody m0.
  destruct (session_get _) as [e|resp]; [apply keyed_by_sync_failed, H|].
  destruct (negb _); [apply keyed_by_sync_failed, H|].
  destruct (py.re_search _ _) as [groups|]; [|apply keyed_by_sync_failed, H].
  cbv zeta.
  pose proof (keyed_by__get_from_cache 64
                (md5_hexdigest (String.append "https://www.youtube.com"
                   (py.replace "\/" "/" (py.group1 groups)))) now m0 H) as H1.
  destruct (_get_from_cache _ now m0) as [[cached|] m1]; cbn [snd] in H1;
    [exact H1|].
  destruct (session_get _) as [e|js_resp]; [apply keyed_by_sync_failed, H1|].
  destruct (negb _); [apply keyed_by_sync_failed, H1|].
  match goal with
  | |- context [_get_from_cache ?id now ?mm] =>
      pose proof (keyed_by__get_from_cache 64 id now mm H1) as H3;
      destruct (_get_from_cache id now mm) as [[cached|] m3]
  end; cbn [snd] in H3; [exact H3|].
  destruct (_extract_sts_safe _) as [extracted_sts warning].
  destruct (_extract_functions _) as [decipher_code n_code].
  cbn [snd].
  assert (H4 : keyed_by 64 (fold_left (fun m line => print line m) warning m3)).
  { clear -H3. revert m3 H3.
    induction warning as [|line rest IH]; intros m3 H3; cbn [fold_left];
      [exact H3|]. apply IH, H3. }
  set (m4 := fold_left _ warning m3) in *. clearbody m4.
  match goal with
  | |- context [_add_to_cache ?a m4] =>
      pose proof (keyed_by__add_to_cache 64 a m4 (sha256_length _) H4)
        as [Hc Hd];
      set (m5 := _add_to_cache a m4) in *; clearbody m5
  end.
  split; [exact Hc|].
  cbn [state_manager print set_current set_disk
       StateManager.player_artifacts StateManager.save_player_artifact].
  intros k v Hk. apply lookup_insert_Some in Hk as [[<- _]|[_ Hk]]; [|eauto].
  cbn [PlayerArtifact.player_version_id]. apply sha256_length.
Qed.

Lemma keyed_by_miss now m url :
  keyed_by 64 m ->
  _get_from_cache (md5_hexdigest url) now m = (None, m).
Proof.
  intros [Hc Hd]. unfold _get_from_cache.
  destruct (py.dict_get _ _) as [artifact|] eqn:E.
  { apply py.dict_get_Some_In, Hc in E. rewrite md5_length in E.
    discriminate. }
  unfold StateManager.load_player_artifact.
  destruct (StateManager.player_artifacts _ !! _) as [artifact|] eqn:E';
    [|reflexivity].
  apply Hd in E'. rewrite md5_length in E'. discriminate.
Qed.

(** X24. The lookup under the provisional id never hits. The manager
    stores an artifact, in memory and on disk, under the SHA-256 digest of
    the player script (64 characters) and [sync_player_artifact] first
    looks it up under the MD5 digest of the player URL (32 characters).
    On a manager whose artifacts are all stored under 64 characters, as
    the empty one is, a sync keeps it so and the provisional lookup
    misses for every URL at every time; so a sync whose watch page names a
    player always fetches that player: when the fetch raises and there is
    no current artifact the sync raises that error, whatever is cached on
    disk. *)
Theorem provisional_lookup_never_hits now m :
  keyed_by 64 m ->
  keyed_by 64
    (snd (sync_player_artifact session_get md5_hexdigest
            calculate_player_version_hash _extract_functions now m))
  /\ (forall url at_time,
        _get_from_cache (md5_hexdigest url) at_time m = (None, m))
  /\ (forall page groups e,
        session_get watch_url = inr page ->
        status_code page = 200 ->
        py.re_search jsUrl_pattern (text page) = Some groups ->
        session_get (String.append "https://www.youtube.com"
                       (py.replace "\/" "/" (py.group1 groups))) = inl e ->
        _current_artifact m = None ->
        fst (sync_player_artifact session_get md5_hexdigest
               calculate_player_version_hash _extract_functions now m)
        = inl e).
Proof.
  intros H. split; [apply keyed_by_sync, H|].
  split; [intros; apply keyed_by_miss, H|].
  intros page groups e Hpage H200 Hre Hjs Hnone. unfold watch_url in Hpage.
  unfold sync_player_artifact. rewrite Hpage, H200.
  change (200 =? 200) with true. cbn [negb]. rewrite Hre. cbv zeta.
  rewrite keyed_by_miss by exact H. rewrite Hjs.
  unfold sync_failed. cbn [_current_artifact print]. rewrite Hnone.
  reflexivity.
Qed.

End digests.

(** The digests of the empty string stand for the two hash functions. *)
Definition md5_of_nothing (s : string) : string :=
  "d41d8cd98f00b204e9800998ecf8427e".

Definition sha256_of_nothing (s : string) : string :=
  "e3b0c44298fc1c149afbf4c8996fb92427ae41e4649b934ca495991b7852b855".

(** A session whose watch page is served and whose player is not. *)
Definition player_unreachable : string -> py.exn + Page :=
  fun url =>
    if String.eqb url watch_url then inr (mk_page 200 watch_page)
    else inl (py.Exception "connection_reset by peer").

(** A manager started over a disk that holds the player of [watch_page]. *)
Definition restarted : t :=
  __init__
    (StateManager.save_player_artifact
       (PlayerArtifact.mk player_url_of_watch_page (sha256_of_nothing player_js)
          "19876" None None "2.0" 0 0 0)
       StateManager.empty_disk).

Lemma provisional_lookup_never_hits_witness :
  fst (sync_player_artifact player_unreachable md5_of_nothing
         sha256_of_nothing no_functions 60%Q restarted)
  = inl (py.Exception "connection_reset by peer").
Proof.
  refine (proj2 (proj2
    (provisional_lookup_never_hits player_unreachable md5_of_nothing
       sha256_of_nothing no_functions _ _ 60%Q restarted _))
    (mk_page 200 watch_page)
    ["/s/player/0a1b2c3d/player_ias.vflset/en_US/base.js"]
    (py.Exception "connection_reset by peer") _ _ _ _ _).
  - intros s. reflexivity.
  - intros s. reflexivity.
  - split.
    + intros k v [].
    + intros k v Hk. cbn in Hk.
      apply lookup_insert_Some in Hk as [[<- _]|[_ Hk]]; [reflexivity|].
      rewrite lookup_empty in Hk. discriminate.
  - reflexivity.
  - reflexivity.
  - vm_compute. reflexivity.
  - vm_compute. reflexivity.
  - reflexivity.
Defined.

End PlayerArtifactManager.
